(** * Document Extractor API: a shallow embedding of [main.py]

    The service has two operations.  [extract_document] checks the
    extension of an uploaded file and hands its bytes to [extract_pdf] or
    [extract_pptx]; [transform_text_to_json] unwraps a JSON value that sits
    inside a markdown fence inside the [text] field of the first element of
    a JSON list.

    Python values are modelled as follows.
    - [str] is a sequence of Unicode code points ([list N]).
    - [bytes] is [list byte].
    - the values produced by [json.loads] are the inductive type
      [Json.value]; a [dict] is an association list in insertion order
      whose keys are pairwise distinct.
    - exceptions are the inductive type [exn]; a computation that may
      raise returns [result].

    The library calls of [main.py] ([json.loads], [re.search],
    [hashlib.sha256], [str.lower], [str.split], [str.strip]) are modelled
    by executable definitions that follow the documented behaviour of
    CPython.  The document parsers ([PyPDF2.PdfReader],
    [pptx.Presentation]) and the clock are parameters of the extractors. *)

From Stdlib Require Import List NArith ZArith String Ascii Bool Lia.
From Stdlib Require Import Strings.Byte DecimalString.
Import ListNotations.

Set Warnings "-register-all".

(* ================================================================== *)
(** ** Python [str] *)

Module PyStr.
Local Open Scope N_scope.

(** A Python string: its code points, in order. *)
Definition str := list N.

(** The string written with the ASCII characters of [s]. *)
Definition py (s : string) : str :=
  List.map N_of_ascii (list_ascii_of_string s).

Definition cp (a : ascii) : N := N_of_ascii a.

Definition QUOTE : N := 34.
Definition BACKSLASH : N := 92.
Definition NEWLINE : N := 10.
Definition BACKTICK : N := 96.
Definition DOT : N := 46.

Fixpoint str_eqb (a b : str) : bool :=
  match a, b with
  | [], [] => true
  | x :: a', y :: b' => (x =? y) && str_eqb a' b'
  | _, _ => false
  end.

(** [s.startswith(p)]; on success the remainder after [p] is returned. *)
Fixpoint strip_prefix (p s : str) : option str :=
  match p, s with
  | [], _ => Some s
  | x :: p', y :: s' => if x =? y then strip_prefix p' s' else None
  | _ :: _, [] => None
  end.

Definition startswith (s p : str) : bool :=
  match strip_prefix p s with Some _ => true | None => false end.

(** [Py_UNICODE_ISSPACE]: the characters removed by [str.strip()] and
    matched by [\s] in a [str] pattern. *)
Definition isspace (c : N) : bool :=
  ((9 <=? c) && (c <=? 13)) || ((28 <=? c) && (c <=? 32))
  || (c =? 133) || (c =? 160) || (c =? 5760)
  || ((8192 <=? c) && (c <=? 8202))
  || (c =? 8232) || (c =? 8233) || (c =? 8239) || (c =? 8287)
  || (c =? 12288).

Fixpoint lstrip (s : str) : str :=
  match s with
  | c :: s' => if isspace c then lstrip s' else s
  | [] => []
  end.

Definition rstrip (s : str) : str := rev (lstrip (rev s)).

(** [s.strip()] *)
Definition strip (s : str) : str := rstrip (lstrip s).

(** Lower-casing of one code point.  ASCII capitals map to their small
    letters.  Outside ASCII only the two code points whose lower-case
    form contains an ASCII letter are listed (U+0130 and U+212A, the
    Kelvin sign); the lower-case form of every other non-ASCII code point
    is non-ASCII as well, and is left as it is here: [main.py] only
    compares the result with ASCII literals after splitting on ['.']. *)
Definition lower_cp (c : N) : list N :=
  if (65 <=? c) && (c <=? 90) then [c + 32]
  else if c =? 304 then [105; 775]
  else if c =? 8490 then [107]
  else [c].

(** [s.lower()] *)
Definition lower (s : str) : str := flat_map lower_cp s.

(** [s.split(sep)] for a separator of one character: the list of the
    maximal segments free of [sep]; never empty. *)
Fixpoint split (sep : N) (s : str) : list str :=
  match s with
  | [] => [[]]
  | c :: s' =>
      if c =? sep then [] :: split sep s'
      else match split sep s' with
           | seg :: segs => (c :: seg) :: segs
           | [] => [[c]]
           end
  end.

(** [l[-1]] on a list of strings ([IndexError] cannot happen on the
    result of [split], which is never empty). *)
Definition last_item (l : list str) : str := List.last l [].

(** [str(n)] for a natural number. *)
Definition str_of_nat (n : nat) : str :=
  py (NilEmpty.string_of_uint (Nat.to_uint n)).

End PyStr.

(* ================================================================== *)
(** ** [json.loads] *)

Module Json.
Import PyStr.
Local Open Scope N_scope.

(** The decoder of the standard library with its default settings
    (strict strings, no hooks).  It is modelled on the text that is left
    to read instead of on an index into the text.  Two limits of the
    interpreter end a decoding with an exception that is not
    [JSONDecodeError]: every object and array that is open takes one
    level of the recursion that is left to the caller ([RecursionError]
    when none is left), and [int] refuses a literal of more than
    [int_max_str_digits] digits ([ValueError]). *)

(** The Python values [json.loads] can return.  A [float] is kept as
    the text it was read from ([float(lexeme)] is not modelled); the
    three constants [NaN], [Infinity] and [-Infinity], which the decoder
    accepts, are floats as well. *)
Inductive value : Type :=
| VNone
| VBool (b : bool)
| VInt (z : Z)
| VFloat (lexeme : str)
| VStr (s : str)
| VList (items : list value)
| VDict (pairs : list (str * value)).

(** [d[k] = v] on a dict kept as an association list: an existing key
    keeps its place and takes the new value. *)
Fixpoint dict_set (d : list (str * value)) (k : str) (v : value)
  : list (str * value) :=
  match d with
  | [] => [(k, v)]
  | (k', v') :: d' =>
      if str_eqb k' k then (k', v) :: d' else (k', v') :: dict_set d' k v
  end.

(** [dict(pairs)] *)
Definition dict_of_pairs (pairs : list (str * value)) : list (str * value) :=
  fold_left (fun d kv => dict_set d (fst kv) (snd kv)) pairs [].

(** [d.get(k)] *)
Fixpoint dict_get (d : list (str * value)) (k : str) : option value :=
  match d with
  | [] => None
  | (k', v) :: d' => if str_eqb k' k then Some v else dict_get d' k
  end.

(** [k in d] *)
Definition dict_contains (d : list (str * value)) (k : str) : bool :=
  match dict_get d k with Some _ => true | None => false end.

(** The limits of the interpreter a decoding can run into: the
    recursion limit, and the cap on the digits of an [int] literal, with
    the number of digits that were found. *)
Inductive limit : Type :=
| TooDeep
| TooManyDigits (digits : nat).

(** The default of [sys.get_int_max_str_digits()]. *)
Definition int_max_str_digits : nat := 4300.

(** Outcome of a scanning function on the text that is left: a value
    and the text after it, a failure (the decoder raises
    [JSONDecodeError]), a limit of the interpreter that was hit, or the
    bound of the model on the number of steps reached. *)
Inductive scan (A : Type) : Type :=
| Scanned (a : A) (rest : str)
| Invalid
| Aborted (l : limit)
| OutOfFuel.
Arguments Scanned {A} a rest.
Arguments Invalid {A}.
Arguments Aborted {A} l.
Arguments OutOfFuel {A}.

Definition scan_map {A B} (f : A -> B) (r : scan A) : scan B :=
  match r with
  | Scanned a rest => Scanned (f a) rest
  | Invalid => Invalid
  | Aborted l => Aborted l
  | OutOfFuel => OutOfFuel
  end.

(** The white space of the decoder: space, tab, line feed and carriage
    return. *)
Definition is_ws (c : N) : bool :=
  (c =? 32) || (c =? 9) || (c =? 10) || (c =? 13).

Fixpoint skip_ws (s : str) : str :=
  match s with
  | c :: s' => if is_ws c then skip_ws s' else s
  | [] => []
  end.

Definition is_digit (c : N) : bool := (48 <=? c) && (c <=? 57).

Definition hex_value (c : N) : option N :=
  if (48 <=? c) && (c <=? 57) then Some (c - 48)
  else if (97 <=? c) && (c <=? 102) then Some (c - 87)
  else if (65 <=? c) && (c <=? 70) then Some (c - 55)
  else None.

(** The four hexadecimal digits of a [\uXXXX] escape. *)
Definition hex4 (a b c d : N) : option N :=
  match hex_value a, hex_value b, hex_value c, hex_value d with
  | Some x, Some y, Some z, Some w => Some (((x * 16 + y) * 16 + z) * 16 + w)
  | _, _, _, _ => None
  end.

(** The [BACKSLASH] table of the decoder. *)
Definition unescape (c : N) : option N :=
  if c =? 34 then Some 34          (* quote *)
  else if c =? 92 then Some 92     (* backslash *)
  else if c =? 47 then Some 47     (* slash *)
  else if c =? 98 then Some 8      (* b: backspace *)
  else if c =? 102 then Some 12    (* f: form feed *)
  else if c =? 110 then Some 10    (* n: line feed *)
  else if c =? 114 then Some 13    (* r: carriage return *)
  else if c =? 116 then Some 9     (* t: tab *)
  else None.

Definition is_high_surrogate (u : N) : bool := (55296 <=? u) && (u <=? 56319).
Definition is_low_surrogate (u : N) : bool := (56320 <=? u) && (u <=? 57343).

Definition join_surrogates (hi lo : N) : N :=
  65536 + N.lor (N.shiftl (hi - 55296) 10) (lo - 56320).

(** [scanstring(s, end, strict=True)], entered after the opening quote:
    the decoded characters up to the closing quote.  A control character
    below U+0020, an unknown escape, a [\u] without four hexadecimal
    digits and a missing closing quote are errors.  A high surrogate
    escape directly followed by a low surrogate escape is one character. *)
Fixpoint scanstring (s : str) : scan str :=
  match s with
  | [] => Invalid
  | c :: s1 =>
      if c =? QUOTE then Scanned [] s1
      else if c =? BACKSLASH then
        match s1 with
        | [] => Invalid
        | e :: s2 =>
            if e =? 117 then
              match s2 with
              | h1 :: h2 :: h3 :: h4 :: s3 =>
                  match hex4 h1 h2 h3 h4 with
                  | None => Invalid
                  | Some uni =>
                      match s3 with
                      | b :: u :: g1 :: g2 :: g3 :: g4 :: s4 =>
                          if is_high_surrogate uni
                             && (b =? BACKSLASH) && (u =? 117) then
                            match hex4 g1 g2 g3 g4 with
                            | None => Invalid
                            | Some uni2 =>
                                if is_low_surrogate uni2
                                then scan_map (cons (join_surrogates uni uni2))
                                              (scanstring s4)
                                else scan_map (cons uni) (scanstring s3)
                            end
                          else scan_map (cons uni) (scanstring s3)
                      | _ => scan_map (cons uni) (scanstring s3)
                      end
                  end
              | _ => Invalid
              end
            else
              match unescape e with
              | Some ch => scan_map (cons ch) (scanstring s2)
              | None => Invalid
              end
        end
      else if c <? 32 then Invalid
      else scan_map (cons c) (scanstring s1)
  end.

Fixpoint span_digits (s : str) : str * str :=
  match s with
  | c :: s' =>
      if is_digit c then let (ds, r) := span_digits s' in (c :: ds, r)
      else ([], s)
  | [] => ([], [])
  end.

(** [int(digits)] for a string of decimal digits. *)
Definition int_of_digits (ds : str) : Z :=
  fold_left (fun acc d => (acc * 10 + Z.of_N (d - 48))%Z) ds 0%Z.

(** The parts of [NUMBER_RE], each returning what it matched and the
    text after it.  An optional part that does not match returns the
    empty string and the text unchanged. *)

(** An optional minus sign. *)
Definition sign_part (s : str) : str * str :=
  match s with
  | c :: t => if c =? 45 then ([c], t) else ([], s)
  | [] => ([], s)
  end.

(** After a first digit [d]: a zero stands alone, another digit is
    followed by all the digits that come. *)
Definition int_part (d : N) (t : str) : str * str :=
  if d =? 48 then ([d], t)
  else let (ds, r) := span_digits t in (d :: ds, r).

(** Optionally a dot and at least one digit. *)
Definition frac_part (s : str) : str * str :=
  match s with
  | c :: t =>
      if c =? 46 then
        match span_digits t with
        | ([], _) => ([], s)
        | (ds, r) => (c :: ds, r)
        end
      else ([], s)
  | [] => ([], s)
  end.

(** An optional sign of the exponent. *)
Definition exp_sign_part (s : str) : str * str :=
  match s with
  | c :: t => if (c =? 45) || (c =? 43) then ([c], t) else ([], s)
  | [] => ([], s)
  end.

(** Optionally [e] or [E], an optional sign and at least one digit. *)
Definition exp_part (s : str) : str * str :=
  match s with
  | e :: t =>
      if (e =? 101) || (e =? 69) then
        let (esign, t') := exp_sign_part t in
        match span_digits t' with
        | ([], _) => ([], s)
        | (ds, r) => (e :: esign ++ ds, r)
        end
      else ([], s)
  | [] => ([], s)
  end.

(** [NUMBER_RE] matched at the start of [s]: an optional minus sign and
    either a single zero or a digit from 1 to 9 followed by digits (group
    1); the fraction (group 2); the exponent (group 3).  The result is
    the three groups and the text after the match. *)
Definition match_number (s : str) : option (str * str * str * str) :=
  let (sign, s1) := sign_part s in
  match s1 with
  | [] => None
  | d :: t =>
      if is_digit d then
        let (int_digits, r1) := int_part d t in
        let (frac, r2) := frac_part r1 in
        let (exp, r3) := exp_part r2 in
        Some (sign ++ int_digits, frac, exp, r3)
      else None
  end.

(** [int(literal)] for an optional minus sign and decimal digits: a
    literal of more than [int_max_str_digits] digits is refused. *)
Definition parse_int (literal : str) : limit + Z :=
  let '(negative, ds) :=
    match literal with
    | c :: ds => if c =? 45 then (true, ds) else (false, literal)
    | [] => (false, literal)
    end in
  if Nat.ltb int_max_str_digits (List.length ds)
  then inl (TooManyDigits (List.length ds))
  else inr (if negative then (- int_of_digits ds)%Z else int_of_digits ds).

(** The value of a matched number: [int(integer)] when there is neither
    a fraction nor an exponent, a float otherwise. *)
Definition number_value (integer frac exp : str) : limit + value :=
  match frac, exp with
  | [], [] =>
      match parse_int integer with
      | inr z => inr (VInt z)
      | inl l => inl l
      end
  | _, _ => inr (VFloat (integer ++ frac ++ exp))
  end.

(** The part of [scan_once] that reads an atom which is neither a
    string, an object nor an array. *)
Definition scan_atom (s : str) : scan value :=
  match strip_prefix (py "null") s with
  | Some r => Scanned VNone r
  | None =>
  match strip_prefix (py "true") s with
  | Some r => Scanned (VBool true) r
  | None =>
  match strip_prefix (py "false") s with
  | Some r => Scanned (VBool false) r
  | None =>
  match match_number s with
  | Some (integer, frac, exp, r) =>
      match number_value integer frac exp with
      | inr v => Scanned v r
      | inl l => Aborted l
      end
  | None =>
  match strip_prefix (py "NaN") s with
  | Some r => Scanned (VFloat (py "NaN")) r
  | None =>
  match strip_prefix (py "Infinity") s with
  | Some r => Scanned (VFloat (py "Infinity")) r
  | None =>
  match strip_prefix (py "-Infinity") s with
  | Some r => Scanned (VFloat (py "-Infinity")) r
  | None => Invalid
  end end end end end end end.

(** [scan_once], [JSONArray] and [JSONObject] of [json.decoder] and
    [json.scanner].  [array_items] is the loop of [JSONArray], entered at
    the first character of an element; [object_items] is the loop of
    [JSONObject], entered after the opening quote of a key.  [depth] is
    the number of levels of recursion that are left: an object or an
    array takes one for the time it is open.  Every call and every
    iteration takes one unit of [fuel]. *)
Fixpoint scan_once (fuel : nat) (depth : nat) (s : str) {struct fuel}
  : scan value :=
  match fuel with
  | O => OutOfFuel
  | S f =>
      match s with
      | [] => Invalid
      | c :: s1 =>
          if c =? QUOTE then scan_map VStr (scanstring s1)
          else if c =? 123 then
            match depth with
            | O => Aborted TooDeep
            | S d =>
                match skip_ws s1 with
                | c1 :: r =>
                    if c1 =? 125 then Scanned (VDict []) r
                    else if c1 =? QUOTE then
                      scan_map (fun ps => VDict (dict_of_pairs ps))
                               (object_items f d r)
                    else Invalid
                | [] => Invalid
                end
            end
          else if c =? 91 then
            match depth with
            | O => Aborted TooDeep
            | S d =>
                match skip_ws s1 with
                | c1 :: r =>
                    if c1 =? 93 then Scanned (VList []) r
                    else scan_map VList (array_items f d (c1 :: r))
                | [] => scan_map VList (array_items f d [])
                end
            end
          else scan_atom s
      end
  end

with array_items (fuel : nat) (depth : nat) (s : str) {struct fuel}
  : scan (list value) :=
  match fuel with
  | O => OutOfFuel
  | S f =>
      match scan_once f depth s with
      | Scanned v r =>
          match skip_ws r with
          | c :: r1 =>
              if c =? 93 then Scanned [v] r1
              else if c =? 44
                   then scan_map (cons v) (array_items f depth (skip_ws r1))
                   else Invalid
          | [] => Invalid
          end
      | Invalid => Invalid
      | Aborted l => Aborted l
      | OutOfFuel => OutOfFuel
      end
  end

with object_items (fuel : nat) (depth : nat) (s : str) {struct fuel}
  : scan (list (str * value)) :=
  match fuel with
  | O => OutOfFuel
  | S f =>
      match scanstring s with
      | Scanned key r =>
          match skip_ws r with
          | c :: r1 =>
              if c =? 58 then
                match scan_once f depth (skip_ws r1) with
                | Scanned v r2 =>
                    match skip_ws r2 with
                    | c2 :: r3 =>
                        if c2 =? 125 then Scanned [(key, v)] r3
                        else if c2 =? 44 then
                          match skip_ws r3 with
                          | c3 :: r4 =>
                              if c3 =? QUOTE
                              then scan_map (cons (key, v))
                                            (object_items f depth r4)
                              else Invalid
                          | [] => Invalid
                          end
                        else Invalid
                    | [] => Invalid
                    end
                | Invalid => Invalid
                | Aborted l => Aborted l
                | OutOfFuel => OutOfFuel
                end
              else Invalid
          | [] => Invalid
          end
      | Invalid => Invalid
      | Aborted l => Aborted l
      | OutOfFuel => OutOfFuel
      end
  end.

(** Fuel that is enough for any text of the length of [s]. *)
Definition enough_fuel (s : str) : nat := 2 * List.length s + 2.

(** The decoding of the whole text: no value can be read after leading
    white space, or text other than white space follows the value
    (extra data), and the decoder raises [JSONDecodeError]. *)
Definition loads_fuel (fuel : nat) (depth : nat) (s : str) : scan value :=
  match scan_once fuel depth (skip_ws s) with
  | Scanned v r =>
      match skip_ws r with
      | [] => Scanned v []
      | _ :: _ => Invalid
      end
  | Invalid => Invalid
  | Aborted l => Aborted l
  | OutOfFuel => OutOfFuel
  end.

(** How [json.loads] ends: with a value, with [JSONDecodeError], or
    with the exception of a limit of the interpreter. *)
Inductive decoded : Type :=
| Decoded (v : value)
| DecodeError
| LimitError (l : limit).

(** [json.loads(s)] when [depth] levels of recursion are left to the
    caller. *)
Definition loads (depth : nat) (s : str) : decoded :=
  match loads_fuel (enough_fuel s) depth s with
  | Scanned v _ => Decoded v
  | Invalid => DecodeError
  | Aborted l => LimitError l
  | OutOfFuel => DecodeError
  end.

End Json.

(* ================================================================== *)
(** ** [re.search] *)

Module Re.
Import PyStr.
Local Open Scope N_scope.

(** Character classes of the pattern of [main.py]: [\s], and [.] under
    [re.DOTALL], which matches every character, line breaks included. *)
Inductive charclass : Type :=
| Space
| AnyChar.

Definition class_match (cls : charclass) (x : N) : bool :=
  match cls with
  | Space => isspace x
  | AnyChar => true
  end.

(** The pattern language that is needed: a sequence of literal
    characters, greedy and lazy repetitions of a character class, and the
    two ends of capture group 1. *)
Inductive atom : Type :=
| Lit (c : N)
| StarGreedy (cls : charclass)
| StarLazy (cls : charclass)
| GroupOpen
| GroupClose.

(** The simple lower-case mapping the matcher applies to the subject
    under [re.IGNORECASE]; outside ASCII only the code points that map
    into ASCII are listed. *)
Definition sre_lower (x : N) : N :=
  if (65 <=? x) && (x <=? 90) then x + 32
  else if x =? 304 then 105
  else if x =? 8490 then 107
  else x.

(** A literal of the pattern, which is in lower case, against a
    character of the subject under [re.IGNORECASE].  The letter [s] has
    one more case variant, U+017F (long s). *)
Definition lit_match (c x : N) : bool :=
  (sre_lower x =? c) || ((c =? 115) && (x =? 383)).

(** What group 1 has captured so far: whether the group is open, and
    the characters captured, last one first. *)
Record capture : Type := { is_open : bool; captured : str }.

Definition no_capture : capture := {| is_open := false; captured := [] |}.

Definition consume (st : capture) (x : N) : capture :=
  if is_open st then {| is_open := true; captured := x :: captured st |}
  else st.

(** The backtracking matcher, anchored at the start of [s]: group 1 and
    the text after the match.  A greedy repetition tries the longest run
    first and gives characters back one at a time; a lazy repetition
    tries the shortest run first and takes one more character at a time. *)
Fixpoint match_here (re : list atom) (st : capture) (s : str) {struct re}
  : option (str * str) :=
  match re with
  | [] => Some (rev (captured st), s)
  | Lit c :: re' =>
      match s with
      | x :: s' => if lit_match c x then match_here re' (consume st x) s' else None
      | [] => None
      end
  | GroupOpen :: re' => match_here re' {| is_open := true; captured := [] |} s
  | GroupClose :: re' =>
      match_here re' {| is_open := false; captured := captured st |} s
  | StarGreedy cls :: re' =>
      (fix star (st : capture) (s : str) {struct s} : option (str * str) :=
         match s with
         | x :: s' =>
             if class_match cls x then
               match star (consume st x) s' with
               | Some r => Some r
               | None => match_here re' st s
               end
             else match_here re' st s
         | [] => match_here re' st s
         end) st s
  | StarLazy cls :: re' =>
      (fix star (st : capture) (s : str) {struct s} : option (str * str) :=
         match match_here re' st s with
         | Some r => Some r
         | None =>
             match s with
             | x :: s' => if class_match cls x then star (consume st x) s' else None
             | [] => None
             end
         end) st s
  end.

(** [re.search(pattern, s)] followed by [.group(1)]: the match at the
    leftmost start position that has one; [None] when there is no match. *)
Fixpoint search (re : list atom) (s : str) : option str :=
  match match_here re no_capture s with
  | Some (g, _) => Some g
  | None =>
      match s with
      | _ :: s' => search re s'
      | [] => None
      end
  end.

Definition fence : list atom := [Lit BACKTICK; Lit BACKTICK; Lit BACKTICK].

(** The pattern of [transform_text_to_json]: three backticks, [json],
    [\s*], group 1 around [.*?], [\s*], three backticks. *)
Definition json_block : list atom :=
  fence ++ [Lit 106; Lit 115; Lit 111; Lit 110]
        ++ [StarGreedy Space; GroupOpen; StarLazy AnyChar; GroupClose;
            StarGreedy Space]
        ++ fence.

End Re.

(* ================================================================== *)
(** ** [hashlib.sha256] *)

Module Sha256.
Local Open Scope N_scope.

(** 32-bit words are numbers below [2^32]; every operation reduces its
    result again. *)
Definition mask32 : N := 0xffffffff.
Definition w32 (x : N) : N := N.land x mask32.
Definition add32 (x y : N) : N := w32 (x + y).
Definition not32 (x : N) : N := N.lxor (w32 x) mask32.
Definition rotr (n x : N) : N :=
  w32 (N.lor (N.shiftr x n) (N.shiftl x (32 - n))).
Definition shr (n x : N) : N := N.shiftr x n.

Definition Ch (x y z : N) : N := N.lxor (N.land x y) (N.land (not32 x) z).
Definition Maj (x y z : N) : N :=
  N.lxor (N.lxor (N.land x y) (N.land x z)) (N.land y z).
Definition Sigma0 (x : N) : N := N.lxor (N.lxor (rotr 2 x) (rotr 13 x)) (rotr 22 x).
Definition Sigma1 (x : N) : N := N.lxor (N.lxor (rotr 6 x) (rotr 11 x)) (rotr 25 x).
Definition sigma0 (x : N) : N := N.lxor (N.lxor (rotr 7 x) (rotr 18 x)) (shr 3 x).
Definition sigma1 (x : N) : N := N.lxor (N.lxor (rotr 17 x) (rotr 19 x)) (shr 10 x).

(** The prime numbers below [bound], in increasing order. *)
Definition is_prime (n : nat) : bool :=
  forallb (fun d => negb (Nat.eqb (Nat.modulo n d) 0)) (seq 2 (n - 2)).

Definition primes_below (bound : nat) : list N :=
  List.map N.of_nat (filter is_prime (seq 2 (bound - 2))).

(** The integer cube root of [n], found bit by bit from bit [bits - 1]
    down. *)
Fixpoint icbrt_bits (bits : nat) (n r : N) : N :=
  match bits with
  | O => r
  | S b =>
      let r' := r + N.shiftl 1 (N.of_nat b) in
      icbrt_bits b n (if r' * r' * r' <=? n then r' else r)
  end.

Definition icbrt (n : N) : N := icbrt_bits 40 n 0.

(** The round constants: the first 32 bits of the fractional parts of
    the cube roots of the first 64 primes (FIPS 180-4, section 4.2.2). *)
Definition K : list N :=
  List.map (fun p => w32 (icbrt (N.shiftl p 96))) (primes_below 312).

Record hash : Type := Hash { ha : N; hb : N; hc : N; hd : N;
                             he : N; hf : N; hg : N; hh : N }.

(** The initial hash value: the first 32 bits of the fractional parts
    of the square roots of the first 8 primes (section 5.3.3). *)
Definition H0 : hash :=
  match List.map (fun p => w32 (N.sqrt (N.shiftl p 64))) (primes_below 20) with
  | [a; b; c; d; e; f; g; h] => Hash a b c d e f g h
  | _ => Hash 0 0 0 0 0 0 0 0
  end.

(** The sixteen big-endian words of a block of 64 bytes. *)
Fixpoint words_of_bytes (bs : list N) : list N :=
  match bs with
  | b0 :: b1 :: b2 :: b3 :: bs' =>
      (((b0 * 256 + b1) * 256 + b2) * 256 + b3) :: words_of_bytes bs'
  | _ => []
  end.

(** The message schedule, last word first: [n] more words are put on
    top of the words in [w]. *)
Fixpoint extend (n : nat) (w : list N) : list N :=
  match n with
  | O => w
  | S n' =>
      let x := add32 (add32 (sigma1 (nth 1 w 0)) (nth 6 w 0))
                     (add32 (sigma0 (nth 14 w 0)) (nth 15 w 0)) in
      extend n' (x :: w)
  end.

Definition schedule (block : list N) : list N :=
  rev (extend 48 (rev (words_of_bytes block))).

Definition round (s : hash) (kw : N * N) : hash :=
  let t1 := add32 (add32 (add32 (hh s) (Sigma1 (he s)))
                         (add32 (Ch (he s) (hf s) (hg s)) (fst kw)))
                  (snd kw) in
  let t2 := add32 (Sigma0 (ha s)) (Maj (ha s) (hb s) (hc s)) in
  Hash (add32 t1 t2) (ha s) (hb s) (hc s) (add32 (hd s) t1) (he s) (hf s) (hg s).

Definition compress (s : hash) (block : list N) : hash :=
  let r := fold_left round (combine K (schedule block)) s in
  Hash (add32 (ha s) (ha r)) (add32 (hb s) (hb r)) (add32 (hc s) (hc r))
       (add32 (hd s) (hd r)) (add32 (he s) (he r)) (add32 (hf s) (hf r))
       (add32 (hg s) (hg r)) (add32 (hh s) (hh r)).

(** The running state of the hash object: the chaining value and the
    bytes of the block that is not complete yet, last one first. *)
Record ctx : Type := Ctx { chain : hash; pending : list N }.

Definition update_byte (c : ctx) (b : N) : ctx :=
  let buf := b :: pending c in
  if Nat.eqb (List.length buf) 64
  then Ctx (compress (chain c) (rev buf)) []
  else Ctx (chain c) buf.

(** The padding of a message of [len] bytes: the byte 0x80, zero bytes up
    to 56 modulo 64, and the length in bits as a big-endian 64-bit number. *)
Definition be_bytes (n : nat) (x : N) : list N :=
  List.map (fun i => N.land (N.shiftr x (8 * N.of_nat i)) 255) (rev (seq 0 n)).

Definition padding (len : nat) : list N :=
  128 :: repeat 0 (Nat.modulo (119 - Nat.modulo len 64) 64)
      ++ be_bytes 8 (N.land (8 * N.of_nat len) 0xffffffffffffffff).

Definition word_bytes (x : N) : list N :=
  [N.land (N.shiftr x 24) 255; N.land (N.shiftr x 16) 255;
   N.land (N.shiftr x 8) 255; N.land x 255].

Definition hash_bytes (s : hash) : list N :=
  word_bytes (ha s) ++ word_bytes (hb s) ++ word_bytes (hc s) ++ word_bytes (hd s)
  ++ word_bytes (he s) ++ word_bytes (hf s) ++ word_bytes (hg s) ++ word_bytes (hh s).

(** [hashlib.sha256(content).digest()] *)
Definition digest (content : list byte) : list N :=
  let msg := List.map Byte.to_N content in
  hash_bytes (chain (fold_left update_byte (msg ++ padding (List.length msg))
                               (Ctx H0 []))).

(** *** SHA-256 as the standard words it

    The hash object above takes the bytes one at a time, as [hashlib]
    does.  The standard (FIPS 180-4) describes the digest of a whole
    message instead; that description is written down here, to be
    compared with [digest]. *)

(** Section 5.1.1: the message is followed by the bit 1 and by the
    smallest number of zero bits that brings the length to 448 modulo
    512.  In bytes: after the byte 0x80 come [k] zero bytes, [k] the
    smallest number with the length at 56 modulo 64. *)
Definition fips_zero_bytes (len : nat) : nat :=
  match find (fun k => Nat.eqb (Nat.modulo (len + 1 + k) 64) 56) (seq 0 64) with
  | Some k => k
  | None => 0%nat
  end.

(** Then comes the length of the message in bits, as a number of 64
    bits. *)
Definition fips_padded (msg : list N) : list N :=
  msg ++ [128] ++ repeat 0 (fips_zero_bytes (List.length msg))
      ++ be_bytes 8 ((8 * N.of_nat (List.length msg)) mod 2 ^ 64).

(** Section 5.2.1: the padded message is parsed into [n] blocks of 512
    bits. *)
Fixpoint fips_blocks (n : nat) (padded : list N) : list (list N) :=
  match n with
  | O => []
  | S n' => firstn 64 padded :: fips_blocks n' (skipn 64 padded)
  end.

(** Section 6.2.2: starting from the initial hash value, each block in
    turn is worked into the hash value; the last hash value is the
    digest. *)
Definition fips_digest (content : list byte) : list N :=
  let padded := fips_padded (List.map Byte.to_N content) in
  hash_bytes (fold_left compress
                (fips_blocks (Nat.div (List.length padded) 64) padded) H0).

(** One lower-case hexadecimal digit, as a code point. *)
Definition hex_digit (x : N) : N := if x <? 10 then 48 + x else 87 + x.

Definition hex_of_byte (b : N) : list N :=
  [hex_digit (N.land (N.shiftr b 4) 15); hex_digit (N.land b 15)].

(** [hashlib.sha256(content).hexdigest()] *)
Definition hexdigest (content : list byte) : PyStr.str :=
  flat_map hex_of_byte (digest content).

End Sha256.

(* ================================================================== *)
(** ** Exceptions *)

Import PyStr.

(** The exceptions that occur in [main.py].  [JSONDecodeError] is a
    subclass of [ValueError]; [ValueError] carries the message given at
    its [raise]; [IntDigitsError] is the plain [ValueError] that [int]
    raises for a literal of too many digits; [RecursionError] is raised
    at the recursion limit and is no [ValueError]; [LibraryError] is any
    [Exception] raised inside a document parser, with its [str(e)]. *)
Inductive exn : Type :=
| JSONDecodeError
| ValueError (msg : string)
| IntDigitsError (digits : nat)
| RecursionError
| TypeError
| LibraryError (msg : str).

Definition is_JSONDecodeError (e : exn) : bool :=
  match e with JSONDecodeError => true | _ => false end.

(** [isinstance(e, ValueError)] *)
Definition is_ValueError (e : exn) : bool :=
  match e with
  | JSONDecodeError | ValueError _ | IntDigitsError _ => true
  | _ => false
  end.

Inductive result (A : Type) : Type :=
| Ok (a : A)
| Raise (e : exn).
Arguments Ok {A} a.
Arguments Raise {A} e.

Definition bind {A B} (c : result A) (k : A -> result B) : result B :=
  match c with
  | Ok a => k a
  | Raise e => Raise e
  end.

Notation "x <- c ;; k" := (bind c (fun x => k))
  (at level 61, c at next level, right associativity).

(** [HTTPException(status_code, detail)].  The detail is an f-string in
    most places: [detail] is its literal part and [detail_exn] the
    exception [e] whose [str(e)] is appended, if any.  Messages are kept
    as the text of the source file. *)
Record HTTPException : Type := {
  status_code : Z;
  detail : string;
  detail_exn : option exn
}.

(* ================================================================== *)
(** ** The JSON recovery route *)

(** [json.loads] as a computation that may raise, when
    [recursion_left] levels of recursion are left to the handler. *)
Definition json_loads (recursion_left : nat) (s : str) : result Json.value :=
  match Json.loads recursion_left s with
  | Json.Decoded v => Ok v
  | Json.DecodeError => Raise JSONDecodeError
  | Json.LimitError Json.TooDeep => Raise RecursionError
  | Json.LimitError (Json.TooManyDigits n) => Raise (IntDigitsError n)
  end.

(** [re.search(json_block, text, re.DOTALL | re.IGNORECASE)] on a Python
    value, with [match.group(1)] taken when there is a match; a subject
    that is not a [str] raises [TypeError]. *)
Definition re_search (text : Json.value) : result (option str) :=
  match text with
  | Json.VStr s => Ok (Re.search Re.json_block s)
  | _ => Raise TypeError
  end.

Record TextInput : Type := { raw_text : str }.

Definition msg_not_a_list : string :=
  "Input 'raw_text' não é uma lista JSON válida ou está vazia.".
Definition msg_no_text_key : string :=
  "O primeiro item da lista JSON não contém a chave 'text'.".
Definition msg_no_block : string :=
  "Não foi possível encontrar o bloco ```json ... ``` dentro do campo 'text'.".

(** The body of the [try] of [transform_text_to_json]. *)
Definition transform_try (recursion_left : nat) (payload : TextInput)
  : result Json.value :=
  data_list <- json_loads recursion_left (raw_text payload) ;;
  first_item <-
    match data_list with
    | Json.VList (first_item :: _) => Ok first_item
    | _ => Raise (ValueError msg_not_a_list)
    end ;;
  text_with_markdown <-
    match first_item with
    | Json.VDict d =>
        match Json.dict_get d (py "text") with
        | Some t => Ok t
        | None => Raise (ValueError msg_no_text_key)
        end
    | _ => Raise (ValueError msg_no_text_key)
    end ;;
  m <- re_search text_with_markdown ;;
  json_string <-
    match m with
    | Some g => Ok g
    | None => Raise (ValueError msg_no_block)
    end ;;
  final_json_data <- json_loads recursion_left json_string ;;
  Ok final_json_data.

(** The three [except] clauses, in their order. *)
Definition transform_except (e : exn) : HTTPException :=
  if is_JSONDecodeError e then
    {| status_code := 400; detail := "Erro ao decodificar JSON: ";
       detail_exn := Some e |}
  else if is_ValueError e then
    {| status_code := 400; detail := "Erro na estrutura do input: ";
       detail_exn := Some e |}
  else
    {| status_code := 500; detail := "Erro inesperado no processamento: ";
       detail_exn := Some e |}.

(** The handler [transform_text_to_json]: the value it returns, or the
    [HTTPException] it raises.  [recursion_left] is the number of levels
    of recursion the interpreter has left when the handler runs. *)
Definition transform_text_to_json (recursion_left : nat) (payload : TextInput)
  : HTTPException + Json.value :=
  match transform_try recursion_left payload with
  | Ok v => inr v
  | Raise e => inl (transform_except e)
  end.

(** How a request to [POST /transform-to-json] goes on after the
    handler: the return value passed the response model, the error
    response of an [HTTPException], or the internal server error of a
    return value that the response model refuses.  What the framework
    does with a validated value (its serialisation and its rendering as
    JSON text, which can change it or fail) is not part of the model:
    [Validated] says no more than that the value got that far. *)
Inductive response : Type :=
| Validated (content : Json.value)
| Error (e : HTTPException)
| ResponseValidationError.

(** The check the decorator asks for with
    [response_model=Dict[str, Any]]: the framework validates what the
    handler returned against the declared type before it builds the
    response.  A [dict], whose keys are strings after [json.loads],
    passes as it is; any other value is refused. *)
Definition response_model_Dict_str_Any (v : Json.value) : option Json.value :=
  match v with
  | Json.VDict _ => Some v
  | _ => None
  end.

(** The route: the handler under its decorator.  A refused return
    value is an internal server error. *)
Definition transform_to_json_route (recursion_left : nat) (payload : TextInput)
  : response :=
  match transform_text_to_json recursion_left payload with
  | inl e => Error e
  | inr v =>
      match response_model_Dict_str_Any v with
      | Some content => Validated content
      | None => ResponseValidationError
      end
  end.

(* ================================================================== *)
(** ** The extraction route *)

(** [calculate_file_hash] *)
Definition calculate_file_hash (content : list byte) : str :=
  Sha256.hexdigest content.

(** [DocumentResponse]; [metadata] is a [Dict[str, Any]]. *)
Record DocumentResponse : Type := {
  success : bool;
  filename : str;
  file_type : str;
  text_content : str;
  metadata : list (str * Json.value);
  extracted_at : str;
  file_hash : str
}.

(** What [PyPDF2.PdfReader] exposes to [extract_pdf]: the pages, each
    given by the outcome of its [extract_text()], and the document
    information dictionary ([None] when the file has none), whose values
    are text. *)
Record PageObject : Type := { extract_text : result str }.

Record PdfReader : Type := {
  pages : list PageObject;
  pdf_info : option (list (str * str))
}.

(** What [pptx.Presentation] exposes to [extract_pptx].  A shape is
    given by its [text] attribute, [None] when it has none.  The dates of
    the core properties are given by their [isoformat()]. *)
Record Shape : Type := { shape_text : option str }.

Record Slide : Type := { shapes : list Shape }.

Record CoreProperties : Type := {
  cp_title : option str;
  cp_author : option str;
  cp_subject : option str;
  cp_keywords : option str;
  cp_comments : option str;
  cp_category : option str;
  cp_created : option str;
  cp_modified : option str;
  cp_last_modified_by : option str
}.

Record Presentation : Type := {
  slides : list Slide;
  slide_width : option Z;
  slide_height : option Z;
  core_properties : CoreProperties
}.

(** [UploadFile]: the name sent by the client and what [file.read()]
    returns. *)
Record UploadFile : Type := {
  upload_filename : str;
  upload_content : list byte
}.

(** [info.get(key, '')] *)
Fixpoint info_get (info : list (str * str)) (key : str) : str :=
  match info with
  | [] => []
  | (k, v) :: info' => if str_eqb k key then v else info_get info' key
  end.

(** [x or ""] *)
Definition or_empty (x : option str) : str :=
  match x with
  | Some s => s
  | None => []
  end.

Definition py_int_or_none (x : option Z) : Json.value :=
  match x with
  | Some z => Json.VInt z
  | None => Json.VNone
  end.

(** The separator written before page [n]; the word is
    P, a-acute (U+00E1), g, i, n, a. *)
Definition page_separator (n : nat) : str :=
  [NEWLINE] ++ py "--- P" ++ [225%N] ++ py "gina " ++ str_of_nat n ++ py " ---"
  ++ [NEWLINE].

Definition slide_separator (n : nat) : str :=
  [NEWLINE] ++ py "--- Slide " ++ str_of_nat n ++ py " ---" ++ [NEWLINE].

(** The loop over [enumerate(pdf_reader.pages)], entered with the index
    [page_num] of the first page that is left. *)
Fixpoint pdf_pages_loop (ps : list PageObject) (page_num : nat)
                        (text_content : str) : result str :=
  match ps with
  | [] => Ok text_content
  | page :: ps' =>
      text <- extract_text page ;;
      pdf_pages_loop ps' (S page_num)
                     (text_content ++ page_separator (page_num + 1) ++ text)
  end.

(** The loop over the shapes of one slide. *)
Fixpoint shapes_loop (shs : list Shape) (slide_text : str) : str :=
  match shs with
  | [] => slide_text
  | shape :: shs' =>
      match shape_text shape with
      | Some (c :: t) => shapes_loop shs' (slide_text ++ (c :: t) ++ [NEWLINE])
      | _ => shapes_loop shs' slide_text
      end
  end.

(** The loop over [enumerate(presentation.slides, 1)]; the result is
    [text_content] and [slide_count]. *)
Fixpoint slides_loop (sls : list Slide) (slide_num : nat)
                     (text_content : str) (slide_count : nat) : str * nat :=
  match sls with
  | [] => (text_content, slide_count)
  | slide :: sls' =>
      let slide_text := shapes_loop (shapes slide) (slide_separator slide_num) in
      slides_loop sls' (S slide_num) (text_content ++ slide_text) (S slide_count)
  end.

Definition pdf_metadata_of (info : option (list (str * str)))
  : list (str * Json.value) :=
  match info with
  | Some ((_ :: _) as m) =>
      [(py "title", Json.VStr (info_get m (py "/Title")));
       (py "author", Json.VStr (info_get m (py "/Author")));
       (py "subject", Json.VStr (info_get m (py "/Subject")));
       (py "creator", Json.VStr (info_get m (py "/Creator")));
       (py "producer", Json.VStr (info_get m (py "/Producer")));
       (py "creation_date", Json.VStr (info_get m (py "/CreationDate")));
       (py "modification_date", Json.VStr (info_get m (py "/ModDate")))]
  | _ => []
  end.

Definition pptx_metadata_of (c : CoreProperties) : list (str * Json.value) :=
  [(py "title", Json.VStr (or_empty (cp_title c)));
   (py "author", Json.VStr (or_empty (cp_author c)));
   (py "subject", Json.VStr (or_empty (cp_subject c)));
   (py "keywords", Json.VStr (or_empty (cp_keywords c)));
   (py "comments", Json.VStr (or_empty (cp_comments c)));
   (py "category", Json.VStr (or_empty (cp_category c)));
   (py "created", Json.VStr (or_empty (cp_created c)));
   (py "modified", Json.VStr (or_empty (cp_modified c)));
   (py "last_modified_by", Json.VStr (or_empty (cp_last_modified_by c)))].

(** [filename.lower().split('.')[-1]] *)
Definition file_extension_of (filename : str) : str :=
  last_item (split DOT (lower filename)).

(** Which extractor a request reached. *)
Inductive call : Type :=
| Call_extract_pdf (file_content : list byte) (filename : str)
| Call_extract_pptx (file_content : list byte) (filename : str).

(** How a handler ends: it returns a response, raises an
    [HTTPException], or falls off its end and returns [None]. *)
Inductive outcome : Type :=
| Returned (r : DocumentResponse)
| Raised (e : HTTPException)
| ReturnedNone.

Section Service.

(** [PyPDF2.PdfReader(io.BytesIO(content))] *)
Variable PdfReader_open : list byte -> result PdfReader.
(** [Presentation(io.BytesIO(content))] *)
Variable Presentation_open : list byte -> result Presentation.
(** [datetime.utcnow().isoformat()] at the time of the request *)
Variable utcnow_isoformat : str.

(** The body of the [try] of [extract_pdf]. *)
Definition extract_pdf_try (file_content : list byte) (filename : str)
  : result DocumentResponse :=
  pdf_reader <- PdfReader_open file_content ;;
  text_content <- pdf_pages_loop (pages pdf_reader) 0 [] ;;
  let metadata :=
    [(py "num_pages", Json.VInt (Z.of_nat (List.length (pages pdf_reader))));
     (py "pdf_metadata", Json.VDict (pdf_metadata_of (pdf_info pdf_reader)))] in
  let file_hash := calculate_file_hash file_content in
  Ok {| success := true;
        filename := filename;
        file_type := py "pdf";
        text_content := strip text_content;
        metadata := metadata;
        extracted_at := utcnow_isoformat;
        file_hash := file_hash |}.

Definition extract_pdf (file_content : list byte) (filename : str)
  : HTTPException + DocumentResponse :=
  match extract_pdf_try file_content filename with
  | Ok r => inr r
  | Raise e =>
      inl {| status_code := 400; detail := "Erro ao processar PDF: ";
             detail_exn := Some e |}
  end.

(** The body of the [try] of [extract_pptx]. *)
Definition extract_pptx_try (file_content : list byte) (filename : str)
  : result DocumentResponse :=
  presentation <- Presentation_open file_content ;;
  let '(text_content, slide_count) :=
    slides_loop (slides presentation) 1 [] 0 in
  let metadata :=
    [(py "num_slides", Json.VInt (Z.of_nat slide_count));
     (py "slide_width", py_int_or_none (slide_width presentation));
     (py "slide_height", py_int_or_none (slide_height presentation));
     (py "pptx_metadata",
      Json.VDict (pptx_metadata_of (core_properties presentation)))] in
  let file_hash := calculate_file_hash file_content in
  Ok {| success := true;
        filename := filename;
        file_type := py "pptx";
        text_content := strip text_content;
        metadata := metadata;
        extracted_at := utcnow_isoformat;
        file_hash := file_hash |}.

Definition extract_pptx (file_content : list byte) (filename : str)
  : HTTPException + DocumentResponse :=
  match extract_pptx_try file_content filename with
  | Ok r => inr r
  | Raise e =>
      inl {| status_code := 400; detail := "Erro ao processar PPTX: ";
             detail_exn := Some e |}
  end.

Definition outcome_of (r : HTTPException + DocumentResponse) : outcome :=
  match r with
  | inr d => Returned d
  | inl e => Raised e
  end.

Definition unsupported_type : HTTPException :=
  {| status_code := 400;
     detail := "Tipo de arquivo não suportado. Use PDF ou PPTX.";
     detail_exn := None |}.

Definition empty_file : HTTPException :=
  {| status_code := 400; detail := "Arquivo vazio"; detail_exn := None |}.

(** [x in ['pdf', 'pptx']] *)
Definition is_supported (file_extension : str) : bool :=
  existsb (str_eqb file_extension) [py "pdf"; py "pptx"].

(** The handler [extract_document].  The first component lists the
    extractor calls made, in order; the second is how the handler ends. *)
Definition extract_document (file : UploadFile) : list call * outcome :=
  let file_extension := file_extension_of (upload_filename file) in
  if negb (is_supported file_extension) then ([], Raised unsupported_type)
  else
    let file_content := upload_content file in
    if Nat.eqb (List.length file_content) 0 then ([], Raised empty_file)
    else if str_eqb file_extension (py "pdf") then
      ([Call_extract_pdf file_content (upload_filename file)],
       outcome_of (extract_pdf file_content (upload_filename file)))
    else if str_eqb file_extension (py "pptx") then
      ([Call_extract_pptx file_content (upload_filename file)],
       outcome_of (extract_pptx file_content (upload_filename file)))
    else ([], ReturnedNone).

End Service.

(* ================================================================== *)
(** * The decoder always terminates within its fuel *)

Module JsonFacts.
Import Json.

(** A scan that did not run out of fuel and, if it read something, left
    fewer than [m] characters. *)
Definition consumed {A} (x : scan A) (m : nat) : Prop :=
  match x with
  | Scanned _ r => List.length r < m
  | Invalid => True
  | Aborted _ => True
  | OutOfFuel => False
  end.

Lemma consumed_map {A B} (f : A -> B) (x : scan A) (m : nat) :
  consumed x m -> consumed (scan_map f x) m.
Proof. destruct x; simpl; auto. Qed.

Lemma consumed_mono {A} (x : scan A) (m m' : nat) :
  consumed x m -> m <= m' -> consumed x m'.
Proof. destruct x; simpl; auto; lia. Qed.

Lemma skip_ws_length (s : str) : List.length (skip_ws s) <= List.length s.
Proof.
  induction s as [|c s IH]; simpl; [lia|].
  destruct (is_ws c); simpl; lia.
Qed.

Lemma skip_ws_cons_length (s : str) c r :
  skip_ws s = c :: r -> List.length r < List.length s.
Proof.
  intros H. pose proof (skip_ws_length s) as L. rewrite H in L. simpl in L. lia.
Qed.

Lemma strip_prefix_length (p s r : str) :
  strip_prefix p s = Some r -> List.length r + List.length p = List.length s.
Proof.
  revert s; induction p as [|x p IH]; intros s H; simpl in H.
  - injection H as <-. simpl. lia.
  - destruct s as [|y s]; [discriminate|].
    destruct (N.eqb x y); [|discriminate].
    apply IH in H. simpl. lia.
Qed.

Lemma span_digits_length (s ds r : str) :
  span_digits s = (ds, r) -> List.length r <= List.length s.
Proof.
  revert ds r; induction s as [|c s IH]; intros ds r H; simpl in H.
  - injection H as <- <-. simpl. lia.
  - destruct (is_digit c).
    + destruct (span_digits s) as [ds' r'] eqn:E. injection H as <- <-.
      specialize (IH _ _ eq_refl). simpl. lia.
    + injection H as <- <-. simpl. lia.
Qed.

Lemma sign_part_length (s sign r : str) :
  sign_part s = (sign, r) -> List.length r <= List.length s.
Proof.
  unfold sign_part. destruct s as [|c t].
  - intros E. injection E as <- <-. lia.
  - destruct (N.eqb c 45); intros E; injection E as <- <-; simpl; lia.
Qed.

Lemma int_part_length (d : N) (t ds r : str) :
  int_part d t = (ds, r) -> List.length r <= List.length t.
Proof.
  unfold int_part. destruct (N.eqb d 48).
  - intros E. injection E as <- <-. lia.
  - destruct (span_digits t) as [ds' r'] eqn:E'. intros E. injection E as <- <-.
    eapply span_digits_length; eauto.
Qed.

Lemma frac_part_length (s f r : str) :
  frac_part s = (f, r) -> List.length r <= List.length s.
Proof.
  unfold frac_part. destruct s as [|c t].
  - intros E. injection E as <- <-. lia.
  - destruct (N.eqb c 46).
    + destruct (span_digits t) as [ds r0] eqn:E'.
      apply span_digits_length in E'.
      destruct ds; intros E; injection E as <- <-; simpl; lia.
    + intros E. injection E as <- <-. lia.
Qed.

Lemma exp_sign_part_length (s sign r : str) :
  exp_sign_part s = (sign, r) -> List.length r <= List.length s.
Proof.
  unfold exp_sign_part. destruct s as [|c t].
  - intros E. injection E as <- <-. lia.
  - destruct (N.eqb c 45 || N.eqb c 43)%bool; intros E;
      injection E as <- <-; simpl; lia.
Qed.

Lemma exp_part_length (s e r : str) :
  exp_part s = (e, r) -> List.length r <= List.length s.
Proof.
  unfold exp_part. destruct s as [|c t].
  - intros E. injection E as <- <-. lia.
  - destruct (N.eqb c 101 || N.eqb c 69)%bool.
    + destruct (exp_sign_part t) as [esign t'] eqn:Es.
      apply exp_sign_part_length in Es.
      destruct (span_digits t') as [ds r0] eqn:E'.
      apply span_digits_length in E'.
      destruct ds; intros E; injection E as <- <-; simpl; lia.
    + intros E. injection E as <- <-. lia.
Qed.

(** A number takes at least its first digit. *)
Lemma match_number_length (s i f e r : str) :
  match_number s = Some (i, f, e, r) -> List.length r < List.length s.
Proof.
  unfold match_number.
  destruct (sign_part s) as [sign s1] eqn:E1. apply sign_part_length in E1.
  destruct s1 as [|d t]; [discriminate|].
  destruct (is_digit d); [|discriminate].
  destruct (int_part d t) as [id r1] eqn:E2. apply int_part_length in E2.
  destruct (frac_part r1) as [fr r2] eqn:E3. apply frac_part_length in E3.
  destruct (exp_part r2) as [ex r3] eqn:E4. apply exp_part_length in E4.
  intros H. injection H as <- <- <- <-. simpl in E1. lia.
Qed.

Lemma scanstring_consumed_upto (n : nat) :
  forall s, List.length s <= n -> consumed (scanstring s) (List.length s).
Proof.
  induction n as [|n IH]; intros s Hn.
  - destruct s; [exact I | simpl in Hn; lia].
  - destruct s as [|c s1]; [exact I|].
    cbn [scanstring].
    destruct (N.eqb c QUOTE); [simpl; lia|].
    destruct (N.eqb c BACKSLASH).
    + destruct s1 as [|e s2]; [exact I|].
      destruct (N.eqb e 117).
      * destruct s2 as [|h1 [|h2 [|h3 [|h4 s3]]]]; try exact I.
        destruct (hex4 h1 h2 h3 h4) as [uni|]; [|exact I].
        assert (Hs3 : consumed (scan_map (cons uni) (scanstring s3))
                        (List.length (c :: e :: h1 :: h2 :: h3 :: h4 :: s3))).
        { apply consumed_map.
          eapply consumed_mono; [apply IH; simpl in Hn; lia | simpl; lia]. }
        destruct s3 as [|b [|u [|g1 [|g2 [|g3 [|g4 s4]]]]]]; try exact Hs3.
        destruct (is_high_surrogate uni && N.eqb b BACKSLASH && N.eqb u 117)%bool;
          [|exact Hs3].
        destruct (hex4 g1 g2 g3 g4) as [uni2|]; [|exact I].
        destruct (is_low_surrogate uni2); [|exact Hs3].
        apply consumed_map.
        eapply consumed_mono; [apply IH; simpl in Hn; lia | simpl; lia].
      * destruct (unescape e); [|exact I].
        apply consumed_map.
        eapply consumed_mono; [apply IH; simpl in Hn; lia | simpl; lia].
    + destruct (N.ltb c 32); [exact I|].
      apply consumed_map.
      eapply consumed_mono; [apply IH; simpl in Hn; lia | simpl; lia].
Qed.

Lemma scanstring_consumed (s : str) : consumed (scanstring s) (List.length s).
Proof. apply (scanstring_consumed_upto (List.length s)). lia. Qed.

Lemma scan_atom_consumed (s : str) : consumed (scan_atom s) (List.length s).
Proof.
  unfold scan_atom.
  repeat match goal with
         | |- context [strip_prefix ?p s] =>
             let E := fresh "E" in
             destruct (strip_prefix p s) eqn:E;
             [apply strip_prefix_length in E; simpl in *; lia|]
         end.
  destruct (match_number s) as [[[[i f] e] r]|] eqn:En.
  - apply match_number_length in En.
    destruct (number_value i f e); [exact I|exact En].
  - repeat match goal with
           | |- context [strip_prefix ?p s] =>
               let E := fresh "E" in
               destruct (strip_prefix p s) eqn:E;
               [apply strip_prefix_length in E; simpl in *; lia|]
           end.
    exact I.
Qed.

(** The two loops, one iteration unfolded. *)
Lemma array_items_S (f depth : nat) (s : str) :
  array_items (S f) depth s
  = match scan_once f depth s with
    | Scanned v r =>
        match skip_ws r with
        | c :: r1 =>
            if N.eqb c 93 then Scanned [v] r1
            else if N.eqb c 44
                 then scan_map (cons v) (array_items f depth (skip_ws r1))
                 else Invalid
        | [] => Invalid
        end
    | Invalid => Invalid
    | Aborted l => Aborted l
    | OutOfFuel => OutOfFuel
    end.
Proof. reflexivity. Qed.

Lemma object_items_S (f depth : nat) (s : str) :
  object_items (S f) depth s
  = match scanstring s with
    | Scanned key r =>
        match skip_ws r with
        | c :: r1 =>
            if N.eqb c 58 then
              match scan_once f depth (skip_ws r1) with
              | Scanned v r2 =>
                  match skip_ws r2 with
                  | c2 :: r3 =>
                      if N.eqb c2 125 then Scanned [(key, v)] r3
                      else if N.eqb c2 44 then
                        match skip_ws r3 with
                        | c3 :: r4 =>
                            if N.eqb c3 QUOTE
                            then scan_map (cons (key, v))
                                          (object_items f depth r4)
                            else Invalid
                        | [] => Invalid
                        end
                      else Invalid
                  | [] => Invalid
                  end
              | Invalid => Invalid
              | Aborted l => Aborted l
              | OutOfFuel => OutOfFuel
              end
            else Invalid
        | [] => Invalid
        end
    | Invalid => Invalid
    | Aborted l => Aborted l
    | OutOfFuel => OutOfFuel
    end.
Proof. reflexivity. Qed.

(** With more than twice the length of the text as fuel, no scanning
    function runs out of fuel, and each one that reads a value consumes
    at least one character. *)
Lemma scan_fuel (fuel : nat) :
  (forall depth s, 2 * List.length s < fuel ->
                   consumed (scan_once fuel depth s) (List.length s))
  /\ (forall depth s, 2 * List.length s + 1 < fuel ->
                      consumed (array_items fuel depth s) (List.length s))
  /\ (forall depth s, 2 * List.length s + 1 < fuel ->
                      consumed (object_items fuel depth s) (List.length s)).
Proof.
  induction fuel as [|f [IHs [IHa IHo]]].
  - repeat split; intros depth s H; lia.
  - split; [|split]; intros depth s Hf.
    + destruct s as [|c s1]; [exact I|].
      cbn [scan_once]. cbn [List.length] in Hf.
      destruct (N.eqb c QUOTE).
      { apply consumed_map. eapply consumed_mono;
          [apply scanstring_consumed | simpl; lia]. }
      destruct (N.eqb c 123).
      { destruct depth as [|d]; [exact I|].
        destruct (skip_ws s1) as [|c1 r] eqn:E; [exact I|].
        apply skip_ws_cons_length in E.
        destruct (N.eqb c1 125); [simpl; lia|].
        destruct (N.eqb c1 QUOTE); [|exact I].
        apply consumed_map. eapply consumed_mono;
          [apply IHo; lia | simpl; lia]. }
      destruct (N.eqb c 91).
      { destruct depth as [|d]; [exact I|].
        destruct (skip_ws s1) as [|c1 r] eqn:E.
        - apply consumed_map. eapply consumed_mono;
            [apply IHa; simpl; lia | simpl; lia].
        - apply skip_ws_cons_length in E.
          destruct (N.eqb c1 93); [simpl; lia|].
          apply consumed_map. eapply consumed_mono;
            [apply IHa; simpl; lia | simpl; lia]. }
      apply scan_atom_consumed.
    + rewrite array_items_S.
      assert (Hv : consumed (scan_once f depth s) (List.length s))
        by (apply IHs; lia).
      destruct (scan_once f depth s) as [v r| | |]; [|exact I|exact I|exact Hv].
      simpl in Hv.
      destruct (skip_ws r) as [|c r1] eqn:E; [exact I|].
      apply skip_ws_cons_length in E.
      destruct (N.eqb c 93); [simpl; lia|].
      destruct (N.eqb c 44); [|exact I].
      apply consumed_map.
      pose proof (skip_ws_length r1).
      eapply consumed_mono; [apply IHa; lia | lia].
    + rewrite object_items_S.
      pose proof (scanstring_consumed s) as Hk.
      destruct (scanstring s) as [key r| | |]; [|exact I|exact I|exact Hk].
      simpl in Hk.
      destruct (skip_ws r) as [|c r1] eqn:E; [exact I|].
      apply skip_ws_cons_length in E.
      destruct (N.eqb c 58); [|exact I].
      pose proof (skip_ws_length r1) as L1.
      assert (Hv : consumed (scan_once f depth (skip_ws r1))
                            (List.length (skip_ws r1)))
        by (apply IHs; lia).
      destruct (scan_once f depth (skip_ws r1)) as [v r2| | |];
        [|exact I|exact I|exact Hv].
      simpl in Hv.
      destruct (skip_ws r2) as [|c2 r3] eqn:E2; [exact I|].
      apply skip_ws_cons_length in E2.
      destruct (N.eqb c2 125); [simpl; lia|].
      destruct (N.eqb c2 44); [|exact I].
      destruct (skip_ws r3) as [|c3 r4] eqn:E3; [exact I|].
      apply skip_ws_cons_length in E3.
      destruct (N.eqb c3 QUOTE); [|exact I].
      apply consumed_map.
      eapply consumed_mono; [apply IHo; lia | lia].
Qed.

(** [json.loads] never reaches the bound of the model on the number of
    steps: for every text it yields a value, fails to decode or hits a
    limit of the interpreter. *)
Lemma loads_fuel_enough (depth : nat) (s : str) :
  loads_fuel (enough_fuel s) depth s <> OutOfFuel.
Proof.
  unfold loads_fuel, enough_fuel.
  pose proof (skip_ws_length s) as L.
  assert (H : consumed (scan_once (2 * List.length s + 2) depth (skip_ws s))
                       (List.length (skip_ws s))).
  { apply (proj1 (scan_fuel _)). lia. }
  destruct (scan_once (2 * List.length s + 2) depth (skip_ws s)) as [v r| | |];
    [|discriminate|discriminate|destruct H].
  destruct (skip_ws r); discriminate.
Qed.

(** [loads] reports a decode error exactly when the decoder fails. *)
Lemma loads_decode_error_iff (depth : nat) (s : str) :
  loads depth s = DecodeError <-> loads_fuel (enough_fuel s) depth s = Invalid.
Proof.
  unfold loads. pose proof (loads_fuel_enough depth s) as H.
  destruct (loads_fuel (enough_fuel s) depth s); split; intros E;
    try discriminate E; try reflexivity; contradiction.
Qed.

(** One more unit of fuel does not change an outcome that was reached. *)
Definition stable {A} (x y : scan A) : Prop := x = OutOfFuel \/ x = y.

Lemma stable_map {A B} (f : A -> B) (x y : scan A) :
  stable x y -> stable (scan_map f x) (scan_map f y).
Proof. intros [->| ->]; [left|right]; reflexivity. Qed.

Lemma stable_refl {A} (x : scan A) : stable x x.
Proof. right; reflexivity. Qed.

Lemma more_fuel (fuel : nat) :
  (forall d s, stable (scan_once fuel d s) (scan_once (S fuel) d s))
  /\ (forall d s, stable (array_items fuel d s) (array_items (S fuel) d s))
  /\ (forall d s, stable (object_items fuel d s) (object_items (S fuel) d s)).
Proof.
  induction fuel as [|f [IHs [IHa IHo]]].
  - repeat split; intros d s; left; reflexivity.
  - split; [|split]; intros d s.
    + destruct s as [|c s1]; [apply stable_refl|].
      cbn [scan_once].
      destruct (N.eqb c QUOTE); [apply stable_refl|].
      destruct (N.eqb c 123).
      { destruct d as [|d]; [apply stable_refl|].
        destruct (skip_ws s1) as [|c1 r]; [apply stable_refl|].
        destruct (N.eqb c1 125); [apply stable_refl|].
        destruct (N.eqb c1 QUOTE); [|apply stable_refl].
        apply stable_map, IHo. }
      destruct (N.eqb c 91); [|apply stable_refl].
      destruct d as [|d]; [apply stable_refl|].
      destruct (skip_ws s1) as [|c1 r]; [apply stable_map, IHa|].
      destruct (N.eqb c1 93); [apply stable_refl|].
      apply stable_map, IHa.
    + rewrite (array_items_S (S f)), (array_items_S f).
      destruct (IHs d s) as [E|E]; [left; rewrite E; reflexivity|].
      rewrite <- E.
      destruct (scan_once f d s) as [v r| | |]; try apply stable_refl.
      destruct (skip_ws r) as [|c r1]; [apply stable_refl|].
      destruct (N.eqb c 93); [apply stable_refl|].
      destruct (N.eqb c 44); [|apply stable_refl].
      apply stable_map, IHa.
    + rewrite (object_items_S (S f)), (object_items_S f).
      destruct (scanstring s) as [key r| | |]; try apply stable_refl.
      destruct (skip_ws r) as [|c r1]; [apply stable_refl|].
      destruct (N.eqb c 58); [|apply stable_refl].
      destruct (IHs d (skip_ws r1)) as [E|E]; [left; rewrite E; reflexivity|].
      rewrite <- E.
      destruct (scan_once f d (skip_ws r1)) as [v r2| | |];
        try apply stable_refl.
      destruct (skip_ws r2) as [|c2 r3]; [apply stable_refl|].
      destruct (N.eqb c2 125); [apply stable_refl|].
      destruct (N.eqb c2 44); [|apply stable_refl].
      destruct (skip_ws r3) as [|c3 r4]; [apply stable_refl|].
      destruct (N.eqb c3 QUOTE); [|apply stable_refl].
      apply stable_map, IHo.
Qed.

(** The outcome of a scan does not depend on the amount of fuel, once
    there is enough of it. *)
Lemma scan_once_more_fuel (n : nat) (fuel d : nat) (s : str) :
  scan_once fuel d s <> OutOfFuel ->
  scan_once (n + fuel) d s = scan_once fuel d s.
Proof.
  intros H. induction n as [|n IH]; [reflexivity|].
  cbn [Nat.add]. destruct (proj1 (more_fuel (n + fuel)) d s) as [E|E].
  - rewrite IH in E. contradiction.
  - rewrite <- E. exact IH.
Qed.

(** One more level of recursion changes nothing but the outcome that the
    recursion limit was hit. *)
Definition settled {A} (x y : scan A) : Prop := x = Aborted TooDeep \/ x = y.

Lemma settled_map {A B} (f : A -> B) (x y : scan A) :
  settled x y -> settled (scan_map f x) (scan_map f y).
Proof. intros [->| ->]; [left|right]; reflexivity. Qed.

Lemma settled_refl {A} (x : scan A) : settled x x.
Proof. right; reflexivity. Qed.

Lemma more_depth (fuel : nat) :
  (forall d s, settled (scan_once fuel d s) (scan_once fuel (S d) s))
  /\ (forall d s, settled (array_items fuel d s) (array_items fuel (S d) s))
  /\ (forall d s, settled (object_items fuel d s) (object_items fuel (S d) s)).
Proof.
  induction fuel as [|f [IHs [IHa IHo]]].
  - repeat split; intros d s; right; reflexivity.
  - split; [|split]; intros d s.
    + destruct s as [|c s1]; [apply settled_refl|].
      cbn [scan_once].
      destruct (N.eqb c QUOTE); [apply settled_refl|].
      destruct (N.eqb c 123).
      { destruct d as [|d]; [left; reflexivity|].
        destruct (skip_ws s1) as [|c1 r]; [apply settled_refl|].
        destruct (N.eqb c1 125); [apply settled_refl|].
        destruct (N.eqb c1 QUOTE); [|apply settled_refl].
        apply settled_map, IHo. }
      destruct (N.eqb c 91); [|apply settled_refl].
      destruct d as [|d]; [left; reflexivity|].
      destruct (skip_ws s1) as [|c1 r]; [apply settled_map, IHa|].
      destruct (N.eqb c1 93); [apply settled_refl|].
      apply settled_map, IHa.
    + rewrite (array_items_S f (S d)), (array_items_S f d).
      destruct (IHs d s) as [E|E]; [left; rewrite E; reflexivity|].
      rewrite <- E.
      destruct (scan_once f d s) as [v r| | |]; try apply settled_refl.
      destruct (skip_ws r) as [|c r1]; [apply settled_refl|].
      destruct (N.eqb c 93); [apply settled_refl|].
      destruct (N.eqb c 44); [|apply settled_refl].
      apply settled_map, IHa.
    + rewrite (object_items_S f (S d)), (object_items_S f d).
      destruct (scanstring s) as [key r| | |]; try apply settled_refl.
      destruct (skip_ws r) as [|c r1]; [apply settled_refl|].
      destruct (N.eqb c 58); [|apply settled_refl].
      destruct (IHs d (skip_ws r1)) as [E|E]; [left; rewrite E; reflexivity|].
      rewrite <- E.
      destruct (scan_once f d (skip_ws r1)) as [v r2| | |];
        try apply settled_refl.
      destruct (skip_ws r2) as [|c2 r3]; [apply settled_refl|].
      destruct (N.eqb c2 125); [apply settled_refl|].
      destruct (N.eqb c2 44); [|apply settled_refl].
      destruct (skip_ws r3) as [|c3 r4]; [apply settled_refl|].
      destruct (N.eqb c3 QUOTE); [|apply settled_refl].
      apply settled_map, IHo.
Qed.

(** An outcome of [loads] other than the recursion error is the same
    with any larger number of levels left. *)
Lemma loads_more_depth (n d : nat) (s : str) :
  loads d s <> LimitError TooDeep -> loads (n + d) s = loads d s.
Proof.
  intros H. induction n as [|n IH]; [reflexivity|].
  cbn [Nat.add]. rewrite <- IH. unfold loads, loads_fuel.
  destruct (proj1 (more_depth (enough_fuel s)) (n + d) (skip_ws s)) as [E|E].
  - exfalso. apply H. rewrite <- IH. unfold loads, loads_fuel.
    rewrite E. reflexivity.
  - rewrite <- E. reflexivity.
Qed.

Lemma loads_deeper (d d' : nat) (s : str) :
  d <= d' -> loads d s <> LimitError TooDeep -> loads d' s = loads d s.
Proof.
  intros Hle H. replace d' with ((d' - d) + d) by lia.
  apply loads_more_depth, H.
Qed.

End JsonFacts.

(* ================================================================== *)
(** * What the search captures *)

Module ReFacts.
Import Re.
Local Open Scope N_scope.

(** *** One step of the matcher *)

Lemma match_lit c re' st x s :
  match_here (Lit c :: re') st (x :: s)
  = if lit_match c x then match_here re' (consume st x) s else None.
Proof. reflexivity. Qed.

Lemma match_greedy_cons cls re' st x s :
  match_here (StarGreedy cls :: re') st (x :: s)
  = if class_match cls x then
      match match_here (StarGreedy cls :: re') (consume st x) s with
      | Some r => Some r
      | None => match_here re' st (x :: s)
      end
    else match_here re' st (x :: s).
Proof. reflexivity. Qed.

Lemma match_lazy cls re' st s :
  match_here (StarLazy cls :: re') st s
  = match match_here re' st s with
    | Some r => Some r
    | None =>
        match s with
        | x :: s' =>
            if class_match cls x
            then match_here (StarLazy cls :: re') (consume st x) s'
            else None
        | [] => None
        end
    end.
Proof. destruct s; reflexivity. Qed.

(** *** Literal prefixes *)

(** The literals [cs] match at the start of [t]. *)
Fixpoint lits_match (cs : list N) (t : str) : bool :=
  match cs, t with
  | [], _ => true
  | c :: cs', x :: t' => lit_match c x && lits_match cs' t'
  | _ :: _, [] => false
  end.

(** An opening marker starts here: three backticks and the letters of
    [json] in either case. *)
Definition marker_at (t : str) : bool := lits_match (py "```json") t.

(** A closing fence starts here. *)
Definition fence_at (t : str) : bool := lits_match (py "```") t.

(** A string that is an opening marker. *)
Definition opens_json_block (tag : str) : bool :=
  Nat.eqb (List.length tag) 7 && marker_at tag.

(** No opening marker starts inside [pre] when [after] follows it. *)
Fixpoint no_marker_in (pre after : str) : bool :=
  match pre with
  | [] => true
  | _ :: pre' => negb (marker_at (pre ++ after)) && no_marker_in pre' after
  end.

(** No closing fence starts inside [body] when [after] follows it. *)
Fixpoint no_fence_in (body after : str) : bool :=
  match body with
  | [] => true
  | _ :: body' => negb (fence_at (body ++ after)) && no_fence_in body' after
  end.

Definition no_backtick (s : str) : bool :=
  forallb (fun x => negb (x =? BACKTICK)) s.

(** A string that is empty or whose last character is not white space. *)
Fixpoint ends_nonspace (s : str) : bool :=
  match s with
  | [] => true
  | x :: s' =>
      match s' with
      | [] => negb (isspace x)
      | _ :: _ => ends_nonspace s'
      end
  end.

Definition starts_nonspace (s : str) : bool :=
  match s with
  | [] => true
  | x :: _ => negb (isspace x)
  end.

(** The state of group 1 after the characters of [b] were consumed. *)
Definition consume_all (st : capture) (b : str) : capture :=
  fold_left consume b st.

Lemma consume_closed (st : capture) (b : str) :
  is_open st = false -> consume_all st b = st.
Proof.
  revert st; induction b as [|x b IH]; intros st H; [reflexivity|].
  unfold consume_all in *. simpl. unfold consume at 2. rewrite H. auto.
Qed.

Lemma match_lits_fail (cs : list N) (re' : list atom) : forall st t,
  lits_match cs t = false ->
  match_here (List.map Lit cs ++ re') st t = None.
Proof.
  induction cs as [|c cs IH]; intros st t H; [discriminate H|].
  destruct t as [|x t]; [reflexivity|].
  cbn [List.map app]. rewrite match_lit. cbn [lits_match] in H.
  destruct (lit_match c x); [|reflexivity].
  apply IH. exact H.
Qed.

Lemma match_lits_ok (cs : list N) (re' : list atom) : forall st tag t,
  lits_match cs tag = true ->
  List.length tag = List.length cs ->
  is_open st = false ->
  match_here (List.map Lit cs ++ re') st (tag ++ t) = match_here re' st t.
Proof.
  induction cs as [|c cs IH]; intros st tag t H Hlen Hst.
  - destruct tag; [reflexivity|discriminate Hlen].
  - destruct tag as [|x tag]; [discriminate Hlen|].
    cbn [lits_match] in H. apply andb_true_iff in H. destruct H as [Hx H].
    cbn [List.map app]. rewrite match_lit, Hx.
    assert (Hc : consume st x = st) by (unfold consume; rewrite Hst; reflexivity).
    rewrite Hc. apply IH; [exact H|injection Hlen; auto|exact Hst].
Qed.

(** The backtick has no case variant. *)
Lemma lit_match_backtick (x : N) : lit_match BACKTICK x = true -> x = BACKTICK.
Proof.
  unfold lit_match, sre_lower, BACKTICK. intros H.
  apply orb_true_iff in H. destruct H as [H|H].
  - destruct ((65 <=? x) && (x <=? 90))%bool eqn:E1.
    + apply andb_true_iff in E1. destruct E1 as [E1 E2].
      apply N.leb_le in E1, E2. apply N.eqb_eq in H. lia.
    + destruct (N.eqb_spec x 304); [apply N.eqb_eq in H; lia|].
      destruct (N.eqb_spec x 8490); apply N.eqb_eq in H; lia.
  - apply andb_true_iff in H. destruct H as [H _]. discriminate H.
Qed.

(** A text without backticks has neither marker nor fence inside. *)
Lemma no_backtick_no_marker (pre after : str) :
  no_backtick pre = true -> no_marker_in pre after = true.
Proof.
  induction pre as [|x pre IH]; intros H; [reflexivity|].
  cbn [no_backtick forallb] in H. apply andb_true_iff in H. destruct H as [Hx H].
  cbn [no_marker_in]. rewrite (IH H), andb_true_r.
  apply negb_true_iff. unfold marker_at. cbn [app py List.map list_ascii_of_string lits_match].
  destruct (lit_match _ x) eqn:E; [|reflexivity].
  apply lit_match_backtick in E. subst x. discriminate Hx.
Qed.

Lemma no_backtick_no_fence (body after : str) :
  no_backtick body = true -> no_fence_in body after = true.
Proof.
  induction body as [|x body IH]; intros H; [reflexivity|].
  cbn [no_backtick forallb] in H. apply andb_true_iff in H. destruct H as [Hx H].
  cbn [no_fence_in]. rewrite (IH H), andb_true_r.
  apply negb_true_iff. unfold fence_at. cbn [app py List.map list_ascii_of_string lits_match].
  destruct (lit_match _ x) eqn:E; [|reflexivity].
  apply lit_match_backtick in E. subst x. discriminate Hx.
Qed.

(** *** Repetitions *)

Section Tail.

(** What follows a repetition in the pattern. *)
Variable re' : list atom.

(** A greedy run of white space takes all of [w] when the match
    succeeds from there. *)
Lemma greedy_takes_spaces (w : str) : forall st t r,
  forallb isspace w = true ->
  match_here (StarGreedy Space :: re') (consume_all st w) t = Some r ->
  match_here (StarGreedy Space :: re') st (w ++ t) = Some r.
Proof.
  induction w as [|c w IH]; intros st t r Hw H; [exact H|].
  simpl in Hw. apply andb_true_iff in Hw. destruct Hw as [Hc Hw].
  simpl app. rewrite match_greedy_cons. simpl class_match. rewrite Hc.
  rewrite (IH (consume st c) t r Hw H). reflexivity.
Qed.

(** A greedy run of white space stops in front of a character that is
    not white space. *)
Lemma greedy_stops st x t :
  isspace x = false ->
  match_here (StarGreedy Space :: re') st (x :: t) = match_here re' st (x :: t).
Proof. intros H. rewrite match_greedy_cons. simpl. rewrite H. reflexivity. Qed.

End Tail.

(** Inside a content in which no fence starts and which does not end in
    white space, optional white space and the closing fence do not match. *)
Lemma spaces_then_fence_fails (b : str) : forall st t,
  b <> [] ->
  no_fence_in b t = true ->
  ends_nonspace b = true ->
  match_here (StarGreedy Space :: fence) st (b ++ t) = None.
Proof.
  induction b as [|x b IH]; intros st t Hne Hb He; [contradiction|].
  cbn [no_fence_in] in Hb. apply andb_true_iff in Hb. destruct Hb as [Hx Hb].
  apply negb_true_iff in Hx.
  assert (Hf : match_here fence st ((x :: b) ++ t) = None).
  { apply (match_lits_fail (py "```") [] st ((x :: b) ++ t) Hx). }
  change ((x :: b) ++ t) with (x :: (b ++ t)) in *.
  rewrite match_greedy_cons, Hf.
  destruct b as [|y b].
  - simpl in He. apply negb_true_iff in He. simpl. rewrite He. reflexivity.
  - rewrite (IH (consume st x) t); [|discriminate|exact Hb|exact He].
    destruct (class_match Space x); reflexivity.
Qed.

(** The lazy group goes through such a content to its end. *)
Lemma lazy_takes_body (b : str) : forall acc t,
  no_fence_in b t = true ->
  ends_nonspace b = true ->
  match_here (StarLazy AnyChar :: GroupClose :: StarGreedy Space :: fence)
             {| is_open := true; captured := acc |} (b ++ t)
  = match_here (StarLazy AnyChar :: GroupClose :: StarGreedy Space :: fence)
               {| is_open := true; captured := rev b ++ acc |} t.
Proof.
  induction b as [|x b IH]; intros acc t Hb He; [reflexivity|].
  rewrite match_lazy.
  change (match_here (GroupClose :: StarGreedy Space :: fence)
            {| is_open := true; captured := acc |} ((x :: b) ++ t))
    with (match_here (StarGreedy Space :: fence)
            {| is_open := false; captured := acc |} ((x :: b) ++ t)).
  rewrite spaces_then_fence_fails; [|discriminate|assumption|assumption].
  cbn [no_fence_in] in Hb. apply andb_true_iff in Hb. destruct Hb as [_ Hb].
  simpl app. cbn [class_match].
  change (consume {| is_open := true; captured := acc |} x)
    with {| is_open := true; captured := x :: acc |}.
  rewrite IH; [|assumption|destruct b; [reflexivity|exact He]].
  simpl rev. rewrite <- app_assoc. reflexivity.
Qed.

(** The part of the pattern from the group on, in front of such a
    content, white space and the closing fence: group 1 is the content. *)
Lemma group_takes_body (body ws2 rest : str) (st : capture) :
  no_fence_in body (ws2 ++ py "```" ++ rest) = true ->
  ends_nonspace body = true ->
  forallb isspace ws2 = true ->
  match_here ([GroupOpen; StarLazy AnyChar; GroupClose; StarGreedy Space] ++ fence)
             st (body ++ ws2 ++ py "```" ++ rest)
  = Some (body, rest).
Proof.
  intros Hb He Hw.
  change (match_here ([GroupOpen; StarLazy AnyChar; GroupClose; StarGreedy Space]
                        ++ fence) st (body ++ ws2 ++ py "```" ++ rest))
    with (match_here (StarLazy AnyChar :: GroupClose :: StarGreedy Space :: fence)
            {| is_open := true; captured := [] |}
            (body ++ ws2 ++ py "```" ++ rest)).
  rewrite lazy_takes_body by assumption.
  rewrite match_lazy, app_nil_r.
  change (match_here (GroupClose :: StarGreedy Space :: fence)
            {| is_open := true; captured := rev body |}
            (ws2 ++ py "```" ++ rest))
    with (match_here (StarGreedy Space :: fence)
            {| is_open := false; captured := rev body |}
            (ws2 ++ py "```" ++ rest)).
  rewrite (greedy_takes_spaces fence ws2 _ _ (body, rest) Hw); [reflexivity|].
  rewrite consume_closed by reflexivity.
  change (py "```" ++ rest) with (BACKTICK :: BACKTICK :: BACKTICK :: rest).
  rewrite greedy_stops by reflexivity.
  cbn. rewrite rev_involutive. reflexivity.
Qed.

(** The whole pattern at an opening marker. *)
Lemma json_block_at_marker (tag ws1 body ws2 rest : str) :
  opens_json_block tag = true ->
  forallb isspace ws1 = true ->
  no_fence_in body (ws2 ++ py "```" ++ rest) = true ->
  starts_nonspace body = true ->
  ends_nonspace body = true ->
  forallb isspace ws2 = true ->
  match_here json_block no_capture
             (tag ++ ws1 ++ body ++ ws2 ++ py "```" ++ rest)
  = Some (body, rest).
Proof.
  intros Ht Hw1 Hb Hs He Hw2.
  unfold opens_json_block in Ht. apply andb_true_iff in Ht.
  destruct Ht as [Hlen Ht]. apply Nat.eqb_eq in Hlen.
  set (K := [GroupOpen; StarLazy AnyChar; GroupClose; StarGreedy Space] ++ fence).
  change json_block with (List.map Lit (py "```json") ++ StarGreedy Space :: K).
  rewrite (match_lits_ok (py "```json") (StarGreedy Space :: K) no_capture tag _
             Ht Hlen eq_refl).
  destruct body as [|x body'].
  - cbn [app]. rewrite app_assoc.
    apply greedy_takes_spaces.
    + rewrite forallb_app, Hw1, Hw2. reflexivity.
    + rewrite consume_closed by reflexivity. reflexivity.
  - apply greedy_takes_spaces; [exact Hw1|].
    rewrite consume_closed by reflexivity.
    simpl in Hs. apply negb_true_iff in Hs.
    change ((x :: body') ++ ws2 ++ py "```" ++ rest)
      with (x :: (body' ++ ws2 ++ py "```" ++ rest)).
    rewrite greedy_stops by exact Hs.
    apply (group_takes_body (x :: body') ws2 rest no_capture); assumption.
Qed.

(** The search leaves out a prefix in which no marker starts. *)
Lemma search_skips (pre t : str) :
  no_marker_in pre t = true ->
  search json_block (pre ++ t) = search json_block t.
Proof.
  induction pre as [|x pre IH]; intros H; [reflexivity|].
  cbn [no_marker_in] in H. apply andb_true_iff in H. destruct H as [Hx H].
  apply negb_true_iff in Hx.
  assert (Hm : match_here json_block no_capture ((x :: pre) ++ t) = None).
  { exact (match_lits_fail (py "```json")
             ([StarGreedy Space; GroupOpen; StarLazy AnyChar; GroupClose;
               StarGreedy Space] ++ fence) no_capture _ Hx). }
  simpl app in *. cbn [search]. rewrite Hm. apply IH. exact H.
Qed.

Lemma search_found (t g r : str) :
  match_here json_block no_capture t = Some (g, r) ->
  search json_block t = Some g.
Proof. intros H. destruct t; cbn [search]; rewrite H; reflexivity. Qed.

(** *** [strip] *)

Lemma lstrip_length (s : str) : (List.length (lstrip s) <= List.length s)%nat.
Proof.
  induction s as [|c s IH]; simpl; [lia|].
  destruct (isspace c); simpl; lia.
Qed.

Lemma rstrip_length (s : str) : (List.length (rstrip s) <= List.length s)%nat.
Proof.
  unfold rstrip. rewrite length_rev.
  pose proof (lstrip_length (rev s)) as H. rewrite length_rev in H. exact H.
Qed.

Lemma lstrip_fixed (s : str) :
  List.length (lstrip s) = List.length s -> starts_nonspace s = true.
Proof.
  destruct s as [|c s]; [reflexivity|]. simpl.
  destruct (isspace c); [|reflexivity].
  intros H. pose proof (lstrip_length s). lia.
Qed.

Lemma ends_nonspace_snoc (s : str) (x : N) :
  ends_nonspace (s ++ [x]) = negb (isspace x).
Proof.
  induction s as [|c s IH]; [reflexivity|].
  simpl app. cbn [ends_nonspace].
  destruct (s ++ [x]) eqn:E; [destruct s; discriminate E|exact IH].
Qed.

Lemma ends_nonspace_rev (s : str) :
  starts_nonspace (rev s) = true -> ends_nonspace s = true.
Proof.
  rewrite <- (rev_involutive s) at 2.
  destruct (rev s) as [|x t]; [reflexivity|].
  simpl rev. rewrite ends_nonspace_snoc. auto.
Qed.

(** A string that [strip] leaves as it is neither starts nor ends with
    white space. *)
Lemma strip_fixed (s : str) :
  strip s = s -> starts_nonspace s = true /\ ends_nonspace s = true.
Proof.
  intros H.
  pose proof (rstrip_length (lstrip s)) as H1.
  pose proof (lstrip_length s) as H2.
  assert (H3 : List.length (strip s) = List.length s) by (rewrite H; reflexivity).
  unfold strip in H3.
  split; [apply lstrip_fixed; lia|].
  apply ends_nonspace_rev, lstrip_fixed.
  pose proof (lstrip_length (rev s)) as H4.
  assert (H5 : List.length (lstrip s) = List.length s) by lia.
  assert (H6 : lstrip s = s).
  { destruct s as [|c s']; [reflexivity|]. simpl in *.
    destruct (isspace c); [|reflexivity].
    pose proof (lstrip_length s'). lia. }
  rewrite H6 in H3. unfold rstrip in H3. rewrite length_rev in H3.
  rewrite length_rev. exact H3.
Qed.

(** The first fenced block decides the capture.  When the text is an
    opening marker, the first one of the text, then white space, a
    content that [strip] leaves unchanged and in which no fence starts,
    white space and a closing fence, group 1 is that content, whatever
    follows the closing fence. *)
Lemma search_first_block (pre tag ws1 body ws2 rest : str) :
  no_marker_in pre (tag ++ ws1 ++ body ++ ws2 ++ py "```" ++ rest) = true ->
  opens_json_block tag = true ->
  forallb isspace ws1 = true ->
  strip body = body ->
  no_fence_in body (ws2 ++ py "```" ++ rest) = true ->
  forallb isspace ws2 = true ->
  search json_block (pre ++ tag ++ ws1 ++ body ++ ws2 ++ py "```" ++ rest)
  = Some body.
Proof.
  intros Hp Ht Hw1 Hs Hb Hw2.
  apply strip_fixed in Hs. destruct Hs as [Hs He].
  rewrite search_skips by exact Hp.
  apply search_found with (r := rest).
  apply json_block_at_marker; assumption.
Qed.

End ReFacts.

(* ================================================================== *)
(** * Properties of the JSON recovery route *)

Import Json.

(** The kinds of failure of [transform_text_to_json]. *)
Definition decode_error : HTTPException :=
  {| status_code := 400; detail := "Erro ao decodificar JSON: ";
     detail_exn := Some JSONDecodeError |}.

Definition structure_error (msg : string) : HTTPException :=
  {| status_code := 400; detail := "Erro na estrutura do input: ";
     detail_exn := Some (ValueError msg) |}.

Definition server_error (e : exn) : HTTPException :=
  {| status_code := 500; detail := "Erro inesperado no processamento: ";
     detail_exn := Some e |}.

(** The answer to the [ValueError] of [int]: it is no decode error, so
    that the second [except] clause takes it. *)
Definition digits_error (digits : nat) : HTTPException :=
  {| status_code := 400; detail := "Erro na estrutura do input: ";
     detail_exn := Some (IntDigitsError digits) |}.

(** [isinstance(v, list) and len(v) != 0] *)
Definition is_nonempty_list (v : value) : bool :=
  match v with VList (_ :: _) => true | _ => false end.

(** [isinstance(v, dict) and "text" in v] *)
Definition has_text_key (v : value) : bool :=
  match v with VDict d => dict_contains d (py "text") | _ => false end.

Definition is_str (v : value) : bool :=
  match v with VStr _ => true | _ => false end.

Definition is_dict (v : value) : bool :=
  match v with VDict _ => true | _ => false end.

(** A JSON string literal with the plain ASCII content [s]. *)
Definition quoted (s : string) : str := [QUOTE] ++ py s ++ [QUOTE].

(** A quote inside a JSON string literal. *)
Definition escaped_quote : str := [BACKSLASH; QUOTE].

(** The happy-path input: a JSON list of one object whose member text
    is a string literal with the content
    [prefix ```json\n{\Qa\Q:1}\n``` suffix], where [Q] stands for a
    double quote: [\n] and [\Q] are JSON escapes, written with a
    backslash in the raw text. *)
Definition happy_path_raw_text : str :=
  py "[{" ++ quoted "text" ++ py ": " ++ [QUOTE]
  ++ py "prefix ```json\n{" ++ escaped_quote ++ py "a" ++ escaped_quote
  ++ py ":1}\n``` suffix" ++ [QUOTE] ++ py "}]".

(** The text field of the happy path after the outer decoding. *)
Definition happy_path_text : str :=
  py "prefix ```json" ++ [NEWLINE] ++ py "{" ++ quoted "a" ++ py ":1}"
  ++ [NEWLINE] ++ py "``` suffix".

(** The recursion limit of the interpreter by default, taken as the
    number of levels left where a concrete one is needed. *)
Definition default_recursion_left : nat := 1000.

Lemma transform_unfold (recursion_left : nat) (payload : TextInput) :
  transform_text_to_json recursion_left payload =
  match transform_try recursion_left payload with
  | Ok v => inr v
  | Raise e => inl (transform_except e)
  end.
Proof. reflexivity. Qed.

Lemma json_loads_none (d : nat) (s : str) :
  loads d s = DecodeError -> json_loads d s = Raise JSONDecodeError.
Proof. unfold json_loads; intros ->; reflexivity. Qed.

Lemma json_loads_some (d : nat) (s : str) (v : value) :
  loads d s = Decoded v -> json_loads d s = Ok v.
Proof. unfold json_loads; intros ->; reflexivity. Qed.

(** A value that decodes with some levels of recursion left decodes to
    the same value with more. *)
Lemma loads_decoded_deeper (d d' : nat) (s : str) (v : value) :
  d <= d' -> loads d s = Decoded v -> loads d' s = Decoded v.
Proof.
  intros Hle H. rewrite (JsonFacts.loads_deeper d d' s Hle); [exact H|].
  rewrite H. discriminate.
Qed.

(** The exceptions [json.loads] raises. *)
Lemma json_loads_raises (d : nat) (s : str) (e : exn) :
  json_loads d s = Raise e ->
  e = JSONDecodeError \/ e = RecursionError \/ exists n, e = IntDigitsError n.
Proof.
  unfold json_loads. destruct (loads d s) as [v| |[|n]]; intros H;
    try discriminate H; injection H as <-; eauto.
Qed.

(** The outer layers of a well-formed envelope: the handler goes on
    with the search in the text field. *)
Lemma transform_try_envelope (recursion_left : nat) (payload : TextInput) d tl t :
  loads recursion_left (raw_text payload) = Decoded (VList (VDict d :: tl)) ->
  dict_get d (py "text") = Some t ->
  transform_try recursion_left payload =
    (m <- re_search t ;;
     json_string <- match m with
                    | Some g => Ok g
                    | None => Raise (ValueError msg_no_block)
                    end ;;
     final_json_data <- json_loads recursion_left json_string ;;
     Ok final_json_data).
Proof.
  intros Hl Hd. unfold transform_try.
  rewrite (json_loads_some _ _ _ Hl). cbn [bind]. rewrite Hd. reflexivity.
Qed.

(** The handler once the search has captured [g]. *)
Lemma transform_captured (recursion_left : nat) (payload : TextInput) d tl s g :
  loads recursion_left (raw_text payload) = Decoded (VList (VDict d :: tl)) ->
  dict_get d (py "text") = Some (VStr s) ->
  Re.search Re.json_block s = Some g ->
  transform_text_to_json recursion_left payload
  = match json_loads recursion_left g with
    | Ok w => inr w
    | Raise e => inl (transform_except e)
    end.
Proof.
  intros Hl Hd Hs.
  rewrite transform_unfold, (transform_try_envelope _ _ _ _ _ Hl Hd).
  cbn [re_search bind]. rewrite Hs. cbn [bind].
  destruct (json_loads recursion_left g); reflexivity.
Qed.

(** C1: on the happy-path input, with at least the two levels of
    recursion left that the list and its object take, the outer list
    decodes to one object whose text field holds the fenced block, group
    1 of the search is the fence content without the line breaks around
    it, and the handler returns the object with the single key a bound
    to 1, which the response model of the route lets through. *)
Theorem C1_happy_path (recursion_left : nat) :
  2 <= recursion_left ->
  loads recursion_left happy_path_raw_text
    = Decoded (VList [VDict [(py "text", VStr happy_path_text)]])
  /\ Re.search Re.json_block happy_path_text
    = Some (py "{" ++ quoted "a" ++ py ":1}")
  /\ transform_text_to_json recursion_left {| raw_text := happy_path_raw_text |}
    = inr (VDict [(py "a", VInt 1)])
  /\ transform_to_json_route recursion_left {| raw_text := happy_path_raw_text |}
    = Validated (VDict [(py "a", VInt 1)]).
Proof.
  intros Hd.
  assert (H1 : loads recursion_left happy_path_raw_text
               = Decoded (VList [VDict [(py "text", VStr happy_path_text)]])).
  { apply (loads_decoded_deeper 2 recursion_left _ _ Hd).
    vm_compute; reflexivity. }
  assert (H2 : Re.search Re.json_block happy_path_text
               = Some (py "{" ++ quoted "a" ++ py ":1}"))
    by (vm_compute; reflexivity).
  assert (H3 : loads recursion_left (py "{" ++ quoted "a" ++ py ":1}")
               = Decoded (VDict [(py "a", VInt 1)])).
  { apply (loads_decoded_deeper 2 recursion_left _ _ Hd).
    vm_compute; reflexivity. }
  assert (H4 : transform_text_to_json recursion_left
                 {| raw_text := happy_path_raw_text |}
               = inr (VDict [(py "a", VInt 1)])).
  { rewrite (transform_captured recursion_left
               {| raw_text := happy_path_raw_text |}
               [(py "text", VStr happy_path_text)] [] happy_path_text
               (py "{" ++ quoted "a" ++ py ":1}") H1 eq_refl H2).
    rewrite (json_loads_some _ _ _ H3). reflexivity. }
  split; [exact H1|]. split; [exact H2|]. split; [exact H4|].
  unfold transform_to_json_route. rewrite H4. reflexivity.
Qed.

Lemma C1_happy_path_witness :
  loads default_recursion_left happy_path_raw_text
    = Decoded (VList [VDict [(py "text", VStr happy_path_text)]])
  /\ Re.search Re.json_block happy_path_text
    = Some (py "{" ++ quoted "a" ++ py ":1}")
  /\ transform_text_to_json default_recursion_left
       {| raw_text := happy_path_raw_text |}
    = inr (VDict [(py "a", VInt 1)])
  /\ transform_to_json_route default_recursion_left
       {| raw_text := happy_path_raw_text |}
    = Validated (VDict [(py "a", VInt 1)]).
Proof.
  apply (C1_happy_path default_recursion_left).
  unfold default_recursion_left. lia.
Defined.

(** C2 (amended): the failure points of the handler, in their order.
    An exception of the decoding of the raw text is answered by the
    [except] clause that takes it: the raw text that is not JSON is a
    decode error.  Then a value that is not a non-empty list, a first
    item that is not an object with the key text, and a text without a
    fenced block are structure errors with their three messages; an
    exception of the decoding of the captured content is answered like
    one of the raw text, a content that is not JSON being a decode error;
    otherwise the handler returns the decoded content.  Between the key
    check and the search there is one more failure point: a text value
    that is not a string makes the search raise a type error.  The
    decoder raises nothing but the decode error, the error of [int] on a
    literal of too many digits, which is a [ValueError] and is answered
    with the prefix of the structure errors, and the recursion error.
    Decode and structure errors, like every [ValueError], have status
    400; any other failure, the type error and the recursion error among
    them, is a server error with status 500. *)
Theorem C2_failure_order (recursion_left : nat) (payload : TextInput) :
  (forall e, json_loads recursion_left (raw_text payload) = Raise e ->
     transform_text_to_json recursion_left payload = inl (transform_except e))
  /\ (forall v, loads recursion_left (raw_text payload) = Decoded v ->
        is_nonempty_list v = false ->
        transform_text_to_json recursion_left payload
        = inl (structure_error msg_not_a_list))
  /\ (forall x tl,
        loads recursion_left (raw_text payload) = Decoded (VList (x :: tl)) ->
        has_text_key x = false ->
        transform_text_to_json recursion_left payload
        = inl (structure_error msg_no_text_key))
  /\ (forall d tl t,
        loads recursion_left (raw_text payload)
        = Decoded (VList (VDict d :: tl)) ->
        dict_get d (py "text") = Some t ->
        (is_str t = false ->
           transform_text_to_json recursion_left payload
           = inl (server_error TypeError))
        /\ (forall s, t = VStr s ->
              (Re.search Re.json_block s = None ->
                 transform_text_to_json recursion_left payload
                 = inl (structure_error msg_no_block))
              /\ (forall g, Re.search Re.json_block s = Some g ->
                    (forall e, json_loads recursion_left g = Raise e ->
                       transform_text_to_json recursion_left payload
                       = inl (transform_except e))
                    /\ (forall w, loads recursion_left g = Decoded w ->
                          transform_text_to_json recursion_left payload
                          = inr w))))
  /\ (forall s e, json_loads recursion_left s = Raise e ->
        e = JSONDecodeError \/ e = RecursionError
        \/ exists n, e = IntDigitsError n)
  /\ transform_except JSONDecodeError = decode_error
  /\ (forall n, transform_except (IntDigitsError n) = digits_error n)
  /\ transform_except RecursionError = server_error RecursionError
  /\ (forall e, status_code (transform_except e)
                = if is_ValueError e then 400%Z else 500%Z)
  /\ status_code decode_error = 400%Z
  /\ (forall msg, status_code (structure_error msg) = 400%Z)
  /\ (forall e, status_code (server_error e) = 500%Z).
Proof.
  split; [|split; [|split; [|split; [|split]]]].
  - intros e He. rewrite transform_unfold. unfold transform_try.
    rewrite He. reflexivity.
  - intros v Hl Hv. rewrite transform_unfold. unfold transform_try.
    rewrite (json_loads_some _ _ _ Hl).
    cbn [bind]. destruct v as [| | | | | [| x tl] |]; try discriminate Hv;
      reflexivity.
  - intros x tl Hl Hx. rewrite transform_unfold. unfold transform_try.
    rewrite (json_loads_some _ _ _ Hl).
    cbn [bind]. destruct x as [| | | | | |d]; try reflexivity.
    unfold has_text_key, dict_contains in Hx.
    destruct (dict_get d (py "text")); [discriminate Hx | reflexivity].
  - intros d tl t Hl Hd. split.
    + intros Ht. rewrite transform_unfold, (transform_try_envelope _ _ _ _ _ Hl Hd).
      destruct t; try discriminate Ht; reflexivity.
    + intros s ->. split.
      * intros Hs. rewrite transform_unfold, (transform_try_envelope _ _ _ _ _ Hl Hd).
        cbn [re_search bind]. rewrite Hs. reflexivity.
      * intros g Hs. rewrite (transform_captured _ _ _ _ _ _ Hl Hd Hs). split.
        -- intros e He. rewrite He. reflexivity.
        -- intros w Hw. rewrite (json_loads_some _ _ _ Hw). reflexivity.
  - intros s e. apply json_loads_raises.
  - repeat split; try reflexivity. intros e. destruct e; reflexivity.
Qed.

(** Inputs that reach each failure point in turn. *)
Definition raw_not_json : str := py "not json".
Definition raw_not_a_list : str := py "{" ++ quoted "text" ++ py ": " ++ quoted "..." ++ py "}".
Definition raw_no_text_key : str := py "[{" ++ quoted "body" ++ py ": 1}]".
Definition raw_text_not_str : str := py "[{" ++ quoted "text" ++ py ": 5}]".
Definition raw_no_fence : str :=
  py "[{" ++ quoted "text" ++ py ": " ++ quoted "no fence here" ++ py "}]".
Definition raw_bad_inner : str :=
  py "[{" ++ quoted "text" ++ py ": " ++ quoted "```json {bad ```" ++ py "}]".

(** A list nested 3000 deep, and a number of 4301 digits. *)
Definition raw_deep : str := repeat 91%N 3000 ++ repeat 93%N 3000.
Definition raw_long_int : str := repeat 49%N 4301.

Lemma C2_failure_order_witness :
  transform_text_to_json default_recursion_left {| raw_text := raw_not_json |}
    = inl decode_error
  /\ transform_text_to_json default_recursion_left {| raw_text := raw_deep |}
     = inl (server_error RecursionError)
  /\ transform_text_to_json default_recursion_left {| raw_text := raw_long_int |}
     = inl (digits_error 4301)
  /\ transform_text_to_json default_recursion_left {| raw_text := raw_not_a_list |}
     = inl (structure_error msg_not_a_list)
  /\ transform_text_to_json default_recursion_left {| raw_text := raw_no_text_key |}
     = inl (structure_error msg_no_text_key)
  /\ transform_text_to_json default_recursion_left {| raw_text := raw_text_not_str |}
     = inl (server_error TypeError)
  /\ transform_text_to_json default_recursion_left {| raw_text := raw_no_fence |}
     = inl (structure_error msg_no_block)
  /\ transform_text_to_json default_recursion_left {| raw_text := raw_bad_inner |}
     = inl decode_error
  /\ transform_text_to_json default_recursion_left
       {| raw_text := happy_path_raw_text |}
     = inr (VDict [(py "a", VInt 1)]).
Proof.
  split; [| split; [| split; [| split; [| split; [| split; [| split; [| split]]]]]]].
  - apply (proj1 (C2_failure_order default_recursion_left
                    {| raw_text := raw_not_json |}) JSONDecodeError).
    vm_compute; reflexivity.
  - apply (proj1 (C2_failure_order default_recursion_left
                    {| raw_text := raw_deep |}) RecursionError).
    vm_compute; reflexivity.
  - apply (proj1 (C2_failure_order default_recursion_left
                    {| raw_text := raw_long_int |}) (IntDigitsError 4301)).
    vm_compute; reflexivity.
  - apply (proj1 (proj2 (C2_failure_order default_recursion_left
                           {| raw_text := raw_not_a_list |}))
             (VDict [(py "text", VStr (py "..."))])).
    + vm_compute; reflexivity.
    + reflexivity.
  - apply (proj1 (proj2 (proj2 (C2_failure_order default_recursion_left
                                  {| raw_text := raw_no_text_key |})))
             (VDict [(py "body", VInt 1)]) []).
    + vm_compute; reflexivity.
    + vm_compute; reflexivity.
  - refine (proj1 (proj1 (proj2 (proj2 (proj2
             (C2_failure_order default_recursion_left
                {| raw_text := raw_text_not_str |}))))
             [(py "text", VInt 5)] [] (VInt 5) _ eq_refl) _).
    + vm_compute; reflexivity.
    + reflexivity.
  - refine (proj1 (proj2 (proj1 (proj2 (proj2 (proj2
             (C2_failure_order default_recursion_left
                {| raw_text := raw_no_fence |}))))
             [(py "text", VStr (py "no fence here"))] []
             (VStr (py "no fence here")) _ eq_refl)
             (py "no fence here") eq_refl) _).
    + vm_compute; reflexivity.
    + vm_compute; reflexivity.
  - refine (proj1 (proj2 (proj2 (proj1 (proj2 (proj2 (proj2
             (C2_failure_order default_recursion_left
                {| raw_text := raw_bad_inner |}))))
             [(py "text", VStr (py "```json {bad ```"))] []
             (VStr (py "```json {bad ```")) _ eq_refl)
             (py "```json {bad ```") eq_refl)
             (py "{bad") _) JSONDecodeError _).
    + vm_compute; reflexivity.
    + vm_compute; reflexivity.
    + vm_compute; reflexivity.
  - refine (proj2 (proj2 (proj2 (proj1 (proj2 (proj2 (proj2
             (C2_failure_order default_recursion_left
                {| raw_text := happy_path_raw_text |}))))
             [(py "text", VStr happy_path_text)] []
             (VStr happy_path_text) _ eq_refl)
             happy_path_text eq_refl)
             (py "{" ++ quoted "a" ++ py ":1}") _) _ _).
    + vm_compute; reflexivity.
    + vm_compute; reflexivity.
    + vm_compute; reflexivity.
Defined.

(** C2, as stated, fails: the list with one object whose text is the
    number 5 passes the first three checks, and the handler then fails
    with status 500, which is neither a decode error nor a structure
    error, and it does not succeed. *)
Lemma C2_text_not_str_counterexample :
  loads default_recursion_left raw_text_not_str
    = Decoded (VList [VDict [(py "text", VInt 5)]])
  /\ is_nonempty_list (VList [VDict [(py "text", VInt 5)]]) = true
  /\ has_text_key (VDict [(py "text", VInt 5)]) = true
  /\ transform_text_to_json default_recursion_left
       {| raw_text := raw_text_not_str |}
     = inl (server_error TypeError)
  /\ status_code (server_error TypeError) = 500%Z.
Proof.
  split; [vm_compute; reflexivity|].
  split; [reflexivity|]. split; [reflexivity|].
  split; [vm_compute; reflexivity|reflexivity].
Qed.

(* ================================================================== *)
(** * Only the first fenced block is honoured *)

(** C3 (amended): when the text field holds a first fenced block (the
    first opening marker of the text, white space, a content without
    white space around it in which no closing fence starts, white space
    and a closing fence) and the decoding of that content raises, the
    search captures that content and the handler fails with the answer to
    that exception: the decode error when the content is not JSON within
    the limits of the interpreter, the server error when it is nested
    deeper than the recursion that is left, the client error of [int]
    when it holds an integer of too many digits.  What follows the closing
    fence, a later block with valid JSON included, is never tried. *)
Theorem C3_first_block_only
    (recursion_left : nat)
    (payload : TextInput) (d : list (str * value)) (tl : list value)
    (pre tag ws1 body ws2 rest : str) (e : exn) :
  loads recursion_left (raw_text payload) = Decoded (VList (VDict d :: tl)) ->
  dict_get d (py "text")
    = Some (VStr (pre ++ tag ++ ws1 ++ body ++ ws2 ++ py "```" ++ rest)) ->
  ReFacts.no_marker_in pre (tag ++ ws1 ++ body ++ ws2 ++ py "```" ++ rest) = true ->
  ReFacts.opens_json_block tag = true ->
  forallb isspace ws1 = true ->
  strip body = body ->
  ReFacts.no_fence_in body (ws2 ++ py "```" ++ rest) = true ->
  forallb isspace ws2 = true ->
  json_loads recursion_left body = Raise e ->
  Re.search Re.json_block (pre ++ tag ++ ws1 ++ body ++ ws2 ++ py "```" ++ rest)
    = Some body
  /\ transform_text_to_json recursion_left payload = inl (transform_except e)
  /\ (e = JSONDecodeError ->
      transform_text_to_json recursion_left payload = inl decode_error)
  /\ (e = RecursionError ->
      transform_text_to_json recursion_left payload
      = inl (server_error RecursionError))
  /\ (forall n, e = IntDigitsError n ->
      transform_text_to_json recursion_left payload = inl (digits_error n)).
Proof.
  intros Hl Hd Hp Ht Hw1 Hs Hb Hw2 Hbad.
  assert (Hsearch := ReFacts.search_first_block pre tag ws1 body ws2 rest
                       Hp Ht Hw1 Hs Hb Hw2).
  assert (HT : transform_text_to_json recursion_left payload
               = inl (transform_except e)).
  { rewrite (transform_captured _ _ _ _ _ _ Hl Hd Hsearch), Hbad. reflexivity. }
  split; [exact Hsearch|]. split; [exact HT|].
  split; [|split]; [intros ->|intros ->|intros n ->]; exact HT.
Qed.

(** Two fenced blocks, the first with the content [{bad], the second
    with an object. *)
Definition second_block : str := py " then ```json {" ++ quoted "a" ++ py ": 1} ```".

Definition second_block_escaped : str :=
  py " then ```json {" ++ escaped_quote ++ py "a" ++ escaped_quote ++ py ": 1} ```".

Definition raw_two_blocks : str :=
  py "[{" ++ quoted "text" ++ py ": " ++ [QUOTE]
  ++ py "intro ```JSON {bad ```" ++ second_block_escaped ++ [QUOTE] ++ py "}]".

Lemma C3_first_block_only_witness :
  Re.search Re.json_block
    (py "intro " ++ py "```JSON" ++ py " " ++ py "{bad" ++ py " "
     ++ py "```" ++ second_block) = Some (py "{bad")
  /\ transform_text_to_json default_recursion_left {| raw_text := raw_two_blocks |}
     = inl (transform_except JSONDecodeError)
  /\ (JSONDecodeError = JSONDecodeError ->
      transform_text_to_json default_recursion_left
        {| raw_text := raw_two_blocks |} = inl decode_error)
  /\ (JSONDecodeError = RecursionError ->
      transform_text_to_json default_recursion_left
        {| raw_text := raw_two_blocks |} = inl (server_error RecursionError))
  /\ (forall n, JSONDecodeError = IntDigitsError n ->
      transform_text_to_json default_recursion_left
        {| raw_text := raw_two_blocks |} = inl (digits_error n)).
Proof.
  apply (C3_first_block_only default_recursion_left
           {| raw_text := raw_two_blocks |}
           [(py "text",
             VStr (py "intro " ++ py "```JSON" ++ py " " ++ py "{bad" ++ py " "
                   ++ py "```" ++ second_block))]
           [] (py "intro ") (py "```JSON") (py " ") (py "{bad") (py " ")
           second_block JSONDecodeError);
    vm_compute; reflexivity.
Defined.

(** A first block whose content is 3000 opening brackets, which is not
    JSON however deep the decoder may go, and the second block of
    before. *)
Definition deep_block : str := repeat 91%N 3000.

Definition raw_deep_first_block : str :=
  py "[{" ++ quoted "text" ++ py ": " ++ [QUOTE]
  ++ py "```json " ++ deep_block ++ py " ```" ++ second_block_escaped
  ++ [QUOTE] ++ py "}]".

(** C3, as stated, fails: the content of the first block is not JSON
    (with 3000 levels of recursion the decoder says so), the second block
    holds valid JSON, and with the recursion limit of the interpreter the
    handler does not fail with a decode error but with the server error
    of the recursion error. *)
Lemma C3_deep_block_counterexample :
  loads 3000 deep_block = DecodeError
  /\ Re.search Re.json_block second_block
     = Some (py "{" ++ quoted "a" ++ py ": 1}")
  /\ loads default_recursion_left (py "{" ++ quoted "a" ++ py ": 1}")
     = Decoded (VDict [(py "a", VInt 1)])
  /\ Re.search Re.json_block
       (py "```json " ++ deep_block ++ py " ```" ++ second_block)
     = Some deep_block
  /\ transform_text_to_json default_recursion_left
       {| raw_text := raw_deep_first_block |}
     = inl (server_error RecursionError)
  /\ transform_text_to_json default_recursion_left
       {| raw_text := raw_deep_first_block |}
     <> inl decode_error.
Proof.
  split; [vm_compute; reflexivity|].
  split; [vm_compute; reflexivity|].
  split; [vm_compute; reflexivity|].
  split; [vm_compute; reflexivity|].
  split; [vm_compute; reflexivity|].
  vm_compute. discriminate.
Qed.

(* ================================================================== *)
(** * The response of the JSON recovery route *)

(** C5 (amended): when recovery succeeds the handler returns the decoded
    content of the block as it is, whatever its type, with no check of
    its shape and no wrapping.  The route declares the response model
    [Dict[str, Any]]: a value that is not an object is refused by it and
    the request ends in a server error instead of an answer with that
    value; an object passes the response model unchanged. *)
Theorem C5_returns_recovered_value
    (recursion_left : nat)
    (payload : TextInput) (d : list (str * value)) (tl : list value)
    (s g : str) (w : value) :
  loads recursion_left (raw_text payload) = Decoded (VList (VDict d :: tl)) ->
  dict_get d (py "text") = Some (VStr s) ->
  Re.search Re.json_block s = Some g ->
  loads recursion_left g = Decoded w ->
  transform_text_to_json recursion_left payload = inr w
  /\ (is_dict w = false ->
      transform_to_json_route recursion_left payload = ResponseValidationError)
  /\ (is_dict w = true -> response_model_Dict_str_Any w = Some w).
Proof.
  intros Hl Hd Hs Hg.
  assert (H : transform_text_to_json recursion_left payload = inr w).
  { rewrite (transform_captured _ _ _ _ _ _ Hl Hd Hs).
    rewrite (json_loads_some _ _ _ Hg). reflexivity. }
  split; [exact H|]. split.
  - intros Hw. unfold transform_to_json_route. rewrite H.
    destruct w; try reflexivity. discriminate Hw.
  - intros Hw. destruct w; try discriminate Hw. reflexivity.
Qed.

Definition raw_scalar_block : str :=
  py "[{" ++ quoted "text" ++ py ": " ++ quoted "```json 1 ```" ++ py "}]".

Definition raw_array_block : str :=
  py "[{" ++ quoted "text" ++ py ": " ++ quoted "```json [1, 2] ```" ++ py "}]".

Lemma C5_returns_recovered_value_witness :
  transform_text_to_json default_recursion_left
    {| raw_text := raw_array_block |} = inr (VList [VInt 1; VInt 2])
  /\ (is_dict (VList [VInt 1; VInt 2]) = false ->
      transform_to_json_route default_recursion_left
        {| raw_text := raw_array_block |} = ResponseValidationError)
  /\ (is_dict (VList [VInt 1; VInt 2]) = true ->
      response_model_Dict_str_Any (VList [VInt 1; VInt 2])
      = Some (VList [VInt 1; VInt 2])).
Proof.
  apply (C5_returns_recovered_value default_recursion_left
           {| raw_text := raw_array_block |}
           [(py "text", VStr (py "```json [1, 2] ```"))] []
           (py "```json [1, 2] ```") (py "[1, 2]") (VList [VInt 1; VInt 2]));
    vm_compute; reflexivity.
Defined.

(** C5, as stated, fails for a scalar and for an array: recovery
    succeeds in the handler, with the number 1 and with the list of 1 and
    2, but neither value becomes the response body: the response model
    refuses it and the route answers with a server error. *)
Lemma C5_scalar_counterexample :
  transform_text_to_json default_recursion_left
    {| raw_text := raw_scalar_block |} = inr (VInt 1)
  /\ transform_to_json_route default_recursion_left
       {| raw_text := raw_scalar_block |}
     = ResponseValidationError
  /\ transform_to_json_route default_recursion_left
       {| raw_text := raw_scalar_block |}
     <> Validated (VInt 1)
  /\ transform_text_to_json default_recursion_left
       {| raw_text := raw_array_block |}
     = inr (VList [VInt 1; VInt 2])
  /\ transform_to_json_route default_recursion_left
       {| raw_text := raw_array_block |}
     = ResponseValidationError
  /\ transform_to_json_route default_recursion_left
       {| raw_text := raw_array_block |}
     <> Validated (VList [VInt 1; VInt 2]).
Proof.
  split; [vm_compute; reflexivity|].
  split; [vm_compute; reflexivity|].
  split; [vm_compute; discriminate|].
  split; [vm_compute; reflexivity|].
  split; [vm_compute; reflexivity|].
  vm_compute; discriminate.
Qed.

(* ================================================================== *)
(** * Properties of the extractors *)

(** A parser that reads every file as the given document. *)
Definition reads_as {A} (doc : A) : list byte -> result A := fun _ => Ok doc.

(** A parser that refuses every file. *)
Definition refuses {A} : list byte -> result A :=
  fun _ => Raise (LibraryError (py "not a document")).

Definition page_with (s : string) : PageObject := {| extract_text := Ok (py s) |}.

Definition two_page_reader : PdfReader :=
  {| pages := [page_with "Hello"; page_with "World"]; pdf_info := None |}.

Definition empty_reader : PdfReader := {| pages := []; pdf_info := None |}.

(** The text the extractor writes for the pages Hello and World: the
    separators read [--- Pagina n ---] with an acute accent on the first
    a (U+00E1). *)
Definition pagina_text : str :=
  py "--- P" ++ [225%N] ++ py "gina 1 ---" ++ [NEWLINE] ++ py "Hello" ++ [NEWLINE]
  ++ py "--- P" ++ [225%N] ++ py "gina 2 ---" ++ [NEWLINE] ++ py "World".

(** The text of the claim, with the separators [--- Page n ---]. *)
Definition page_text : str :=
  py "--- Page 1 ---" ++ [NEWLINE] ++ py "Hello" ++ [NEWLINE]
  ++ py "--- Page 2 ---" ++ [NEWLINE] ++ py "World".

Section ExtractorFacts.

Variable PdfReader_open : list byte -> result PdfReader.
Variable Presentation_open : list byte -> result Presentation.
Variable utcnow_isoformat : str.

(** C4 (amended): for a PDF of two pages whose texts are Hello and
    World, the text content is, already trimmed, the separator of page
    1, Hello, the separator of page 2 and World, each on a line of its
    own and in the order of the pages; the separator of page n is the
    line [--- Pagina n ---], written with a-acute, not [--- Page n ---]. *)
Theorem C4_two_pages
    (file_content : list byte) (filename : str)
    (reader : PdfReader) (p1 p2 : PageObject) :
  PdfReader_open file_content = Ok reader ->
  pages reader = [p1; p2] ->
  extract_text p1 = Ok (py "Hello") ->
  extract_text p2 = Ok (py "World") ->
  exists r,
    extract_pdf PdfReader_open utcnow_isoformat file_content filename = inr r
    /\ text_content r = pagina_text
    /\ strip (text_content r) = pagina_text.
Proof.
  intros Hopen Hpages H1 H2.
  unfold extract_pdf, extract_pdf_try.
  rewrite Hopen. cbn [bind]. rewrite Hpages.
  cbn [pdf_pages_loop]. rewrite H1. cbn [bind]. rewrite H2. cbn [bind].
  eexists. split; [reflexivity|].
  split; vm_compute; reflexivity.
Qed.

(** C7: a PDF that parses and has no page gives a response whose
    metadata has [num_pages] 0 and whose text content is empty. *)
Theorem C7_zero_pages
    (file_content : list byte) (filename : str) (reader : PdfReader) :
  PdfReader_open file_content = Ok reader ->
  pages reader = [] ->
  exists r,
    extract_pdf PdfReader_open utcnow_isoformat file_content filename = inr r
    /\ Json.dict_get (metadata r) (py "num_pages") = Some (VInt 0)
    /\ text_content r = [].
Proof.
  intros Hopen Hpages.
  unfold extract_pdf, extract_pdf_try.
  rewrite Hopen. cbn [bind]. rewrite Hpages.
  eexists. split; [reflexivity|].
  split; reflexivity.
Qed.

Lemma is_supported_iff (ext : str) :
  is_supported ext = true <->
  str_eqb ext (py "pdf") = true \/ str_eqb ext (py "pptx") = true.
Proof.
  unfold is_supported. cbn [existsb]. rewrite orb_false_r, orb_true_iff.
  reflexivity.
Qed.

(** C8: an upload without content whose extension is supported is
    rejected with the client error of the empty file, whatever the
    parsers would do with it: no extractor is called. *)
Theorem C8_empty_upload (file : UploadFile) :
  is_supported (file_extension_of (upload_filename file)) = true ->
  List.length (upload_content file) = 0 ->
  extract_document PdfReader_open Presentation_open utcnow_isoformat file
    = ([], Raised empty_file)
  /\ status_code empty_file = 400%Z.
Proof.
  intros Hext Hlen. unfold extract_document.
  rewrite Hext, Hlen. split; reflexivity.
Qed.

End ExtractorFacts.

Lemma C4_two_pages_witness :
  exists r,
    extract_pdf (reads_as two_page_reader) (py "2024-05-01T10:00:00")
                ["%"%byte; "P"%byte; "D"%byte; "F"%byte] (py "doc.pdf") = inr r
    /\ text_content r = pagina_text
    /\ strip (text_content r) = pagina_text.
Proof.
  apply (C4_two_pages (reads_as two_page_reader) (py "2024-05-01T10:00:00")
           ["%"%byte; "P"%byte; "D"%byte; "F"%byte] (py "doc.pdf")
           two_page_reader (page_with "Hello") (page_with "World"));
    reflexivity.
Defined.

(** C4, as stated, fails: for the two pages Hello and World the trimmed
    text content is not the text with the separators [--- Page n ---]. *)
Lemma C4_page_separator_counterexample :
  exists r,
    extract_pdf (reads_as two_page_reader) (py "2024-05-01T10:00:00")
                ["%"%byte; "P"%byte; "D"%byte; "F"%byte] (py "doc.pdf") = inr r
    /\ strip (text_content r) <> page_text.
Proof.
  eexists. split; [reflexivity|]. vm_compute. discriminate.
Qed.

Lemma C7_zero_pages_witness :
  exists r,
    extract_pdf (reads_as empty_reader) (py "2024-05-01T10:00:00")
                ["%"%byte; "P"%byte; "D"%byte; "F"%byte] (py "empty.pdf") = inr r
    /\ Json.dict_get (metadata r) (py "num_pages") = Some (VInt 0)
    /\ text_content r = [].
Proof.
  apply (C7_zero_pages (reads_as empty_reader) (py "2024-05-01T10:00:00")
           ["%"%byte; "P"%byte; "D"%byte; "F"%byte] (py "empty.pdf") empty_reader);
    reflexivity.
Defined.

Lemma C8_empty_upload_witness :
  extract_document (reads_as two_page_reader) refuses (py "2024-05-01T10:00:00")
    {| upload_filename := py "slides.PPTX"; upload_content := [] |}
    = ([], Raised empty_file)
  /\ extract_document (reads_as two_page_reader) refuses (py "2024-05-01T10:00:00")
       {| upload_filename := py "report.pdf"; upload_content := [] |}
    = ([], Raised empty_file).
Proof.
  split.
  - apply (C8_empty_upload (reads_as two_page_reader) refuses
             (py "2024-05-01T10:00:00")
             {| upload_filename := py "slides.PPTX"; upload_content := [] |});
      reflexivity.
  - apply (C8_empty_upload (reads_as two_page_reader) refuses
             (py "2024-05-01T10:00:00")
             {| upload_filename := py "report.pdf"; upload_content := [] |});
      reflexivity.
Defined.

(* ================================================================== *)
(** * The extension of a file name *)

Module ExtensionFacts.
Local Open Scope N_scope.

Lemma split_nonempty (sep : N) (s : str) : split sep s <> [].
Proof.
  destruct s as [|c s]; simpl; [discriminate|].
  destruct (c =? sep); [discriminate|].
  destruct (split sep s); discriminate.
Qed.

(** Characters other than the separator stay in the first segment. *)
Lemma split_app_no_sep (sep : N) (pre s : str) :
  Forall (fun x => x <> sep) pre ->
  split sep (pre ++ s)
  = (pre ++ hd [] (split sep s)) :: tl (split sep s).
Proof.
  induction pre as [|x pre IH]; intros H.
  - simpl. pose proof (split_nonempty sep s).
    destruct (split sep s); [contradiction|reflexivity].
  - inversion H as [|? ? Hx H']; subst.
    simpl. apply N.eqb_neq in Hx. rewrite Hx.
    rewrite (IH H'). reflexivity.
Qed.

Lemma lower_cp_dot : lower_cp DOT = [DOT].
Proof. reflexivity. Qed.

Lemma lower_cp_no_dot (c : N) :
  c <> DOT -> Forall (fun x => x <> DOT) (lower_cp c).
Proof.
  intros Hc. unfold lower_cp, DOT in *.
  destruct ((65 <=? c) && (c <=? 90))%bool eqn:E.
  - apply andb_true_iff in E. destruct E as [E1 E2].
    apply N.leb_le in E1, E2. repeat constructor. lia.
  - destruct (c =? 304); [repeat constructor; discriminate|].
    destruct (c =? 8490); [repeat constructor; discriminate|].
    repeat constructor. exact Hc.
Qed.

(** Lower-casing neither makes nor removes a dot, so it can be done
    before or after the split. *)
Lemma split_lower (s : str) :
  split DOT (lower s) = List.map lower (split DOT s).
Proof.
  induction s as [|c s IH]; [reflexivity|].
  change (lower (c :: s)) with (lower_cp c ++ lower s).
  cbn [split]. destruct (N.eqb_spec c DOT) as [->|Hc].
  - rewrite lower_cp_dot. cbn [app split]. rewrite N.eqb_refl, IH. reflexivity.
  - rewrite (split_app_no_sep DOT (lower_cp c) (lower s) (lower_cp_no_dot c Hc)).
    rewrite IH. pose proof (split_nonempty DOT s).
    destruct (split DOT s) as [|seg segs]; [contradiction|].
    cbn [List.map hd tl]. unfold lower. cbn [flat_map]. reflexivity.
Qed.

Lemma last_map_lower (l : list str) :
  last_item (List.map lower l) = lower (last_item l).
Proof.
  unfold last_item.
  induction l as [|a l IH]; [reflexivity|].
  destruct l as [|b l]; [reflexivity|]. exact IH.
Qed.

(** The extension the handler computes is the last segment of the file
    name, in lower case. *)
Lemma file_extension_of_last_segment (filename : str) :
  file_extension_of filename = lower (last_item (split DOT filename)).
Proof.
  unfold file_extension_of. rewrite split_lower. apply last_map_lower.
Qed.

(** A file name without a dot is its own last segment. *)
Lemma split_no_dot (s : str) :
  Forall (fun x => x <> DOT) s -> split DOT s = [s].
Proof.
  intros H. rewrite <- (app_nil_r s) at 1.
  rewrite (split_app_no_sep DOT s [] H). cbn. rewrite app_nil_r. reflexivity.
Qed.

Lemma str_eqb_eq (a b : str) : str_eqb a b = true <-> a = b.
Proof.
  revert b; induction a as [|x a IH]; intros [|y b]; simpl.
  - split; reflexivity.
  - split; discriminate.
  - split; discriminate.
  - rewrite andb_true_iff, N.eqb_eq, IH.
    split; [intros [-> ->]; reflexivity|intros H; injection H; auto].
Qed.

Lemma str_eqb_neq (a b : str) : a <> b -> str_eqb a b = false.
Proof.
  intros H. destruct (str_eqb a b) eqn:E; [|reflexivity].
  apply str_eqb_eq in E. contradiction.
Qed.

End ExtensionFacts.

(* ================================================================== *)
(** * Validation and dispatch in [extract_document] *)

Definition no_dot (s : str) : bool := forallb (fun x => negb (N.eqb x DOT)) s.

Lemma no_dot_Forall (s : str) :
  no_dot s = true -> Forall (fun x => x <> DOT) s.
Proof.
  unfold no_dot. rewrite forallb_forall, Forall_forall.
  intros H x Hx. specialize (H x Hx).
  apply negb_true_iff, N.eqb_neq in H. exact H.
Qed.

Section DispatchFacts.

Variable PdfReader_open : list byte -> result PdfReader.
Variable Presentation_open : list byte -> result Presentation.
Variable utcnow_isoformat : str.

Lemma extract_document_pdf (file : UploadFile) :
  file_extension_of (upload_filename file) = py "pdf" ->
  extract_document PdfReader_open Presentation_open utcnow_isoformat file
  = if Nat.eqb (List.length (upload_content file)) 0
    then ([], Raised empty_file)
    else ([Call_extract_pdf (upload_content file) (upload_filename file)],
          outcome_of (extract_pdf PdfReader_open utcnow_isoformat
                                  (upload_content file) (upload_filename file))).
Proof. intros H. unfold extract_document. rewrite H. reflexivity. Qed.

Lemma extract_document_pptx (file : UploadFile) :
  file_extension_of (upload_filename file) = py "pptx" ->
  extract_document PdfReader_open Presentation_open utcnow_isoformat file
  = if Nat.eqb (List.length (upload_content file)) 0
    then ([], Raised empty_file)
    else ([Call_extract_pptx (upload_content file) (upload_filename file)],
          outcome_of (extract_pptx Presentation_open utcnow_isoformat
                                   (upload_content file) (upload_filename file))).
Proof. intros H. unfold extract_document. rewrite H. reflexivity. Qed.

Lemma extract_document_unsupported (file : UploadFile) :
  is_supported (file_extension_of (upload_filename file)) = false ->
  extract_document PdfReader_open Presentation_open utcnow_isoformat file
  = ([], Raised unsupported_type).
Proof. intros H. unfold extract_document. rewrite H. reflexivity. Qed.

(** The handler never falls off its end. *)
Lemma extract_document_returns (file : UploadFile) :
  snd (extract_document PdfReader_open Presentation_open utcnow_isoformat file)
  <> ReturnedNone.
Proof.
  unfold extract_document.
  destruct (is_supported (file_extension_of (upload_filename file))) eqn:E;
    [|discriminate].
  cbn [negb]. destruct (Nat.eqb _ 0); [discriminate|].
  apply is_supported_iff in E.
  destruct (str_eqb (file_extension_of (upload_filename file)) (py "pdf")) eqn:E1.
  - unfold extract_pdf. cbn [snd]. destruct (extract_pdf_try _ _ _ _); discriminate.
  - destruct E as [E|E]; [discriminate E|]. rewrite E.
    unfold extract_pptx. cbn [snd]. destruct (extract_pptx_try _ _ _ _); discriminate.
Qed.

(** C9 (amended): the extension is the last segment of the file name
    between dots, compared in lower case.  A file whose segment is pdf
    goes to the PDF extractor and one whose segment is pptx to the
    slide-deck extractor, when its content is not empty; an empty upload
    is rejected with the client error of the empty file and reaches no
    extractor.  Any other segment is rejected with the client error of
    the unsupported type, whatever the content, and no extractor is
    called. *)
Theorem C9_extension_dispatch (file : UploadFile) :
  let segment := lower (last_item (split DOT (upload_filename file))) in
  let content := upload_content file in
  let name := upload_filename file in
  (segment = py "pdf" ->
     extract_document PdfReader_open Presentation_open utcnow_isoformat file
     = if Nat.eqb (List.length content) 0
       then ([], Raised empty_file)
       else ([Call_extract_pdf content name],
             outcome_of (extract_pdf PdfReader_open utcnow_isoformat content name)))
  /\ (segment = py "pptx" ->
     extract_document PdfReader_open Presentation_open utcnow_isoformat file
     = if Nat.eqb (List.length content) 0
       then ([], Raised empty_file)
       else ([Call_extract_pptx content name],
             outcome_of (extract_pptx Presentation_open utcnow_isoformat content name)))
  /\ (segment <> py "pdf" -> segment <> py "pptx" ->
     extract_document PdfReader_open Presentation_open utcnow_isoformat file
     = ([], Raised unsupported_type))
  /\ status_code unsupported_type = 400%Z
  /\ status_code empty_file = 400%Z.
Proof.
  cbv zeta. rewrite <- ExtensionFacts.file_extension_of_last_segment.
  split; [|split; [|split; [|split]]]; try reflexivity.
  - apply extract_document_pdf.
  - apply extract_document_pptx.
  - intros H1 H2. apply extract_document_unsupported.
    unfold is_supported. cbn [existsb].
    rewrite (ExtensionFacts.str_eqb_neq _ _ H1), (ExtensionFacts.str_eqb_neq _ _ H2).
    reflexivity.
Qed.

(** C10: a file name without a dot is its own extension: when it is pdf
    or pptx in lower case the extension check accepts it, the request is
    not answered with the unsupported-type error, and with a content that
    is not empty it reaches the extractor of that type.  The extension is
    checked first: an empty upload with an unsupported extension gets the
    unsupported-type error, which is not the empty-file error. *)
Theorem C10_no_dot_and_check_order (file : UploadFile) :
  let content := upload_content file in
  let name := upload_filename file in
  let answer :=
    extract_document PdfReader_open Presentation_open utcnow_isoformat file in
  (no_dot name = true -> lower name = py "pdf" ->
     is_supported (file_extension_of name) = true
     /\ snd answer <> Raised unsupported_type
     /\ (List.length content <> 0 ->
         answer = ([Call_extract_pdf content name],
                   outcome_of (extract_pdf PdfReader_open utcnow_isoformat
                                           content name))))
  /\ (no_dot name = true -> lower name = py "pptx" ->
     is_supported (file_extension_of name) = true
     /\ snd answer <> Raised unsupported_type
     /\ (List.length content <> 0 ->
         answer = ([Call_extract_pptx content name],
                   outcome_of (extract_pptx Presentation_open utcnow_isoformat
                                            content name))))
  /\ (is_supported (file_extension_of name) = false ->
      List.length content = 0 ->
      answer = ([], Raised unsupported_type)
      /\ answer <> ([], Raised empty_file)).
Proof.
  cbv zeta.
  assert (Hext : no_dot (upload_filename file) = true ->
                 file_extension_of (upload_filename file)
                 = lower (upload_filename file)).
  { intros Hd. rewrite ExtensionFacts.file_extension_of_last_segment.
    rewrite (ExtensionFacts.split_no_dot _ (no_dot_Forall _ Hd)). reflexivity. }
  split; [|split].
  - intros Hd Hl. rewrite <- (Hext Hd) in Hl.
    rewrite (extract_document_pdf _ Hl), Hl.
    split; [reflexivity|]. split.
    + destruct (Nat.eqb _ 0); [discriminate|]. cbn [snd].
      unfold extract_pdf. destruct (extract_pdf_try _ _ _ _); discriminate.
    + intros Hne. apply Nat.eqb_neq in Hne. rewrite Hne. reflexivity.
  - intros Hd Hl. rewrite <- (Hext Hd) in Hl.
    rewrite (extract_document_pptx _ Hl), Hl.
    split; [reflexivity|]. split.
    + destruct (Nat.eqb _ 0); [discriminate|]. cbn [snd].
      unfold extract_pptx. destruct (extract_pptx_try _ _ _ _); discriminate.
    + intros Hne. apply Nat.eqb_neq in Hne. rewrite Hne. reflexivity.
  - intros Hu _. rewrite (extract_document_unsupported _ Hu).
    split; [reflexivity|discriminate].
Qed.

End DispatchFacts.

Definition pdf_bytes : list byte := ["%"%byte; "P"%byte; "D"%byte; "F"%byte].

Definition clock : str := py "2024-05-01T10:00:00".

Definition upload (name : string) (content : list byte) : UploadFile :=
  {| upload_filename := py name; upload_content := content |}.

Lemma C9_extension_dispatch_witness :
  fst (extract_document (reads_as two_page_reader) refuses clock
         (upload "report.v2.PDF" pdf_bytes))
    = [Call_extract_pdf pdf_bytes (py "report.v2.PDF")]
  /\ fst (extract_document (reads_as two_page_reader) refuses clock
            (upload "deck.PpTx" pdf_bytes))
    = [Call_extract_pptx pdf_bytes (py "deck.PpTx")]
  /\ extract_document (reads_as two_page_reader) refuses clock
       (upload "notes.pdf.txt" pdf_bytes)
    = ([], Raised unsupported_type).
Proof.
  split; [|split].
  - rewrite (proj1 (C9_extension_dispatch (reads_as two_page_reader) refuses clock
                      (upload "report.v2.PDF" pdf_bytes)) eq_refl).
    reflexivity.
  - rewrite (proj1 (proj2 (C9_extension_dispatch (reads_as two_page_reader)
                             refuses clock (upload "deck.PpTx" pdf_bytes)))
               eq_refl).
    reflexivity.
  - apply (proj1 (proj2 (proj2 (C9_extension_dispatch (reads_as two_page_reader)
                                  refuses clock
                                  (upload "notes.pdf.txt" pdf_bytes))))).
    + vm_compute. discriminate.
    + vm_compute. discriminate.
Defined.

(** C9, as stated, fails: the last segment of [a.pdf] is pdf, the parser
    would read the file, and yet an upload of that name without content
    is not handed to the PDF extractor; it is rejected as an empty file. *)
Lemma C9_empty_upload_counterexample :
  lower (last_item (split DOT (py "a.pdf"))) = py "pdf"
  /\ extract_document (reads_as two_page_reader) refuses clock (upload "a.pdf" [])
     = ([], Raised empty_file)
  /\ fst (extract_document (reads_as two_page_reader) refuses clock
            (upload "a.pdf" []))
     <> [Call_extract_pdf [] (py "a.pdf")].
Proof.
  split; [reflexivity|]. split; [reflexivity|]. vm_compute. discriminate.
Qed.

Lemma C10_no_dot_and_check_order_witness :
  extract_document (reads_as two_page_reader) refuses clock (upload "PDF" pdf_bytes)
    = ([Call_extract_pdf pdf_bytes (py "PDF")],
       outcome_of (extract_pdf (reads_as two_page_reader) clock pdf_bytes (py "PDF")))
  /\ extract_document (reads_as two_page_reader) refuses clock
       (upload "pptx" pdf_bytes)
    = ([Call_extract_pptx pdf_bytes (py "pptx")],
       outcome_of (extract_pptx refuses clock pdf_bytes (py "pptx")))
  /\ extract_document (reads_as two_page_reader) refuses clock (upload "notes.txt" [])
    = ([], Raised unsupported_type).
Proof.
  split; [|split].
  - apply (proj1 (C10_no_dot_and_check_order (reads_as two_page_reader) refuses
                    clock (upload "PDF" pdf_bytes)) eq_refl eq_refl).
    vm_compute. discriminate.
  - apply (proj1 (proj2 (C10_no_dot_and_check_order (reads_as two_page_reader)
                           refuses clock (upload "pptx" pdf_bytes)))
             eq_refl eq_refl).
    vm_compute. discriminate.
  - apply (proj2 (proj2 (C10_no_dot_and_check_order (reads_as two_page_reader)
                           refuses clock (upload "notes.txt" [])))
             eq_refl eq_refl).
Defined.

(* ================================================================== *)
(** * The content hash *)

Module HashFacts.
Import Sha256.
Local Open Scope N_scope.

Definition is_lower_hex (c : N) : bool :=
  ((48 <=? c) && (c <=? 57)) || ((97 <=? c) && (c <=? 102)).

Lemma nibble_bound (x : N) : N.land x 15 < 16.
Proof.
  change 15 with (N.ones 4). rewrite N.land_ones.
  apply N.mod_lt. discriminate.
Qed.

Lemma hex_digit_lower (x : N) : x < 16 -> is_lower_hex (hex_digit x) = true.
Proof.
  intros H. unfold hex_digit, is_lower_hex.
  destruct (N.ltb_spec x 10).
  - apply orb_true_iff. left. apply andb_true_iff.
    split; apply N.leb_le; lia.
  - apply orb_true_iff. right. apply andb_true_iff.
    split; apply N.leb_le; lia.
Qed.

Lemma hex_of_byte_lower (b : N) : forallb is_lower_hex (hex_of_byte b) = true.
Proof.
  unfold hex_of_byte. cbn [forallb].
  rewrite !hex_digit_lower by apply nibble_bound. reflexivity.
Qed.

Lemma hexdigest_lower (content : list byte) :
  forallb is_lower_hex (hexdigest content) = true.
Proof.
  unfold hexdigest. induction (digest content) as [|b bs IH]; [reflexivity|].
  cbn [flat_map]. rewrite forallb_app, hex_of_byte_lower, IH. reflexivity.
Qed.

Lemma hexdigest_length (content : list byte) :
  List.length (hexdigest content) = 64%nat.
Proof.
  unfold hexdigest, digest.
  destruct (chain _). reflexivity.
Qed.

(** The hash object, fed byte by byte, computes the digest of the
    standard. *)
Lemma update_byte_eq (h : hash) (pend : list N) (b : N) :
  update_byte (Ctx h pend) b
  = if Nat.eqb (S (List.length pend)) 64
    then Ctx (compress h (rev (b :: pend))) []
    else Ctx h (b :: pend).
Proof. reflexivity. Qed.

Lemma update_block (h : hash) : forall blk pend,
  blk <> [] ->
  (List.length pend + List.length blk = 64)%nat ->
  fold_left update_byte blk (Ctx h pend) = Ctx (compress h (rev pend ++ blk)) [].
Proof.
  induction blk as [|b blk IH]; intros pend Hne Hlen; [contradiction Hne; reflexivity|].
  cbn [fold_left]. rewrite update_byte_eq.
  destruct blk as [|b' blk'].
  - cbn [List.length] in Hlen.
    replace (S (List.length pend)) with 64%nat by lia.
    reflexivity.
  - cbn [List.length] in Hlen.
    destruct (Nat.eqb_spec (S (List.length pend)) 64) as [E|E]; [lia|].
    rewrite (IH (b :: pend)); [|discriminate|cbn [List.length]; lia].
    cbn [rev]. rewrite <- app_assoc. reflexivity.
Qed.

Lemma update_blocks : forall n bs h,
  List.length bs = (64 * n)%nat ->
  fold_left update_byte bs (Ctx h []) = Ctx (fold_left compress (fips_blocks n bs) h) [].
Proof.
  induction n as [|n IH]; intros bs h Hlen.
  - destruct bs; [reflexivity|discriminate Hlen].
  - rewrite <- (firstn_skipn 64 bs) at 1. rewrite fold_left_app.
    rewrite (update_block h (firstn 64 bs) []).
    + cbn [rev app fips_blocks fold_left]. apply IH.
      rewrite length_skipn. lia.
    + intros E. apply (f_equal (@List.length N)) in E.
      rewrite length_firstn in E. cbn [List.length] in E. lia.
    + rewrite length_firstn. cbn [List.length]. lia.
Qed.

Lemma zero_bytes_unique (len k : nat) :
  (k < 64)%nat -> Nat.modulo (len + 1 + k) 64 = 56%nat ->
  k = Nat.modulo (119 - Nat.modulo len 64) 64.
Proof.
  intros Hk H.
  pose proof (Nat.div_mod_eq len 64).
  pose proof (Nat.mod_upper_bound len 64 ltac:(discriminate)).
  pose proof (Nat.div_mod_eq (len + 1 + k) 64).
  pose proof (Nat.div_mod_eq (119 - len mod 64) 64).
  pose proof (Nat.mod_upper_bound (119 - len mod 64) 64 ltac:(discriminate)).
  lia.
Qed.

Lemma zero_bytes_exists (len : nat) :
  let k := Nat.modulo (119 - Nat.modulo len 64) 64 in
  (k < 64)%nat /\ Nat.modulo (len + 1 + k) 64 = 56%nat.
Proof.
  cbv zeta.
  pose proof (Nat.div_mod_eq len 64).
  pose proof (Nat.mod_upper_bound len 64 ltac:(discriminate)).
  pose proof (Nat.div_mod_eq (119 - len mod 64) 64).
  pose proof (Nat.mod_upper_bound (119 - len mod 64) 64 ltac:(discriminate)).
  split; [assumption|].
  pose proof (Nat.div_mod_eq (len + 1 + (119 - len mod 64) mod 64) 64).
  pose proof (Nat.mod_upper_bound (len + 1 + (119 - len mod 64) mod 64) 64
                ltac:(discriminate)).
  lia.
Qed.

Lemma fips_zero_bytes_eq (len : nat) :
  fips_zero_bytes len = Nat.modulo (119 - Nat.modulo len 64) 64.
Proof.
  unfold fips_zero_bytes.
  destruct (zero_bytes_exists len) as [Hk Hm].
  destruct (find _ (seq 0 64)) as [k|] eqn:E.
  - apply find_some in E. destruct E as [Hin Hf].
    apply in_seq in Hin. apply Nat.eqb_eq in Hf.
    apply zero_bytes_unique; [lia|exact Hf].
  - assert (Hin : In (Nat.modulo (119 - Nat.modulo len 64) 64) (seq 0 64))
      by (apply in_seq; lia).
    pose proof (find_none _ _ E _ Hin) as Hf. cbv beta in Hf.
    apply Nat.eqb_neq in Hf. contradiction.
Qed.

Lemma fips_padded_eq (msg : list N) :
  fips_padded msg = msg ++ padding (List.length msg).
Proof.
  unfold fips_padded, padding. rewrite fips_zero_bytes_eq.
  change 0xffffffffffffffff with (N.ones 64). rewrite N.land_ones.
  reflexivity.
Qed.

Lemma padded_length (len : nat) :
  exists n, (len + List.length (padding len) = 64 * n)%nat.
Proof.
  unfold padding, be_bytes. cbn [List.length].
  rewrite length_app, repeat_length, length_map, length_rev, length_seq.
  destruct (zero_bytes_exists len) as [Hk Hm].
  exists (S (Nat.div (len + 1 + Nat.modulo (119 - Nat.modulo len 64) 64) 64)).
  pose proof (Nat.div_mod_eq (len + 1 + Nat.modulo (119 - Nat.modulo len 64) 64) 64).
  lia.
Qed.

Lemma digest_fips (content : list byte) : digest content = fips_digest content.
Proof.
  unfold digest, fips_digest. cbv zeta. rewrite fips_padded_eq.
  set (msg := List.map Byte.to_N content).
  destruct (padded_length (List.length msg)) as [n Hn].
  assert (Hlen : List.length (msg ++ padding (List.length msg)) = (64 * n)%nat)
    by (rewrite length_app; exact Hn).
  rewrite (update_blocks n _ H0 Hlen). cbn [chain].
  rewrite Hlen. rewrite Nat.mul_comm, Nat.div_mul by discriminate.
  reflexivity.
Qed.

(** The model of SHA-256 on the test vectors of the standard: the
    message [abc], and a message of 56 bytes, which takes two blocks. *)
Example sha256_abc :
  hexdigest (list_byte_of_string "abc")
  = py "ba7816bf8f01cfea414140de5dae2223b00361a396177a9cb410ff61f20015ad".
Proof. vm_compute. reflexivity. Qed.

Example sha256_two_blocks :
  hexdigest (list_byte_of_string
               "abcdbcdecdefdefgefghfghighijhijkijkljklmklmnlmnomnopnopq")
  = py "248d6a61d20638b8e5c026930c3e6039a33ce45964ff2167f6ecedd419db06c1".
Proof. vm_compute. reflexivity. Qed.

End HashFacts.

Lemma extract_pdf_file_hash PdfReader_open now content name r :
  extract_pdf PdfReader_open now content name = inr r ->
  file_hash r = calculate_file_hash content.
Proof.
  unfold extract_pdf, extract_pdf_try.
  destruct (PdfReader_open content) as [reader|e]; [|discriminate].
  cbn [bind]. destruct (pdf_pages_loop _ _ _); [|discriminate].
  cbn [bind]. intros H. injection H as <-. reflexivity.
Qed.

Lemma extract_pptx_file_hash Presentation_open now content name r :
  extract_pptx Presentation_open now content name = inr r ->
  file_hash r = calculate_file_hash content.
Proof.
  unfold extract_pptx, extract_pptx_try.
  destruct (Presentation_open content) as [presentation|e]; [|discriminate].
  cbn [bind]. destruct (slides_loop _ _ _ _).
  intros H. injection H as <-. reflexivity.
Qed.

(** Every response of [extract_document] carries the hash of the
    uploaded bytes. *)
Lemma extract_document_file_hash PdfReader_open Presentation_open now file calls r :
  extract_document PdfReader_open Presentation_open now file = (calls, Returned r) ->
  file_hash r = calculate_file_hash (upload_content file).
Proof.
  unfold extract_document.
  destruct (negb _); [discriminate|].
  destruct (Nat.eqb _ 0); [discriminate|].
  destruct (str_eqb _ (py "pdf")).
  - intros H. injection H as _ H. unfold outcome_of in H.
    destruct (extract_pdf _ _ _ _) eqn:E; [discriminate|].
    injection H as <-. eapply extract_pdf_file_hash; eauto.
  - destruct (str_eqb _ (py "pptx")); [|discriminate].
    intros H. injection H as _ H. unfold outcome_of in H.
    destruct (extract_pptx _ _ _ _) eqn:E; [discriminate|].
    injection H as <-. eapply extract_pptx_file_hash; eauto.
Qed.

(** The test messages of the standard and of its examples: three
    bytes, 56 bytes (two blocks) and 112 bytes (two blocks, the second
    with the padding alone after the end of the message). *)
Definition message_abc : list byte := list_byte_of_string "abc".

Definition message_56 : list byte :=
  list_byte_of_string "abcdbcdecdefdefgefghfghighijhijkijkljklmklmnlmnomnopnopq".

Definition message_112 : list byte :=
  list_byte_of_string
    ("abcdefghbcdefghicdefghijdefghijkefghijklfghijklmghijklmn"
     ++ "hijklmnoijklmnopjklmnopqklmnopqrlmnopqrsmnopqrstnopqrstu").

(** C6: the content hasher is a function of the bytes alone, defined
    on every byte sequence, the empty one included: its value is the
    SHA-256 digest of the bytes written as 64 lower-case hexadecimal
    digits.  The digest is that of the standard: the hash object that
    takes the bytes one by one computes, on every byte sequence, what the
    standard prescribes for the padded message block by block, and on the
    empty message and on the test messages of 3, 56 and 112 bytes the
    hasher gives the published digests.  Hence two extraction requests
    with the same bytes, under whatever file names, at whatever times and
    whatever the parsers make of the bytes, answer with the same file
    hash. *)
Theorem C6_content_hash
    (content : list byte)
    (PdfReader_open1 PdfReader_open2 : list byte -> result PdfReader)
    (Presentation_open1 Presentation_open2 : list byte -> result Presentation)
    (now1 now2 name1 name2 : str)
    (calls1 calls2 : list call) (r1 r2 : DocumentResponse) :
  (calculate_file_hash content = Sha256.hexdigest content
   /\ Sha256.hexdigest content
      = flat_map Sha256.hex_of_byte (Sha256.fips_digest content)
   /\ List.length (calculate_file_hash content) = 64
   /\ forallb HashFacts.is_lower_hex (calculate_file_hash content) = true)
  /\ (calculate_file_hash []
      = py "e3b0c44298fc1c149afbf4c8996fb92427ae41e4649b934ca495991b7852b855"
      /\ calculate_file_hash message_abc
         = py "ba7816bf8f01cfea414140de5dae2223b00361a396177a9cb410ff61f20015ad"
      /\ calculate_file_hash message_56
         = py "248d6a61d20638b8e5c026930c3e6039a33ce45964ff2167f6ecedd419db06c1"
      /\ calculate_file_hash message_112
         = py "cf5b16a778af8380036ce59e7b0492370b249b11e8f07a51afac45037afee9d1")
  /\ (extract_document PdfReader_open1 Presentation_open1 now1
        {| upload_filename := name1; upload_content := content |}
      = (calls1, Returned r1) ->
      extract_document PdfReader_open2 Presentation_open2 now2
        {| upload_filename := name2; upload_content := content |}
      = (calls2, Returned r2) ->
      file_hash r1 = calculate_file_hash content
      /\ file_hash r2 = file_hash r1).
Proof.
  split; [|split].
  - split; [reflexivity|]. split; [|split].
    + unfold Sha256.hexdigest. rewrite HashFacts.digest_fips. reflexivity.
    + apply HashFacts.hexdigest_length.
    + apply HashFacts.hexdigest_lower.
  - split; [|split; [|split]]; vm_compute; reflexivity.
  - intros H1 H2.
    apply extract_document_file_hash in H1, H2.
    cbn [upload_content] in H1, H2.
    split; [exact H1|rewrite H1; exact H2].
Qed.

Definition two_page_response (name : string) (now : str) : DocumentResponse :=
  {| success := true;
     filename := py name;
     file_type := py "pdf";
     text_content := pagina_text;
     metadata := [(py "num_pages", VInt 2); (py "pdf_metadata", VDict [])];
     extracted_at := now;
     file_hash := calculate_file_hash pdf_bytes |}.

Lemma C6_content_hash_witness :
  file_hash (two_page_response "a.pdf" clock) = calculate_file_hash pdf_bytes
  /\ file_hash (two_page_response "other name.PDF" (py "2025-01-01T00:00:00"))
     = file_hash (two_page_response "a.pdf" clock).
Proof.
  apply (proj2 (proj2 (C6_content_hash pdf_bytes
           (reads_as two_page_reader) (reads_as two_page_reader) refuses refuses
           clock (py "2025-01-01T00:00:00") (py "a.pdf") (py "other name.PDF")
           [Call_extract_pdf pdf_bytes (py "a.pdf")]
           [Call_extract_pdf pdf_bytes (py "other name.PDF")]
           (two_page_response "a.pdf" clock)
           (two_page_response "other name.PDF" (py "2025-01-01T00:00:00")))));
    vm_compute; reflexivity.
Defined.

(* ================================================================== *)
(** * Further properties: [strip] *)

Module StripFacts.
Import ReFacts.

Lemma lstrip_starts (s : str) : starts_nonspace (lstrip s) = true.
Proof.
  induction s as [|c s IH]; [reflexivity|]. simpl.
  destruct (isspace c) eqn:E; [exact IH|]. simpl. rewrite E. reflexivity.
Qed.

Lemma lstrip_id (s : str) : starts_nonspace s = true -> lstrip s = s.
Proof.
  destruct s as [|c s]; [reflexivity|]. simpl.
  destruct (isspace c); [discriminate|reflexivity].
Qed.

(** [lstrip] only removes a prefix. *)
Lemma lstrip_suffix (s : str) : exists w, s = w ++ lstrip s.
Proof.
  induction s as [|c s [w IH]]; [exists []; reflexivity|]. simpl.
  destruct (isspace c).
  - exists (c :: w). simpl. rewrite <- IH. reflexivity.
  - exists []. reflexivity.
Qed.

(** [rstrip] only removes a suffix. *)
Lemma rstrip_prefix (s : str) : exists w, s = rstrip s ++ w.
Proof.
  unfold rstrip. destruct (lstrip_suffix (rev s)) as [w H].
  exists (rev w). rewrite <- rev_app_distr, <- H, rev_involutive. reflexivity.
Qed.

Lemma rstrip_ends (s : str) : ends_nonspace (rstrip s) = true.
Proof.
  unfold rstrip. apply ends_nonspace_rev.
  rewrite rev_involutive. apply lstrip_starts.
Qed.

Lemma rstrip_id (s : str) : ends_nonspace s = true -> rstrip s = s.
Proof.
  intros H. unfold rstrip.
  rewrite lstrip_id; [apply rev_involutive|].
  rewrite <- (rev_involutive s) in H.
  destruct (rev s) as [|x t]; [reflexivity|].
  simpl rev in H. rewrite ends_nonspace_snoc in H. exact H.
Qed.

Lemma rstrip_starts (s : str) :
  starts_nonspace s = true -> starts_nonspace (rstrip s) = true.
Proof.
  intros H. destruct (rstrip_prefix s) as [w E].
  destruct (rstrip s) as [|x t]; [reflexivity|].
  rewrite E in H. exact H.
Qed.

(** A string without white space at its ends is left as it is. *)
Lemma strip_id (s : str) :
  starts_nonspace s = true -> ends_nonspace s = true -> strip s = s.
Proof.
  intros Hs He. unfold strip. rewrite (lstrip_id s Hs). apply rstrip_id, He.
Qed.

Lemma strip_starts (s : str) : starts_nonspace (strip s) = true.
Proof. unfold strip. apply rstrip_starts, lstrip_starts. Qed.

Lemma strip_ends (s : str) : ends_nonspace (strip s) = true.
Proof. unfold strip. apply rstrip_ends. Qed.

(** Stripping twice is stripping once. *)
Lemma strip_idempotent (s : str) : strip (strip s) = strip s.
Proof. apply strip_id; [apply strip_starts|apply strip_ends]. Qed.

End StripFacts.

(* ================================================================== *)
(** * Further properties of the extractors *)

(** The text written for the pages whose texts are [texts], the first
    of them being page [page_num + 1]. *)
Fixpoint pages_text (page_num : nat) (texts : list str) : str :=
  match texts with
  | [] => []
  | t :: ts => page_separator (page_num + 1) ++ t ++ pages_text (S page_num) ts
  end.

(** The lines written for the shapes of a slide: the text of every
    shape that has a text which is not empty, followed by a line break. *)
Definition shape_lines (shs : list Shape) : str :=
  flat_map (fun shape =>
              match shape_text shape with
              | Some (c :: t) => (c :: t) ++ [NEWLINE]
              | _ => []
              end) shs.

(** The text written for the slides [sls], the first being slide
    [slide_num]. *)
Fixpoint slides_text (slide_num : nat) (sls : list Slide) : str :=
  match sls with
  | [] => []
  | slide :: rest =>
      slide_separator slide_num ++ shape_lines (shapes slide)
      ++ slides_text (S slide_num) rest
  end.

(** A shape without text. *)
Definition textless (shape : Shape) : bool :=
  match shape_text shape with
  | Some (_ :: _) => false
  | _ => true
  end.

Lemma pdf_pages_loop_ok (ps : list PageObject) : forall texts page_num acc,
  List.map extract_text ps = List.map (@Ok str) texts ->
  pdf_pages_loop ps page_num acc = Ok (acc ++ pages_text page_num texts).
Proof.
  induction ps as [|p ps IH]; intros texts k acc H.
  - destruct texts; [|discriminate H]. simpl. rewrite app_nil_r. reflexivity.
  - destruct texts as [|t ts]; [discriminate H|].
    simpl in H. injection H as Hp Hps.
    cbn [pdf_pages_loop]. rewrite Hp. cbn [bind].
    rewrite (IH ts (S k) _ Hps). cbn [pages_text].
    rewrite <- !app_assoc. reflexivity.
Qed.

Lemma pdf_pages_loop_raise (ps1 : list PageObject) :
  forall texts p ps2 e page_num acc,
  List.map extract_text ps1 = List.map (@Ok str) texts ->
  extract_text p = Raise e ->
  pdf_pages_loop (ps1 ++ p :: ps2) page_num acc = Raise e.
Proof.
  induction ps1 as [|q ps1 IH]; intros texts p ps2 e k acc H Hp.
  - simpl. rewrite Hp. reflexivity.
  - destruct texts as [|t ts]; [discriminate H|].
    simpl in H. injection H as Hq Hps.
    simpl app. cbn [pdf_pages_loop]. rewrite Hq. cbn [bind].
    apply (IH ts); assumption.
Qed.

Lemma shapes_loop_spec (shs : list Shape) : forall slide_text,
  shapes_loop shs slide_text = slide_text ++ shape_lines shs.
Proof.
  induction shs as [|sh shs IH]; intros acc.
  - simpl. rewrite app_nil_r. reflexivity.
  - cbn [shapes_loop]. unfold shape_lines. cbn [flat_map].
    fold (shape_lines shs).
    destruct (shape_text sh) as [[|c t]|]; rewrite IH.
    + reflexivity.
    + rewrite <- !app_assoc. reflexivity.
    + reflexivity.
Qed.

Lemma slides_loop_spec (sls : list Slide) : forall slide_num acc slide_count,
  slides_loop sls slide_num acc slide_count
  = (acc ++ slides_text slide_num sls, slide_count + List.length sls).
Proof.
  induction sls as [|sl sls IH]; intros n acc cnt.
  - simpl. rewrite app_nil_r, Nat.add_0_r. reflexivity.
  - cbn [slides_loop]. rewrite IH, shapes_loop_spec. cbn [slides_text].
    rewrite <- !app_assoc. cbn [List.length].
    rewrite Nat.add_succ_r. reflexivity.
Qed.

Lemma shape_lines_textless (shs : list Shape) :
  forallb textless shs = true -> shape_lines shs = [].
Proof.
  induction shs as [|sh shs IH]; intros H; [reflexivity|].
  cbn [forallb] in H. apply andb_true_iff in H. destruct H as [Hsh H].
  unfold shape_lines. cbn [flat_map]. fold (shape_lines shs).
  rewrite (IH H). unfold textless in Hsh.
  destruct (shape_text sh) as [[|c t]|]; [reflexivity|discriminate|reflexivity].
Qed.

Lemma slides_text_textless (sls : list Slide) : forall slide_num,
  forallb (fun slide => forallb textless (shapes slide)) sls = true ->
  slides_text slide_num sls
  = flat_map slide_separator (seq slide_num (List.length sls)).
Proof.
  induction sls as [|sl sls IH]; intros n H; [reflexivity|].
  cbn [forallb] in H. apply andb_true_iff in H. destruct H as [Hsl H].
  cbn [slides_text List.length seq flat_map].
  rewrite (shape_lines_textless _ Hsl), (IH (S n) H). reflexivity.
Qed.

Section MoreExtractorFacts.

Variable PdfReader_open : list byte -> result PdfReader.
Variable Presentation_open : list byte -> result Presentation.
Variable utcnow_isoformat : str.

(** X1: when every page of a parsed PDF yields its text, the extractor
    answers; the text content is the trimmed concatenation, in page
    order, of a separator numbered from 1 and the text of each page, and
    [num_pages] is the number of pages. *)
Theorem extract_pdf_all_pages
    (file_content : list byte) (filename : str)
    (reader : PdfReader) (texts : list str) :
  PdfReader_open file_content = Ok reader ->
  List.map extract_text (pages reader) = List.map (@Ok str) texts ->
  exists r,
    extract_pdf PdfReader_open utcnow_isoformat file_content filename = inr r
    /\ text_content r = strip (pages_text 0 texts)
    /\ Json.dict_get (metadata r) (py "num_pages")
       = Some (VInt (Z.of_nat (List.length texts))).
Proof.
  intros Hopen Hpages.
  unfold extract_pdf, extract_pdf_try. rewrite Hopen. cbn [bind].
  rewrite (pdf_pages_loop_ok _ texts 0 [] Hpages). cbn [bind].
  eexists. split; [reflexivity|]. split; [reflexivity|].
  cbn. rewrite <- (length_map extract_text), Hpages, length_map. reflexivity.
Qed.

(** X2: a PDF that the parser refuses, and a PDF one of whose pages
    fails to yield its text after the pages before it did, are both
    answered with the client error of the PDF extractor, which carries the
    exception of the parser or of the first failing page; no response is
    built. *)
Theorem extract_pdf_failure
    (file_content : list byte) (filename : str) (e : exn) :
  (PdfReader_open file_content = Raise e ->
   extract_pdf PdfReader_open utcnow_isoformat file_content filename
   = inl {| status_code := 400; detail := "Erro ao processar PDF: ";
            detail_exn := Some e |})
  /\ (forall reader ps1 p ps2 texts,
        PdfReader_open file_content = Ok reader ->
        pages reader = ps1 ++ p :: ps2 ->
        List.map extract_text ps1 = List.map (@Ok str) texts ->
        extract_text p = Raise e ->
        extract_pdf PdfReader_open utcnow_isoformat file_content filename
        = inl {| status_code := 400; detail := "Erro ao processar PDF: ";
                 detail_exn := Some e |}).
Proof.
  split.
  - intros H. unfold extract_pdf, extract_pdf_try. rewrite H. reflexivity.
  - intros reader ps1 p ps2 texts Hopen Hpages Hps1 Hp.
    unfold extract_pdf, extract_pdf_try. rewrite Hopen. cbn [bind].
    rewrite Hpages, (pdf_pages_loop_raise ps1 texts p ps2 e 0 [] Hps1 Hp).
    reflexivity.
Qed.

Lemma extract_pptx_response
    (file_content : list byte) (filename : str) (presentation : Presentation) :
  Presentation_open file_content = Ok presentation ->
  exists r,
    extract_pptx Presentation_open utcnow_isoformat file_content filename = inr r
    /\ file_type r = py "pptx"
    /\ text_content r = strip (slides_text 1 (slides presentation))
    /\ Json.dict_get (metadata r) (py "num_slides")
       = Some (VInt (Z.of_nat (List.length (slides presentation)))).
Proof.
  intros Hopen.
  unfold extract_pptx, extract_pptx_try. rewrite Hopen. cbn [bind].
  rewrite slides_loop_spec. eexists. split; [reflexivity|].
  split; [reflexivity|]. split; reflexivity.
Qed.

(** X3: the slide-deck extractor fails only in the parser.  A deck
    that parses always gets a response, of type pptx, whose [num_slides]
    is the number of slides and whose text content is the trimmed
    concatenation, in slide order, of a separator numbered from 1 and the
    lines of the shapes of each slide; a deck that the parser refuses is
    answered with the client error of the slide-deck extractor. *)
Theorem extract_pptx_parsed
    (file_content : list byte) (filename : str) :
  (forall presentation,
     Presentation_open file_content = Ok presentation ->
     exists r,
       extract_pptx Presentation_open utcnow_isoformat file_content filename
       = inr r
       /\ file_type r = py "pptx"
       /\ text_content r = strip (slides_text 1 (slides presentation))
       /\ Json.dict_get (metadata r) (py "num_slides")
          = Some (VInt (Z.of_nat (List.length (slides presentation)))))
  /\ (forall e,
        Presentation_open file_content = Raise e ->
        extract_pptx Presentation_open utcnow_isoformat file_content filename
        = inl {| status_code := 400; detail := "Erro ao processar PPTX: ";
                 detail_exn := Some e |}).
Proof.
  split.
  - apply extract_pptx_response.
  - intros e H. unfold extract_pptx, extract_pptx_try. rewrite H. reflexivity.
Qed.

(** X4: a deck none of whose shapes bears text gives a text content
    made of the slide separators only, trimmed. *)
Theorem extract_pptx_textless
    (file_content : list byte) (filename : str) (presentation : Presentation) :
  Presentation_open file_content = Ok presentation ->
  forallb (fun slide => forallb textless (shapes slide)) (slides presentation)
    = true ->
  exists r,
    extract_pptx Presentation_open utcnow_isoformat file_content filename = inr r
    /\ text_content r
       = strip (flat_map slide_separator
                         (seq 1 (List.length (slides presentation)))).
Proof.
  intros Hopen Hless.
  destruct (extract_pptx_response file_content filename _ Hopen)
    as [r [Hr [_ [Ht _]]]].
  exists r. split; [exact Hr|].
  rewrite Ht, (slides_text_textless _ 1 Hless). reflexivity.
Qed.

End MoreExtractorFacts.

Definition three_page_reader : PdfReader :=
  {| pages := [page_with "one"; page_with ""; page_with "three"];
     pdf_info := Some [(py "/Title", py "Report")] |}.

Definition failing_reader : PdfReader :=
  {| pages := [page_with "one";
               {| extract_text := Raise (LibraryError (py "bad stream")) |};
               page_with "three"];
     pdf_info := None |}.

Definition no_properties : CoreProperties :=
  {| cp_title := None; cp_author := None; cp_subject := None;
     cp_keywords := None; cp_comments := None; cp_category := None;
     cp_created := None; cp_modified := None; cp_last_modified_by := None |}.

Definition shape_with (s : string) : Shape := {| shape_text := Some (py s) |}.

Definition picture : Shape := {| shape_text := None |}.

Definition titled_deck : Presentation :=
  {| slides := [ {| shapes := [shape_with "Title"; picture; shape_with ""] |};
                 {| shapes := [] |} ];
     slide_width := Some 9144000%Z;
     slide_height := Some 6858000%Z;
     core_properties := no_properties |}.

Definition picture_deck : Presentation :=
  {| slides := [ {| shapes := [picture] |}; {| shapes := [shape_with ""] |};
                 {| shapes := [] |} ];
     slide_width := None;
     slide_height := None;
     core_properties := no_properties |}.

Lemma extract_pdf_all_pages_witness :
  exists r,
    extract_pdf (reads_as three_page_reader) clock pdf_bytes (py "r.pdf") = inr r
    /\ text_content r = strip (pages_text 0 [py "one"; py ""; py "three"])
    /\ Json.dict_get (metadata r) (py "num_pages") = Some (VInt 3).
Proof.
  apply (extract_pdf_all_pages (reads_as three_page_reader) clock pdf_bytes
           (py "r.pdf") three_page_reader [py "one"; py ""; py "three"]);
    reflexivity.
Defined.

Lemma extract_pdf_failure_witness :
  extract_pdf refuses clock pdf_bytes (py "r.pdf")
    = inl {| status_code := 400; detail := "Erro ao processar PDF: ";
             detail_exn := Some (LibraryError (py "not a document")) |}
  /\ extract_pdf (reads_as failing_reader) clock pdf_bytes (py "r.pdf")
    = inl {| status_code := 400; detail := "Erro ao processar PDF: ";
             detail_exn := Some (LibraryError (py "bad stream")) |}.
Proof.
  split.
  - apply (proj1 (extract_pdf_failure refuses clock pdf_bytes (py "r.pdf")
                    (LibraryError (py "not a document")))).
    reflexivity.
  - apply (proj2 (extract_pdf_failure (reads_as failing_reader) clock pdf_bytes
                    (py "r.pdf") (LibraryError (py "bad stream")))
             failing_reader [page_with "one"]
             {| extract_text := Raise (LibraryError (py "bad stream")) |}
             [page_with "three"] [py "one"]);
      reflexivity.
Defined.

Lemma extract_pptx_parsed_witness :
  (exists r,
     extract_pptx (reads_as titled_deck) clock pdf_bytes (py "d.pptx") = inr r
     /\ file_type r = py "pptx"
     /\ text_content r = strip (slides_text 1 (slides titled_deck))
     /\ Json.dict_get (metadata r) (py "num_slides") = Some (VInt 2))
  /\ extract_pptx refuses clock pdf_bytes (py "d.pptx")
     = inl {| status_code := 400; detail := "Erro ao processar PPTX: ";
              detail_exn := Some (LibraryError (py "not a document")) |}.
Proof.
  split.
  - apply (proj1 (extract_pptx_parsed (reads_as titled_deck) clock pdf_bytes
                    (py "d.pptx")) titled_deck).
    reflexivity.
  - apply (proj2 (extract_pptx_parsed refuses clock pdf_bytes (py "d.pptx"))
             (LibraryError (py "not a document"))).
    reflexivity.
Defined.

Lemma extract_pptx_textless_witness :
  exists r,
    extract_pptx (reads_as picture_deck) clock pdf_bytes (py "d.pptx") = inr r
    /\ text_content r = strip (flat_map slide_separator (seq 1 3)).
Proof.
  apply (extract_pptx_textless (reads_as picture_deck) clock pdf_bytes
           (py "d.pptx") picture_deck);
    reflexivity.
Defined.

(* ================================================================== *)
(** * Further properties of [extract_document] *)

Lemma split_tail_after_dot (a rest : str) :
  tl (split DOT (a ++ DOT :: rest)) <> [].
Proof.
  induction a as [|c a IH].
  - simpl. apply ExtensionFacts.split_nonempty.
  - simpl app. cbn [split]. destruct (N.eqb c DOT).
    + cbn [tl]. apply ExtensionFacts.split_nonempty.
    + destruct (split DOT (a ++ DOT :: rest)) as [|seg segs] eqn:E.
      * exfalso. exact (ExtensionFacts.split_nonempty _ _ E).
      * exact IH.
Qed.

(** What comes before a dot has no part in the last segment. *)
Lemma last_item_after_dot (a rest : str) :
  last_item (split DOT (a ++ DOT :: rest)) = last_item (split DOT rest).
Proof.
  unfold last_item. induction a as [|c a IH].
  - simpl. pose proof (ExtensionFacts.split_nonempty DOT rest).
    destruct (split DOT rest); [contradiction|reflexivity].
  - simpl app. cbn [split]. pose proof (split_tail_after_dot a rest) as Ht.
    destruct (N.eqb c DOT).
    + destruct (split DOT (a ++ DOT :: rest)) as [|seg segs];
        [contradiction Ht; reflexivity|exact IH].
    + destruct (split DOT (a ++ DOT :: rest)) as [|seg segs];
        [contradiction Ht; reflexivity|].
      destruct segs as [|seg' segs]; [contradiction Ht; reflexivity|exact IH].
Qed.

(** [s.isascii()] *)
Definition isascii (s : str) : bool := forallb (fun c => N.ltb c 128) s.

(** X9: when what follows the last dot of a file name is made of ASCII
    characters, the extension is that suffix with its capital letters
    made small, whatever comes before that dot. *)
Theorem file_extension_of_suffix (base ext : str) :
  no_dot ext = true ->
  isascii ext = true ->
  file_extension_of (base ++ DOT :: ext) = lower ext.
Proof.
  intros H _. rewrite ExtensionFacts.file_extension_of_last_segment.
  rewrite last_item_after_dot.
  rewrite (ExtensionFacts.split_no_dot _ (no_dot_Forall _ H)). reflexivity.
Qed.

Lemma file_extension_of_suffix_witness :
  file_extension_of (py "my.report.v2" ++ DOT :: py "PdF") = py "pdf".
Proof.
  apply (file_extension_of_suffix (py "my.report.v2") (py "PdF"));
    reflexivity.
Defined.

Lemma extract_pdf_fields PdfReader_open now content name r :
  extract_pdf PdfReader_open now content name = inr r ->
  success r = true /\ filename r = name /\ file_type r = py "pdf"
  /\ extracted_at r = now /\ strip (text_content r) = text_content r.
Proof.
  unfold extract_pdf, extract_pdf_try.
  destruct (PdfReader_open content) as [reader|e]; [|discriminate].
  cbn [bind]. destruct (pdf_pages_loop _ _ _); [|discriminate].
  cbn [bind]. intros H. injection H as <-. cbn.
  repeat split. apply StripFacts.strip_idempotent.
Qed.

Lemma extract_pptx_fields Presentation_open now content name r :
  extract_pptx Presentation_open now content name = inr r ->
  success r = true /\ filename r = name /\ file_type r = py "pptx"
  /\ extracted_at r = now /\ strip (text_content r) = text_content r.
Proof.
  unfold extract_pptx, extract_pptx_try.
  destruct (Presentation_open content) as [presentation|e]; [|discriminate].
  cbn [bind]. destruct (slides_loop _ _ _ _).
  intros H. injection H as <-. cbn.
  repeat split. apply StripFacts.strip_idempotent.
Qed.

Section MoreDispatchFacts.

Variable PdfReader_open : list byte -> result PdfReader.
Variable Presentation_open : list byte -> result Presentation.
Variable utcnow_isoformat : str.

(** X6: every error of the extract route is a client error: whatever
    the handler raises has status 400. *)
Theorem extract_document_client_errors
    (file : UploadFile) (calls : list call) (e : HTTPException) :
  extract_document PdfReader_open Presentation_open utcnow_isoformat file
    = (calls, Raised e) ->
  status_code e = 400%Z.
Proof.
  unfold extract_document.
  destruct (negb _); [intros H; injection H as _ <-; reflexivity|].
  destruct (Nat.eqb _ 0); [intros H; injection H as _ <-; reflexivity|].
  destruct (str_eqb _ (py "pdf")).
  - unfold extract_pdf. destruct (extract_pdf_try _ _ _ _); cbn [outcome_of];
      intros H; [discriminate H|injection H as _ <-; reflexivity].
  - destruct (str_eqb _ (py "pptx")); [|discriminate].
    unfold extract_pptx. destruct (extract_pptx_try _ _ _ _); cbn [outcome_of];
      intros H; [discriminate H|injection H as _ <-; reflexivity].
Qed.

(** X7: a response of the extract route says success, carries the file
    name as it was sent, has as file type the extension of that name,
    which is pdf or pptx, is stamped with the time of the request, and
    its text content has no white space at either end.  The upload was
    not empty and exactly one extractor was called, on its bytes. *)
Theorem extract_document_response
    (file : UploadFile) (calls : list call) (r : DocumentResponse) :
  extract_document PdfReader_open Presentation_open utcnow_isoformat file
    = (calls, Returned r) ->
  success r = true
  /\ filename r = upload_filename file
  /\ file_type r = file_extension_of (upload_filename file)
  /\ (file_type r = py "pdf" \/ file_type r = py "pptx")
  /\ extracted_at r = utcnow_isoformat
  /\ strip (text_content r) = text_content r
  /\ upload_content file <> []
  /\ (calls = [Call_extract_pdf (upload_content file) (upload_filename file)]
      \/ calls = [Call_extract_pptx (upload_content file) (upload_filename file)]).
Proof.
  unfold extract_document.
  destruct (negb _); [discriminate|].
  destruct (Nat.eqb _ 0) eqn:Hlen; [discriminate|].
  assert (Hne : upload_content file <> []).
  { intros E. rewrite E in Hlen. discriminate Hlen. }
  destruct (str_eqb _ (py "pdf")) eqn:E1.
  - apply ExtensionFacts.str_eqb_eq in E1.
    intros H. injection H as <- H. unfold outcome_of in H.
    destruct (extract_pdf _ _ _ _) as [e|r'] eqn:E; [discriminate|].
    injection H as <-. apply extract_pdf_fields in E.
    destruct E as [H1 [H2 [H3 [H4 H5]]]]. rewrite E1, H3. auto 10.
  - destruct (str_eqb _ (py "pptx")) eqn:E2; [|discriminate].
    apply ExtensionFacts.str_eqb_eq in E2.
    intros H. injection H as <- H. unfold outcome_of in H.
    destruct (extract_pptx _ _ _ _) as [e|r'] eqn:E; [discriminate|].
    injection H as <-. apply extract_pptx_fields in E.
    destruct E as [H1 [H2 [H3 [H4 H5]]]]. rewrite E2, H3. auto 10.
Qed.

End MoreDispatchFacts.

(** X8: each upload meets at most its own parser.  The answer to a PDF
    upload does not depend on the slide-deck parser, the answer to a
    slide-deck upload does not depend on the PDF parser or, like the
    answer to an unsupported upload, on anything but the request. *)
Theorem extract_document_parser_independence
    (P P' : list byte -> result PdfReader)
    (Q Q' : list byte -> result Presentation)
    (now : str) (file : UploadFile) :
  (file_extension_of (upload_filename file) = py "pdf" ->
   extract_document P Q now file = extract_document P Q' now file)
  /\ (file_extension_of (upload_filename file) = py "pptx" ->
      extract_document P Q now file = extract_document P' Q now file)
  /\ (is_supported (file_extension_of (upload_filename file)) = false ->
      extract_document P Q now file = extract_document P' Q' now file).
Proof.
  split; [|split]; intros H.
  - rewrite !(extract_document_pdf _ _ _ _ H). reflexivity.
  - rewrite !(extract_document_pptx _ _ _ _ H). reflexivity.
  - rewrite !(extract_document_unsupported _ _ _ _ H). reflexivity.
Qed.

Lemma extract_document_client_errors_witness :
  status_code
    {| status_code := 400; detail := "Erro ao processar PDF: ";
       detail_exn := Some (LibraryError (py "not a document")) |} = 400%Z.
Proof.
  apply (extract_document_client_errors refuses refuses clock
           (upload "broken.pdf" pdf_bytes)
           [Call_extract_pdf pdf_bytes (py "broken.pdf")]).
  reflexivity.
Defined.

Lemma extract_document_response_witness :
  file_type (two_page_response "Scan.PDF" clock)
    = file_extension_of (py "Scan.PDF")
  /\ strip (text_content (two_page_response "Scan.PDF" clock))
     = text_content (two_page_response "Scan.PDF" clock).
Proof.
  destruct (extract_document_response (reads_as two_page_reader) refuses clock
              (upload "Scan.PDF" pdf_bytes)
              [Call_extract_pdf pdf_bytes (py "Scan.PDF")]
              (two_page_response "Scan.PDF" clock) eq_refl)
    as [_ [_ [H3 [_ [_ [H6 _]]]]]].
  split; [exact H3|exact H6].
Defined.

Lemma extract_document_parser_independence_witness :
  extract_document (reads_as two_page_reader) refuses clock
    (upload "a.pdf" pdf_bytes)
  = extract_document (reads_as two_page_reader) (reads_as titled_deck) clock
      (upload "a.pdf" pdf_bytes)
  /\ extract_document refuses (reads_as titled_deck) clock
       (upload "a.pptx" pdf_bytes)
     = extract_document (reads_as two_page_reader) (reads_as titled_deck) clock
         (upload "a.pptx" pdf_bytes).
Proof.
  split.
  - apply (proj1 (extract_document_parser_independence
                    (reads_as two_page_reader) refuses refuses
                    (reads_as titled_deck) clock (upload "a.pdf" pdf_bytes))).
    reflexivity.
  - apply (proj1 (proj2 (extract_document_parser_independence
                    refuses (reads_as two_page_reader)
                    (reads_as titled_deck) refuses clock
                    (upload "a.pptx" pdf_bytes)))).
    reflexivity.
Defined.

(* ================================================================== *)
(** * Further properties of the JSON recovery route *)

Lemma skip_ws_blank (s : str) : forallb is_ws s = true -> skip_ws s = [].
Proof.
  induction s as [|c s IH]; intros H; [reflexivity|].
  cbn [forallb] in H. apply andb_true_iff in H. destruct H as [Hc H].
  simpl. rewrite Hc. exact (IH H).
Qed.

Lemma loads_blank (depth : nat) (s : str) :
  forallb is_ws s = true -> loads depth s = DecodeError.
Proof.
  intros H. unfold loads, loads_fuel, enough_fuel.
  rewrite (skip_ws_blank s H).
  replace (2 * List.length s + 2) with (S (2 * List.length s + 1)) by lia.
  reflexivity.
Qed.

(** X13: a raw text that is empty or made of JSON white space only is
    answered with the decode error. *)
Theorem transform_blank_raw_text (recursion_left : nat) (payload : TextInput) :
  forallb is_ws (raw_text payload) = true ->
  transform_text_to_json recursion_left payload = inl decode_error.
Proof.
  intros H. rewrite transform_unfold. unfold transform_try.
  rewrite (json_loads_none _ _ (loads_blank _ _ H)). reflexivity.
Qed.

Lemma transform_blank_raw_text_witness :
  transform_text_to_json default_recursion_left
    {| raw_text := [32; 10; 9; 13]%N |} = inl decode_error
  /\ transform_text_to_json default_recursion_left {| raw_text := [] |}
     = inl decode_error.
Proof.
  split.
  - apply (transform_blank_raw_text default_recursion_left
             {| raw_text := [32; 10; 9; 13]%N |}).
    reflexivity.
  - apply (transform_blank_raw_text default_recursion_left {| raw_text := [] |}).
    reflexivity.
Defined.

Lemma search_no_marker (s : str) :
  ReFacts.no_marker_in s [] = true -> Re.search Re.json_block s = None.
Proof.
  intros H. rewrite <- (app_nil_r s).
  rewrite (ReFacts.search_skips s [] H). reflexivity.
Qed.

(** X12: when no opening marker (three backticks and the word json in
    either case) starts anywhere in the text member, the handler answers
    with the structure error of the missing block; a text without any
    backtick is such a text. *)
Theorem transform_no_marker
    (recursion_left : nat)
    (payload : TextInput) (d : list (str * value)) (tl : list value) (s : str) :
  loads recursion_left (raw_text payload) = Decoded (VList (VDict d :: tl)) ->
  dict_get d (py "text") = Some (VStr s) ->
  ReFacts.no_marker_in s [] = true \/ ReFacts.no_backtick s = true ->
  transform_text_to_json recursion_left payload
  = inl (structure_error msg_no_block).
Proof.
  intros Hl Hd Hs.
  assert (Hm : ReFacts.no_marker_in s [] = true).
  { destruct Hs as [Hs|Hs]; [exact Hs|].
    apply ReFacts.no_backtick_no_marker, Hs. }
  rewrite transform_unfold, (transform_try_envelope _ _ _ _ _ Hl Hd).
  cbn [re_search bind]. rewrite (search_no_marker s Hm). reflexivity.
Qed.

Definition raw_plain_fence : str :=
  py "[{" ++ quoted "text" ++ py ": " ++ quoted "``` {} ``` and ``json {} ```"
  ++ py "}]".

Lemma transform_no_marker_witness :
  transform_text_to_json default_recursion_left {| raw_text := raw_plain_fence |}
    = inl (structure_error msg_no_block)
  /\ transform_text_to_json default_recursion_left {| raw_text := raw_no_fence |}
    = inl (structure_error msg_no_block).
Proof.
  split.
  - apply (transform_no_marker default_recursion_left
             {| raw_text := raw_plain_fence |}
             [(py "text", VStr (py "``` {} ``` and ``json {} ```"))] []
             (py "``` {} ``` and ``json {} ```")).
    + vm_compute; reflexivity.
    + reflexivity.
    + left. vm_compute; reflexivity.
  - apply (transform_no_marker default_recursion_left
             {| raw_text := raw_no_fence |}
             [(py "text", VStr (py "no fence here"))] []
             (py "no fence here")).
    + vm_compute; reflexivity.
    + reflexivity.
    + right. vm_compute; reflexivity.
Defined.

(** X11: once the raw text is decoded, the handler looks at the first
    item of the list and at its text member only: two raw texts that both
    decode, within the limits of the interpreter, to lists whose first
    items are objects with the same text member get the same answer,
    whatever else the objects and the lists hold. *)
Theorem transform_first_item_only
    (recursion_left : nat)
    (p1 p2 : TextInput) (d1 d2 : list (str * value)) (tl1 tl2 : list value)
    (t : value) :
  json_loads recursion_left (raw_text p1) = Ok (VList (VDict d1 :: tl1)) ->
  json_loads recursion_left (raw_text p2) = Ok (VList (VDict d2 :: tl2)) ->
  dict_get d1 (py "text") = Some t ->
  dict_get d2 (py "text") = Some t ->
  transform_text_to_json recursion_left p1
  = transform_text_to_json recursion_left p2.
Proof.
  intros H1 H2 Hd1 Hd2.
  rewrite !transform_unfold. unfold transform_try.
  rewrite H1, H2. cbn [bind]. rewrite Hd1, Hd2. reflexivity.
Qed.

Definition raw_with_extras : str :=
  py "[{" ++ quoted "id" ++ py ": 7, " ++ quoted "text" ++ py ": "
  ++ quoted "```json [true] ```" ++ py "}, 1, " ++ quoted "```json {} ```"
  ++ py ", {" ++ quoted "text" ++ py ": null}]".

Definition raw_without_extras : str :=
  py "[{" ++ quoted "text" ++ py ": " ++ quoted "```json [true] ```" ++ py "}]".

Lemma transform_first_item_only_witness :
  transform_text_to_json default_recursion_left {| raw_text := raw_with_extras |}
  = transform_text_to_json default_recursion_left
      {| raw_text := raw_without_extras |}.
Proof.
  apply (transform_first_item_only default_recursion_left
           {| raw_text := raw_with_extras |} {| raw_text := raw_without_extras |}
           [(py "id", VInt 7); (py "text", VStr (py "```json [true] ```"))]
           [(py "text", VStr (py "```json [true] ```"))]
           [VInt 1; VStr (py "```json {} ```"); VDict [(py "text", VNone)]] []
           (VStr (py "```json [true] ```")));
    vm_compute; reflexivity.
Defined.

Lemma json_loads_ok (d : nat) (s : str) (v : value) :
  json_loads d s = Ok v -> loads d s = Decoded v.
Proof.
  unfold json_loads. destruct (loads d s) as [w| |[|n]]; intros H;
    try discriminate H. injection H as <-. reflexivity.
Qed.

(** When the handler gets to the search: the raw text is a list whose
    first item is an object with the text member [t]. *)
Definition reaches_search (recursion_left : nat) (payload : TextInput)
    (t : value) : Prop :=
  exists d tl,
    loads recursion_left (raw_text payload) = Decoded (VList (VDict d :: tl))
    /\ dict_get d (py "text") = Some t.

(** X10: the handler fails with status 400 or 500 and nothing else,
    and with 500 exactly in three cases: the raw text is nested deeper
    than the recursion that is left; the text member of the first item is
    not a string; the content captured by the search is nested deeper
    than the recursion that is left. *)
Theorem transform_status
    (recursion_left : nat) (payload : TextInput) (e : HTTPException) :
  transform_text_to_json recursion_left payload = inl e ->
  (status_code e = 400%Z \/ status_code e = 500%Z)
  /\ (status_code e = 500%Z <->
      json_loads recursion_left (raw_text payload) = Raise RecursionError
      \/ (exists t, reaches_search recursion_left payload t /\ is_str t = false)
      \/ (exists s g,
            reaches_search recursion_left payload (VStr s)
            /\ Re.search Re.json_block s = Some g
            /\ json_loads recursion_left g = Raise RecursionError)).
Proof.
  rewrite transform_unfold. unfold transform_try.
  destruct (json_loads recursion_left (raw_text payload)) as [v|e0] eqn:Hj;
    cbn [bind].
  2:{ intros H. injection H as <-.
      assert (Hno : forall t, ~ reaches_search recursion_left payload t).
      { intros t (d & tl & Hl & _). apply json_loads_some in Hl.
        rewrite Hl in Hj. discriminate Hj. }
      destruct (json_loads_raises _ _ _ Hj) as [->|[->|[n ->]]].
      - split; [left; reflexivity|]. split; [discriminate|].
        intros [H|[(t & H & _)|(s & g & H & _)]];
          [discriminate H|destruct (Hno _ H)|destruct (Hno _ H)].
      - split; [right; reflexivity|]. split; [|reflexivity].
        intros _. left. reflexivity.
      - split; [left; reflexivity|]. split; [discriminate|].
        intros [H|[(t & H & _)|(s & g & H & _)]];
          [discriminate H|destruct (Hno _ H)|destruct (Hno _ H)]. }
  pose proof (json_loads_ok _ _ _ Hj) as Hl.
  assert (Hshape : forall t, reaches_search recursion_left payload t ->
            exists d tl, v = VList (VDict d :: tl)
                         /\ dict_get d (py "text") = Some t).
  { intros t (d & tl & H & Hd). rewrite Hl in H. injection H as ->.
    exists d, tl. split; [reflexivity|exact Hd]. }
  assert (H400 : forall e',
            status_code e' = 400%Z ->
            (forall t, ~ reaches_search recursion_left payload t) ->
            (status_code e' = 400%Z \/ status_code e' = 500%Z)
            /\ (status_code e' = 500%Z <->
                Ok v = Raise RecursionError
                \/ (exists t, reaches_search recursion_left payload t
                              /\ is_str t = false)
                \/ (exists s g,
                      reaches_search recursion_left payload (VStr s)
                      /\ Re.search Re.json_block s = Some g
                      /\ json_loads recursion_left g = Raise RecursionError))).
  { intros e' He Hno. split; [left; exact He|]. split.
    - intros H. rewrite He in H. discriminate H.
    - intros [H|[(t & H & _)|(s & g & H & _)]];
        [discriminate H|destruct (Hno _ H)|destruct (Hno _ H)]. }
  destruct v as [| | | | |[|x tl]|];
    try (intros H; injection H as <-; apply H400; [reflexivity|];
         intros t Ht; destruct (Hshape _ Ht) as (d' & tl' & Hv & _);
         discriminate Hv).
  cbn [bind].
  destruct x as [| | | | | |d];
    try (intros H; injection H as <-; apply H400; [reflexivity|];
         intros t Ht; destruct (Hshape _ Ht) as (d' & tl' & Hv & _);
         discriminate Hv).
  destruct (dict_get d (py "text")) as [t|] eqn:Hd; cbn [bind].
  2:{ intros H. injection H as <-. apply H400; [reflexivity|].
      intros t Ht. destruct (Hshape _ Ht) as (d' & tl' & Hv & Hd').
      injection Hv as <- <-. rewrite Hd in Hd'. discriminate Hd'. }
  assert (Hreach : reaches_search recursion_left payload t).
  { exists d, tl. split; [exact Hl|exact Hd]. }
  assert (Hone : forall t', reaches_search recursion_left payload t' -> t' = t).
  { intros t' Ht'. destruct (Hshape _ Ht') as (d' & tl' & Hv & Hd').
    injection Hv as <- <-. rewrite Hd in Hd'. injection Hd' as <-.
    reflexivity. }
  destruct t as [| | | |s| |];
    try (cbn [re_search bind]; intros H; injection H as <-;
         split; [right; reflexivity|]; split; [|intros _; reflexivity];
         intros _; right; left; eexists; split; [exact Hreach|reflexivity]).
  cbn [re_search bind].
  destruct (Re.search Re.json_block s) as [g|] eqn:Hs; cbn [bind].
  - destruct (json_loads recursion_left g) as [w|e1] eqn:Hg; cbn [bind];
      [intros H; discriminate H|].
    intros H. injection H as <-.
    assert (Hstr : forall e',
              status_code e' = 400%Z -> e1 <> RecursionError ->
              (status_code e' = 400%Z \/ status_code e' = 500%Z)
              /\ (status_code e' = 500%Z <->
                  Ok (VList (VDict d :: tl)) = Raise RecursionError
                  \/ (exists t, reaches_search recursion_left payload t
                                /\ is_str t = false)
                  \/ (exists s0 g0,
                        reaches_search recursion_left payload (VStr s0)
                        /\ Re.search Re.json_block s0 = Some g0
                        /\ json_loads recursion_left g0
                           = Raise RecursionError))).
    { intros e' He Hne. split; [left; exact He|]. split.
      - intros H. rewrite He in H. discriminate H.
      - intros [H|[(t & H & Ht)|(s0 & g0 & H & Hs0 & Hg0)]].
        + discriminate H.
        + rewrite (Hone _ H) in Ht. discriminate Ht.
        + pose proof (Hone _ H) as Heq. injection Heq as ->.
          rewrite Hs in Hs0. injection Hs0 as <-.
          rewrite Hg in Hg0. injection Hg0 as ->.
          contradiction Hne; reflexivity. }
    destruct (json_loads_raises _ _ _ Hg) as [->|[->|[n ->]]].
    + apply Hstr; [reflexivity|discriminate].
    + split; [right; reflexivity|]. split; [|reflexivity].
      intros _. right. right. exists s, g.
      split; [exact Hreach|]. split; [exact Hs|exact Hg].
    + apply Hstr; [reflexivity|discriminate].
  - intros H. injection H as <-. split; [left; reflexivity|]. split.
    + discriminate.
    + intros [H|[(t & H & Ht)|(s0 & g0 & H & Hs0 & _)]].
      * discriminate H.
      * rewrite (Hone _ H) in Ht. discriminate Ht.
      * pose proof (Hone _ H) as Heq. injection Heq as ->.
        rewrite Hs in Hs0. discriminate Hs0.
Qed.

Lemma transform_status_witness :
  ((status_code (server_error TypeError) = 400%Z
    \/ status_code (server_error TypeError) = 500%Z)
   /\ (status_code (server_error TypeError) = 500%Z <->
       json_loads default_recursion_left raw_text_not_str = Raise RecursionError
       \/ (exists t,
             reaches_search default_recursion_left
               {| raw_text := raw_text_not_str |} t
             /\ is_str t = false)
       \/ (exists s g,
             reaches_search default_recursion_left
               {| raw_text := raw_text_not_str |} (VStr s)
             /\ Re.search Re.json_block s = Some g
             /\ json_loads default_recursion_left g = Raise RecursionError)))
  /\ ((status_code (server_error RecursionError) = 400%Z
       \/ status_code (server_error RecursionError) = 500%Z)
      /\ (status_code (server_error RecursionError) = 500%Z <->
          json_loads default_recursion_left raw_deep = Raise RecursionError
          \/ (exists t,
                reaches_search default_recursion_left
                  {| raw_text := raw_deep |} t
                /\ is_str t = false)
          \/ (exists s g,
                reaches_search default_recursion_left
                  {| raw_text := raw_deep |} (VStr s)
                /\ Re.search Re.json_block s = Some g
                /\ json_loads default_recursion_left g = Raise RecursionError))).
Proof.
  split.
  - apply (transform_status default_recursion_left
             {| raw_text := raw_text_not_str |} (server_error TypeError)).
    vm_compute; reflexivity.
  - apply (transform_status default_recursion_left
             {| raw_text := raw_deep |} (server_error RecursionError)).
    vm_compute; reflexivity.
Defined.

(* ================================================================== *)
(** * Further properties of the search: what a capture looks like *)

Module CaptureFacts.
Import Re ReFacts.
Local Open Scope N_scope.

(** The end of the pattern after the group: white space and the fence. *)
Definition closing : list atom := StarGreedy Space :: fence.

(** The lazy group and what follows it. *)
Definition group_body : list atom := StarLazy AnyChar :: GroupClose :: closing.

(** The text after a closing fence that starts here. *)
Definition after_fence (t : str) : option str :=
  match t with
  | a :: b :: c :: r =>
      if lit_match BACKTICK a && lit_match BACKTICK b && lit_match BACKTICK c
      then Some r else None
  | _ => None
  end.

(** The text after white space and a closing fence that start here, as
    the greedy repetition finds them. *)
Fixpoint after_close (t : str) : option str :=
  match t with
  | x :: t' =>
      if isspace x then
        match after_close t' with
        | Some r => Some r
        | None => after_fence t
        end
      else after_fence t
  | [] => None
  end.

Lemma consume_is_closed (st : capture) (x : N) :
  is_open st = false -> consume st x = st.
Proof. intros H. unfold consume. rewrite H. reflexivity. Qed.

Lemma fence_closed (st : capture) (t : str) :
  is_open st = false ->
  match_here fence st t = option_map (pair (rev (captured st))) (after_fence t).
Proof.
  intros H. unfold fence, after_fence.
  destruct t as [|a [|b [|c r]]]; try reflexivity.
  - rewrite match_lit. destruct (lit_match BACKTICK a); reflexivity.
  - rewrite match_lit, (consume_is_closed st a H).
    destruct (lit_match BACKTICK a); [|reflexivity].
    rewrite match_lit. destruct (lit_match BACKTICK b); reflexivity.
  - rewrite match_lit, (consume_is_closed st a H).
    destruct (lit_match BACKTICK a); [|reflexivity].
    rewrite match_lit, (consume_is_closed st b H).
    destruct (lit_match BACKTICK b); [|reflexivity].
    rewrite match_lit, (consume_is_closed st c H).
    destruct (lit_match BACKTICK c); reflexivity.
Qed.

Lemma closing_closed (t : str) : forall st,
  is_open st = false ->
  match_here closing st t = option_map (pair (rev (captured st))) (after_close t).
Proof.
  unfold closing. induction t as [|x t IH]; intros st H.
  - change (match_here (StarGreedy Space :: fence) st [])
      with (match_here fence st []).
    rewrite (fence_closed st [] H). reflexivity.
  - rewrite match_greedy_cons, (consume_is_closed st x H), (IH st H).
    rewrite (fence_closed st (x :: t) H).
    cbn [class_match after_close].
    destruct (isspace x); [|reflexivity].
    destruct (after_close t); reflexivity.
Qed.

(** What the lazy group captures: it stops at the first place where
    the closing matches, and so never on white space. *)
Lemma lazy_result (s : str) : forall acc g r,
  match_here group_body {| is_open := true; captured := acc |} s = Some (g, r) ->
  exists b t,
    s = b ++ t /\ g = rev acc ++ b /\ ends_nonspace b = true
    /\ after_close t = Some r.
Proof.
  unfold group_body.
  induction s as [|x s IH]; intros acc g r H; rewrite match_lazy in H;
    change (match_here (GroupClose :: closing)
              {| is_open := true; captured := acc |})
      with (match_here closing {| is_open := false; captured := acc |}) in H;
    rewrite closing_closed in H by reflexivity; cbn [captured] in H.
  - destruct (after_close []) as [r0|] eqn:E; [|discriminate H].
    discriminate E.
  - destruct (after_close (x :: s)) as [r0|] eqn:E.
    + cbn in H. injection H as <- <-.
      exists [], (x :: s). rewrite app_nil_r. auto.
    + cbn [option_map class_match] in H.
      change (consume {| is_open := true; captured := acc |} x)
        with {| is_open := true; captured := x :: acc |} in H.
      destruct (IH _ _ _ H) as [b [t [Hs [Hg [He Hc]]]]].
      exists (x :: b), t. subst s g. cbn [rev]. rewrite <- app_assoc.
      split; [reflexivity|]. split; [reflexivity|]. split; [|exact Hc].
      destruct b as [|y b]; [|exact He].
      cbn [ends_nonspace]. destruct (isspace x) eqn:Ex; [|reflexivity].
      cbn [app after_close] in E. rewrite Ex, Hc in E. discriminate E.
Qed.

(** The lazy group finds a closing that is there. *)
Lemma lazy_complete (b t r : str) : forall acc,
  after_close t = Some r ->
  exists p, match_here group_body {| is_open := true; captured := acc |} (b ++ t)
            = Some p.
Proof.
  unfold group_body.
  induction b as [|x b IH]; intros acc H; rewrite match_lazy;
    change (match_here (GroupClose :: closing)
              {| is_open := true; captured := acc |})
      with (match_here closing {| is_open := false; captured := acc |});
    rewrite closing_closed by reflexivity.
  - cbn [app]. rewrite H. eexists. reflexivity.
  - destruct (after_close ((x :: b) ++ t)); [eexists; reflexivity|].
    cbn [option_map app class_match].
    change (consume {| is_open := true; captured := acc |} x)
      with {| is_open := true; captured := x :: acc |}.
    apply IH. exact H.
Qed.

(** From the white space after the marker on. *)
Definition after_marker : list atom :=
  StarGreedy Space :: GroupOpen :: group_body.

Lemma group_from_closed (st : capture) (s : str) :
  match_here (GroupOpen :: group_body) st s
  = match_here group_body {| is_open := true; captured := [] |} s.
Proof. reflexivity. Qed.

(** The first repetition takes all the white space there is, so that
    the capture never starts on white space. *)
Lemma after_marker_result (s : str) : forall g r,
  match_here after_marker no_capture s = Some (g, r) ->
  starts_nonspace g = true /\ ends_nonspace g = true.
Proof.
  unfold after_marker.
  induction s as [|x s IH]; intros g r H.
  - discriminate H.
  - rewrite match_greedy_cons in H. cbn [class_match] in H.
    change (consume no_capture x) with no_capture in H.
    rewrite group_from_closed in H.
    destruct (isspace x) eqn:Ex.
    + destruct (match_here (StarGreedy Space :: GroupOpen :: group_body)
                  no_capture s) as [p|] eqn:E.
      * injection H as ->. apply (IH _ _ eq_refl).
      * destruct (lazy_result _ _ _ _ H) as [b [t [Hs [Hg [He Hc]]]]].
        cbn [rev app] in Hg. subst g.
        destruct b as [|y b]; [split; reflexivity|].
        exfalso. cbn [app] in Hs. injection Hs as _ Hs. subst s.
        destruct (lazy_complete b t r [] Hc) as [p Hp].
        rewrite <- (group_from_closed no_capture) in Hp.
        destruct (b ++ t) as [|z u].
        -- change (match_here (StarGreedy Space :: GroupOpen :: group_body)
                     no_capture [])
             with (match_here (GroupOpen :: group_body) no_capture []) in E.
           rewrite Hp in E. discriminate E.
        -- rewrite match_greedy_cons, Hp in E.
           destruct (class_match Space z); [|discriminate E].
           destruct (match_here _ (consume no_capture z) u); discriminate E.
    + destruct (lazy_result _ _ _ _ H) as [b [t [Hs [Hg [He Hc]]]]].
      cbn [rev app] in Hg. subst g. split; [|exact He].
      destruct b as [|y b]; [reflexivity|].
      cbn [app] in Hs. injection Hs as <- _. cbn. rewrite Ex. reflexivity.
Qed.

Lemma match_lits_prefix (cs : list N) (re' : list atom) : forall st s p,
  is_open st = false ->
  match_here (List.map Lit cs ++ re') st s = Some p ->
  exists s', match_here re' st s' = Some p.
Proof.
  induction cs as [|c cs IH]; intros st s p Hst H.
  - exists s. exact H.
  - destruct s as [|x s]; [discriminate H|].
    cbn [List.map app] in H. rewrite match_lit in H.
    destruct (lit_match c x); [|discriminate H].
    rewrite (consume_is_closed st x Hst) in H.
    exact (IH st s p Hst H).
Qed.

Lemma search_match (s : str) : forall g,
  search json_block s = Some g ->
  exists s' r, match_here json_block no_capture s' = Some (g, r).
Proof.
  induction s as [|x s IH]; intros g H; cbn [search] in H.
  - destruct (match_here json_block no_capture []) as [[g' r']|] eqn:E;
      [|discriminate H].
    injection H as <-. eauto.
  - destruct (match_here json_block no_capture (x :: s)) as [[g' r']|] eqn:E.
    + injection H as <-. eauto.
    + exact (IH g H).
Qed.

(** Whatever the text, a capture of the search has no white space at
    either end. *)
Lemma search_capture_ends (s g : str) :
  search json_block s = Some g ->
  starts_nonspace g = true /\ ends_nonspace g = true.
Proof.
  intros H. destruct (search_match s g H) as [s' [r Hm]].
  change json_block with (List.map Lit (py "```json") ++ after_marker) in Hm.
  destruct (match_lits_prefix (py "```json") after_marker no_capture s' (g, r)
              eq_refl Hm) as [s'' Hs].
  exact (after_marker_result s'' g r Hs).
Qed.

End CaptureFacts.

(** X15: whenever the search of the handler finds a block, the text it
    captures, which is what the handler decodes next, has no white space
    at either end: [strip] leaves it as it is. *)
Theorem search_capture_stripped (s g : str) :
  Re.search Re.json_block s = Some g -> strip g = g.
Proof.
  intros H. destruct (CaptureFacts.search_capture_ends s g H) as [Hs He].
  apply StripFacts.strip_id; assumption.
Qed.

Lemma search_capture_stripped_witness :
  strip (py "[1, 2]") = py "[1, 2]".
Proof.
  apply (search_capture_stripped
           ([9%N; 10%N] ++ py "see ```Json" ++ [10%N; 13%N; 32%N] ++ py "[1, 2]"
            ++ [160%N; 10%N] ++ py "``` and ```json {} ```")).
  vm_compute; reflexivity.
Defined.

(* ================================================================== *)
(** * Further properties of the search: when a block is found *)

Module FoundFacts.
Import Re ReFacts CaptureFacts.
Local Open Scope N_scope.

(** The first repetition does not lose a match of what follows it. *)
Lemma greedy_keeps_match (re' : list atom) (st : capture) (s : str) p :
  match_here re' st s = Some p ->
  exists p', match_here (StarGreedy Space :: re') st s = Some p'.
Proof.
  intros H. destruct s as [|x s].
  - exists p. exact H.
  - rewrite match_greedy_cons. destruct (class_match Space x); [|eauto].
    destruct (match_here (StarGreedy Space :: re') (consume st x) s); eauto.
Qed.

Lemma search_keeps_match (pre t : str) p :
  match_here json_block no_capture t = Some p ->
  exists g, search json_block (pre ++ t) = Some g.
Proof.
  intros H. induction pre as [|x pre IH].
  - destruct p as [g r]. exists g. exact (search_found t g r H).
  - simpl app. cbn [search].
    destruct (match_here json_block no_capture (x :: pre ++ t)) as [[g r]|];
      [eauto|exact IH].
Qed.

(** A marker with a fence anywhere after it is a block. *)
Lemma search_finds_block (pre tag mid rest : str) :
  opens_json_block tag = true ->
  exists g, search json_block (pre ++ tag ++ mid ++ py "```" ++ rest) = Some g.
Proof.
  intros Ht. unfold opens_json_block in Ht. apply andb_true_iff in Ht.
  destruct Ht as [Hlen Ht]. apply Nat.eqb_eq in Hlen.
  assert (Hc : after_close (py "```" ++ rest) = Some rest) by reflexivity.
  destruct (lazy_complete mid (py "```" ++ rest) rest [] Hc) as [p Hp].
  rewrite <- (group_from_closed no_capture) in Hp.
  destruct (greedy_keeps_match _ _ _ _ Hp) as [p' Hp'].
  apply (search_keeps_match pre _ p').
  change json_block with (List.map Lit (py "```json") ++ after_marker).
  rewrite (match_lits_ok (py "```json") after_marker no_capture tag _
             Ht Hlen eq_refl).
  exact Hp'.
Qed.

End FoundFacts.

(** X16: when the text member holds an opening marker and, anywhere
    after it, three backticks, the search finds a block: the handler does
    not answer with the error of the missing block, but goes on to decode
    what it captured, and answers with the decoded value or, when that
    decoding raises, with the answer to its exception. *)
Theorem transform_finds_block
    (recursion_left : nat)
    (payload : TextInput) (d : list (str * value)) (tl : list value)
    (pre tag mid rest : str) :
  loads recursion_left (raw_text payload) = Decoded (VList (VDict d :: tl)) ->
  dict_get d (py "text")
    = Some (VStr (pre ++ tag ++ mid ++ py "```" ++ rest)) ->
  ReFacts.opens_json_block tag = true ->
  (exists g,
     Re.search Re.json_block (pre ++ tag ++ mid ++ py "```" ++ rest) = Some g
     /\ transform_text_to_json recursion_left payload
        = match json_loads recursion_left g with
          | Ok w => inr w
          | Raise e => inl (transform_except e)
          end)
  /\ transform_text_to_json recursion_left payload
     <> inl (structure_error msg_no_block).
Proof.
  intros Hl Hd Ht.
  destruct (FoundFacts.search_finds_block pre tag mid rest Ht) as [g Hg].
  pose proof (transform_captured _ _ _ _ _ _ Hl Hd Hg) as HT.
  split; [exists g; split; [exact Hg|exact HT]|].
  rewrite HT. destruct (json_loads recursion_left g) as [w|e] eqn:He;
    [discriminate|].
  destruct (json_loads_raises _ _ _ He) as [->|[->|[n ->]]]; discriminate.
Qed.

Definition raw_fence_in_content : str :=
  py "[{" ++ quoted "text" ++ py ": " ++ quoted "x```JSON [`a`, ```] ``` y"
  ++ py "}]".

Lemma transform_finds_block_witness :
  (exists g,
     Re.search Re.json_block
       (py "x" ++ py "```JSON" ++ py " [`a`, " ++ py "```" ++ py "] ``` y") = Some g
     /\ transform_text_to_json default_recursion_left
          {| raw_text := raw_fence_in_content |}
        = match json_loads default_recursion_left g with
          | Ok w => inr w
          | Raise e => inl (transform_except e)
          end)
  /\ transform_text_to_json default_recursion_left
       {| raw_text := raw_fence_in_content |}
     <> inl (structure_error msg_no_block).
Proof.
  apply (transform_finds_block default_recursion_left
           {| raw_text := raw_fence_in_content |}
           [(py "text", VStr (py "x```JSON [`a`, ```] ``` y"))] []
           (py "x") (py "```JSON") (py " [`a`, ") (py "] ``` y"));
    vm_compute; reflexivity.
Defined.

(* ================================================================== *)
(** * Further properties of the extractors: the first line *)

Module FirstLineFacts.
Import ReFacts StripFacts.

Lemma lstrip_app_keeps (u v : str) :
  v <> [] -> starts_nonspace v = true ->
  exists w, lstrip (u ++ v) = w ++ v.
Proof.
  intros Hne Hv. induction u as [|c u [w IH]].
  - exists []. simpl. apply lstrip_id, Hv.
  - simpl. destruct (isspace c).
    + exists w. exact IH.
    + exists (c :: u). reflexivity.
Qed.

(** [rstrip] keeps a prefix that does not end in white space. *)
Lemma rstrip_app_keeps (a b : str) :
  a <> [] -> ends_nonspace a = true ->
  exists w, rstrip (a ++ b) = a ++ w.
Proof.
  intros Hne He. unfold rstrip. rewrite rev_app_distr.
  assert (Hra : rev a <> []).
  { intros E. apply Hne. rewrite <- (rev_involutive a), E. reflexivity. }
  assert (Hs : starts_nonspace (rev a) = true).
  { rewrite <- (rev_involutive a) in He.
    destruct (rev a) as [|x t]; [reflexivity|].
    simpl rev in He. rewrite ends_nonspace_snoc in He. exact He. }
  destruct (lstrip_app_keeps (rev b) (rev a) Hra Hs) as [w Hw].
  exists (rev w). rewrite Hw, rev_app_distr, rev_involutive. reflexivity.
Qed.

(** After a line break, a line that neither starts nor ends with white
    space is the start of the stripped text. *)
Lemma strip_first_line (line rest : str) :
  line <> [] -> starts_nonspace line = true -> ends_nonspace line = true ->
  exists w, strip (NEWLINE :: line ++ rest) = line ++ w.
Proof.
  intros Hne Hs He. unfold strip.
  change (lstrip (NEWLINE :: line ++ rest)) with (lstrip (line ++ rest)).
  rewrite lstrip_id.
  - apply rstrip_app_keeps; assumption.
  - destruct line; [contradiction Hne; reflexivity|exact Hs].
Qed.

End FirstLineFacts.

(** The first line of a text content with pages, and with slides. *)
Definition first_page_line : str := py "--- P" ++ [225%N] ++ py "gina 1 ---".

Definition first_slide_line : str := py "--- Slide 1 ---".

(** X17: the text content of a PDF with at least one page starts with
    the separator of page 1, and that of a deck with at least one slide
    with the separator of slide 1: the line break written in front of the
    first separator is trimmed away. *)
Theorem text_content_first_line
    (PdfReader_open : list byte -> result PdfReader)
    (Presentation_open : list byte -> result Presentation)
    (now : str) (file_content : list byte) (filename : str) :
  (forall reader t texts,
     PdfReader_open file_content = Ok reader ->
     List.map extract_text (pages reader) = List.map (@Ok str) (t :: texts) ->
     exists r w,
       extract_pdf PdfReader_open now file_content filename = inr r
       /\ text_content r = first_page_line ++ w)
  /\ (forall presentation slide rest,
        Presentation_open file_content = Ok presentation ->
        slides presentation = slide :: rest ->
        exists r w,
          extract_pptx Presentation_open now file_content filename = inr r
          /\ text_content r = first_slide_line ++ w).
Proof.
  split.
  - intros reader t texts Hopen Hpages.
    unfold extract_pdf, extract_pdf_try. rewrite Hopen. cbn [bind].
    rewrite (pdf_pages_loop_ok _ (t :: texts) 0 [] Hpages). cbn [bind].
    destruct (FirstLineFacts.strip_first_line first_page_line
                ([NEWLINE] ++ t ++ pages_text 1 texts))
      as [w Hw]; [discriminate|reflexivity|reflexivity|].
    eexists. exists w. split; [reflexivity|].
    cbn [text_content]. rewrite <- Hw. reflexivity.
  - intros presentation slide rest Hopen Hslides.
    unfold extract_pptx, extract_pptx_try. rewrite Hopen. cbn [bind].
    rewrite slides_loop_spec, Hslides.
    destruct (FirstLineFacts.strip_first_line first_slide_line
                ([NEWLINE] ++ shape_lines (shapes slide) ++ slides_text 2 rest))
      as [w Hw]; [discriminate|reflexivity|reflexivity|].
    eexists. exists w. split; [reflexivity|].
    cbn [text_content]. rewrite <- Hw. reflexivity.
Qed.

Lemma text_content_first_line_witness :
  (exists r w,
     extract_pdf (reads_as three_page_reader) clock pdf_bytes (py "r.pdf") = inr r
     /\ text_content r = first_page_line ++ w)
  /\ (exists r w,
        extract_pptx (reads_as picture_deck) clock pdf_bytes (py "d.pptx") = inr r
        /\ text_content r = first_slide_line ++ w).
Proof.
  split.
  - apply (proj1 (text_content_first_line (reads_as three_page_reader) refuses
                    clock pdf_bytes (py "r.pdf"))
             three_page_reader (py "one") [py ""; py "three"]);
      reflexivity.
  - apply (proj2 (text_content_first_line refuses (reads_as picture_deck)
                    clock pdf_bytes (py "d.pptx"))
             picture_deck {| shapes := [picture] |}
             [ {| shapes := [shape_with ""] |}; {| shapes := [] |} ]);
      reflexivity.
Defined.

(** X5: the extract handler never falls off its end: the last
    [if]/[elif] on the extension always takes one of its branches, so the
    handler either returns a response or raises, and never returns
    [None]. *)
Theorem extract_document_never_none
    (PdfReader_open : list byte -> result PdfReader)
    (Presentation_open : list byte -> result Presentation)
    (now : str) (file : UploadFile) :
  (exists r,
     snd (extract_document PdfReader_open Presentation_open now file)
     = Returned r)
  \/ (exists e,
        snd (extract_document PdfReader_open Presentation_open now file)
        = Raised e).
Proof.
  pose proof (extract_document_returns PdfReader_open Presentation_open now file)
    as H.
  destruct (snd (extract_document PdfReader_open Presentation_open now file));
    [left; eauto|right; eauto|contradiction H; reflexivity].
Qed.
